(** * Classical plasma transport coefficients: a shallow embedding of
    [plasmapy/physics/transport.py] and the properties of its specification.

    Conventions of the embedding.

    - Python floats are values of an abstract numeric type [A] carrying the
      operations the module uses (class [Arith], and [Transc] for the square
      root, fractional powers, logarithm and [np.pi]).  No law is assumed of
      these operations, so every theorem stated for an arbitrary [A] holds for
      any arithmetic, IEEE doubles included.  Two instances are given: exact
      rationals [Q] (executable; arithmetic only) and the reals [R].
    - An astropy [Quantity] is its magnitude in SI units; [.to(unit)] is then
      the identity and the [check_quantity] decorator is outside the model.
    - A numpy value is a scalar or a flat array ([nd]); Python's [None] is
      [None].  Temperatures, densities, the magnetic field and the Hall
      parameters are single numbers; only the relative velocity given to
      [Coulomb_logarithm] may be an array.
    - Division is the division of the arithmetic and returns a number for
      every denominator, as numpy's does ([inf] or [nan] for a zero
      denominator).  Python's own division, which raises
      [ZeroDivisionError] on a zero denominator of Python numbers (the
      [1/Z] of the Ji-Held ion evaluators at [Z = 0], the [Z - 0.214] of
      [f_kappa_4]), is not told apart from it: no theorem below says that a
      Ji-Held evaluator returns.
    - Exceptions are values ([exn]): the class and the f-string message kept
      as fragments, so that a number quoted in a message is the number.
    - Functions of other modules ([ion_mass], [Debye_length], ...) and the
      physical constants are the fields of the class [Collaborators]. *)

From Stdlib Require Import String Ascii List Bool Arith Lia ZArith.
From Stdlib Require Import QArith Qabs Qreduction Reals Qreals Lra.
Import ListNotations.

Close Scope Q_scope.

(** ** Numbers *)

Declare Scope num_scope.
Delimit Scope num_scope with num.

(** The arithmetic of Python floats used by the module.  [lit q] is the
    literal written [q] in the source; [fpow x n] is [x**n] for an integer
    literal [n]; [is_pinf x] is [x == np.inf]. *)
Class Arith (A : Type) : Type := {
  lit : Q -> A;
  fadd : A -> A -> A;
  fsub : A -> A -> A;
  fmul : A -> A -> A;
  fdiv : A -> A -> A;
  fpow : A -> nat -> A;
  fabs : A -> A;
  feqb : A -> A -> bool;
  fltb : A -> A -> bool;
  fleb : A -> A -> bool;
  is_pinf : A -> bool
}.

(** [fsqrt] is [np.sqrt], [fpowq x q] is [x**q] for a fractional exponent,
    [fln] is [np.log] and [np_pi] is [np.pi]. *)
Class Transc (A : Type) `{Arith A} : Type := {
  fsqrt : A -> A;
  fpowq : A -> Q -> A;
  fln : A -> A;
  np_pi : A
}.

Arguments lit {A _} _%_Q.
Arguments fpow {A _} _%_num _%_nat.
Arguments fpowq {A _ _} _%_num _%_Q.

Infix "+" := fadd : num_scope.
Infix "-" := fsub : num_scope.
Infix "*" := fmul : num_scope.
Infix "/" := fdiv : num_scope.
Infix "^" := fpow : num_scope.
Infix "=?" := feqb (at level 70) : num_scope.
Infix "<?" := fltb (at level 70) : num_scope.
Infix "<=?" := fleb (at level 70) : num_scope.
Notation "x >? y" := (fltb y x) (at level 70, only parsing) : num_scope.

(** Python's [x ** (p/q)]. *)
Notation "x ^^ q" := (fpowq x q) (at level 30, right associativity) : num_scope.

(** Exact rational arithmetic, results in lowest terms.  The rationals have
    no infinity. *)
#[export] Instance Arith_Q : Arith Q := {|
  lit q := Qred q;
  fadd a b := Qred (a + b);
  fsub a b := Qred (a - b);
  fmul a b := Qred (a * b);
  fdiv a b := Qred (a / b);
  fpow a n := Qred (Qpower a (Z.of_nat n));
  fabs a := Qred (Qabs a);
  feqb a b := Qeq_bool a b;
  fltb a b := negb (Qle_bool b a);
  fleb a b := Qle_bool a b;
  is_pinf _ := false
|}.

(** [x**q] on the reals, where numpy's result is finite: [x > 0], or [x = 0]
    and [q >= 0]. *)
Definition Rpowq (x : R) (q : Q) : R :=
  if Rlt_dec 0 x then Rpower x (Q2R q)
  else if Qeq_bool q 0 then 1%R else 0%R.

(** Real arithmetic.  The reals have no infinity. *)
#[export] Instance Arith_R : Arith R := {|
  lit q := Q2R q;
  fadd a b := (a + b)%R;
  fsub a b := (a - b)%R;
  fmul a b := (a * b)%R;
  fdiv a b := (a / b)%R;
  fpow a n := (a ^ n)%R;
  fabs a := Rabs a;
  feqb a b := if Req_dec_T a b then true else false;
  fltb a b := if Rlt_dec a b then true else false;
  fleb a b := if Rle_dec a b then true else false;
  is_pinf _ := false
|}.

#[export] Instance Transc_R : Transc R := {|
  fsqrt := sqrt;
  fpowq := Rpowq;
  fln := ln;
  np_pi := PI
|}.

(** ** Python values *)

(** A numpy value: a scalar or a flat array. *)
Inductive nd (A : Type) : Type :=
| Scalar (x : A)
| Array (xs : list A).

Arguments Scalar {A} x.
Arguments Array {A} xs.

(** Elementwise application, as numpy broadcasts a scalar function. *)
Definition nd_map {A B : Type} (f : A -> B) (v : nd A) : nd B :=
  match v with
  | Scalar x => Scalar (f x)
  | Array xs => Array (map f xs)
  end.

(** [v.flat] and [v.size]. *)
Definition flat {A : Type} (v : nd A) : list A :=
  match v with
  | Scalar x => [x]
  | Array xs => xs
  end.

Definition size {A : Type} (v : nd A) : nat := List.length (flat v).

(** Exception classes raised in the module; [CollaboratorError] is whatever
    a function of another module raised, uncaught here. *)
Inductive exn_class : Type :=
| PhysicsError
| ValueError
| TypeError
| IndexError
| KeyError
| UnboundLocalError
| CollaboratorError.

(** A piece of an f-string: literal text or a formatted number. *)
Inductive frag (A : Type) : Type :=
| Txt (s : string)
| Num (x : A).

Arguments Txt {A} s.
Arguments Num {A} x.

Record exn (A : Type) : Type := Raise {
  exn_cls : exn_class;
  exn_msg : list (frag A)
}.

Arguments Raise {A} exn_cls exn_msg.
Arguments exn_cls {A} e.
Arguments exn_msg {A} e.

(** The outcome of a call that may raise. *)
Inductive res (A X : Type) : Type :=
| Ok (x : X)
| Err (e : exn A).

Arguments Ok {A X} x.
Arguments Err {A X} e.

Definition rbind {A X Y : Type} (m : res A X) (f : X -> res A Y) : res A Y :=
  match m with
  | Ok x => f x
  | Err e => Err e
  end.

Notation "x <- m ;; k" := (rbind m (fun x => k))
  (at level 61, m at next level, right associativity).

(** [l[i]] for a list literal [l]. *)
Definition getitem {A X : Type} (l : list X) (i : nat) : res A X :=
  match nth_error l i with
  | Some x => Ok x
  | None => Err (Raise IndexError [Txt "list index out of range"])
  end.

(** ** Z-table lookup: [check_Z] *)

(** An entry of an [allowed_Z] list: a number, [np.inf] or the string
    ['arbitrary']. *)
Inductive zkey (A : Type) : Type :=
| KNum (z : A)
| KInf
| KArbitrary.

Arguments KNum {A} z.
Arguments KInf {A}.
Arguments KArbitrary {A}.

Section CheckZ.
Context {A : Type} `{Arith A}.

(** [allowed_Z_val == 'arbitrary']. *)
Definition is_arbitrary (k : zkey A) : bool :=
  match k with
  | KArbitrary => true
  | _ => false
  end.

(** [Z == allowed_Z_val] for a number [Z]. *)
Definition Z_eq (Z : A) (k : zkey A) : bool :=
  match k with
  | KNum z => (Z =? z)%num
  | KInf => is_pinf Z
  | KArbitrary => false
  end.

(** [enumerate(l)]. *)
Definition enumerate {X : Type} (l : list X) : list (nat * X) :=
  combine (seq 0 (List.length l)) l.

(** First loop of [check_Z]: [(arbitrary_Z_allowed, the_arbitrary_idx)],
    [None] standing for [np.nan]. *)
Definition find_arbitrary (allowed_Z : list (zkey A)) : bool * option nat :=
  fold_left
    (fun st p => if is_arbitrary (snd p) then (true, Some (fst p)) else st)
    (enumerate allowed_Z) (false, None).

(** Second loop of [check_Z]: [Z_idx], [None] standing for [np.nan]. *)
Definition find_Z (allowed_Z : list (zkey A)) (Z : A) : option nat :=
  fold_left
    (fun Z_idx p => if Z_eq Z (snd p) then Some (fst p) else Z_idx)
    (enumerate allowed_Z) None.

(** [check_Z(allowed_Z, Z)]; [caller] is the name the source reads off the
    call stack.  The last case ([np.nan] returned as an index) cannot occur,
    see [find_arbitrary_flag]; a caller would fail on it with a [TypeError]. *)
Definition check_Z (allowed_Z : list (zkey A)) (Z : A) (caller : string)
  : res A nat :=
  let '(arbitrary_Z_allowed, the_arbitrary_idx) := find_arbitrary allowed_Z in
  let Z_idx := find_Z allowed_Z Z in
  match Z_idx, arbitrary_Z_allowed with
  | None, false =>
      Err (Raise PhysicsError
             [Num Z; Txt " is not an available Z value in "; Txt caller])
  | None, true =>
      match the_arbitrary_idx with
      | Some idx => Ok idx
      | None => Err (Raise TypeError [Txt "list indices must be integers"])
      end
  | Some idx, _ => Ok idx
  end.

End CheckZ.

(** ** Nondimensional coefficients: Spitzer-Harm and Braginskii *)

(** What an evaluator returns: a number, an array, or [None] when no
    [return] statement is reached. *)
Definition pyval (A : Type) : Type := option (nd A).

Section Evaluators.
Context {A : Type} `{Transc A}.
Local Open Scope num_scope.
Local Open Scope string_scope.

Definition get_spitzer_harm_coeffs (Z : A) : res A (A * A * A * A) :=
  let allowed_Z := [KNum (lit 1); KNum (lit 2); KNum (lit 4); KNum (lit 16); KInf] in
  Z_idx <- check_Z allowed_Z Z "get_spitzer_harm_coeffs" ;;
  let gamma_E := [lit 0.5816; lit 0.6833; lit 0.7849; lit 0.9225; lit 1.0000] in
  let gamma_T := [lit 0.2727; lit 0.4137; lit 0.5714; lit 0.8279; lit 1.0000] in
  let delta_E := [lit 0.4652; lit 0.5787; lit 0.7043; lit 0.8870; lit 1.0000] in
  let delta_T := [lit 0.2252; lit 0.3563; lit 0.5133; lit 0.7907; lit 1.0000] in
  gE <- getitem gamma_E Z_idx ;;
  gT <- getitem gamma_T Z_idx ;;
  dE <- getitem delta_E Z_idx ;;
  dT <- getitem delta_T Z_idx ;;
  Ok (gE, gT, dE, dT).

Definition nondim_tc_e_spitzer (Z : A) : res A (pyval A) :=
  c <- get_spitzer_harm_coeffs Z ;;
  let '(gamma_E, gamma_T, delta_E, delta_T) := c in
  let kappa := (lit 64 / np_pi) * delta_T *
               (lit 5 / lit 3 - (gamma_T * delta_E) / (delta_T * gamma_E)) in
  Ok (Some (Scalar kappa)).

Definition nondim_resist_spitzer (Z : A) : res A (pyval A) :=
  c <- get_spitzer_harm_coeffs Z ;;
  let '(gamma_E, gamma_T, delta_E, delta_T) := c in
  let alpha := (lit 3 * np_pi / lit 32) * (lit 1 / gamma_E) in
  Ok (Some (Scalar alpha)).

Definition nondim_tec_spitzer (Z : A) : res A (pyval A) :=
  c <- get_spitzer_harm_coeffs Z ;;
  let '(gamma_E, gamma_T, delta_E, delta_T) := c in
  let beta := lit 5 / lit 2 * (lit 8 / lit 5 * (delta_E / gamma_E) - lit 1) in
  Ok (Some (Scalar beta)).

(** [field_orientation == 'parallel' or field_orientation == 'par'], and the
    like. *)
Definition is_par (field_orientation : string) : bool :=
  (field_orientation =? "parallel") || (field_orientation =? "par").

Definition is_perp (field_orientation : string) : bool :=
  (field_orientation =? "perpendicular") || (field_orientation =? "perp").

Definition is_cross (field_orientation : string) : bool :=
  field_orientation =? "cross".

Definition is_all (field_orientation : string) : bool :=
  field_orientation =? "all".

(** The tables of the three electron evaluators of Braginskii: in the
    source each is a list literal local to its evaluator, [delta_0],
    [delta_1] and [allowed_Z] written out with the same values in all
    three. *)
Definition braginskii_delta_0 : list A :=
  [lit 3.7703; lit 1.0465; lit 0.5814; lit 0.4106; lit 0.0961].
Definition braginskii_delta_1 : list A :=
  [lit 14.79; lit 10.80; lit 9.618; lit 9.055; lit 7.482].
Definition braginskii_allowed_Z : list (zkey A) :=
  [KNum (lit 1); KNum (lit 2); KNum (lit 3); KNum (lit 4); KInf].

Definition tc_e_gamma_1_prime : list A :=
  [lit 4.664; lit 3.957; lit 3.721; lit 3.604; lit 3.25].
Definition tc_e_gamma_0_prime : list A :=
  [lit 11.92; lit 5.118; lit 3.525; lit 2.841; lit 1.20].
Definition tc_e_gamma_1_doubleprime : list A :=
  [lit 2.500; lit 2.500; lit 2.500; lit 2.500; lit 2.500].
Definition tc_e_gamma_0_doubleprime : list A :=
  [lit 21.67; lit 15.37; lit 13.53; lit 12.65; lit 10.23].

Definition nondim_tc_e_braginskii (hall Z : A) (field_orientation : string)
  : res A (pyval A) :=
  Z_idx <- check_Z braginskii_allowed_Z Z "nondim_tc_e_braginskii" ;;
  gamma_0_prime <- getitem tc_e_gamma_0_prime Z_idx ;;
  delta_0 <- getitem braginskii_delta_0 Z_idx ;;
  let gamma_0 := gamma_0_prime / delta_0 in
  delta_1 <- getitem braginskii_delta_1 Z_idx ;;
  let Delta := hall ^ 4 + delta_1 * hall ^ 2 + delta_0 in
  let kappa_par := gamma_0 in
  if is_par field_orientation then Ok (Some (Scalar kappa_par)) else
  gamma_1_prime <- getitem tc_e_gamma_1_prime Z_idx ;;
  let kappa_perp := (gamma_1_prime * hall ^ 2 + gamma_0_prime) / Delta in
  if is_perp field_orientation then Ok (Some (Scalar kappa_perp)) else
  gamma_1_doubleprime <- getitem tc_e_gamma_1_doubleprime Z_idx ;;
  gamma_0_doubleprime <- getitem tc_e_gamma_0_doubleprime Z_idx ;;
  let kappa_cross := (gamma_1_doubleprime * hall ^ 3 +
                      gamma_0_doubleprime * hall) / Delta in
  if is_cross field_orientation then Ok (Some (Scalar kappa_cross)) else
  if is_all field_orientation
  then Ok (Some (Array [kappa_par; kappa_perp; kappa_cross]))
  else Ok None.

Definition nondim_tc_i_braginskii (hall : A) (field_orientation : string)
  : res A (pyval A) :=
  let kappa_par_coeff_0 := lit 3.906 in
  let kappa_par := kappa_par_coeff_0 in
  if is_par field_orientation then Ok (Some (Scalar kappa_par)) else
  let kappa_perp_coeff_2 := lit 2.0 in
  let kappa_perp_coeff_0 := lit 2.645 in
  let delta_1 := lit 2.70 in
  let delta_0 := lit 0.677 in
  let Delta := hall ^ 4 + delta_1 * hall ^ 2 + delta_0 in
  let kappa_perp := (kappa_perp_coeff_2 * hall ^ 2 + kappa_perp_coeff_0) / Delta in
  if is_perp field_orientation then Ok (Some (Scalar kappa_perp)) else
  let kappa_cross_coeff_3 := lit 2.5 in
  let kappa_cross_coeff_1 := lit 4.65 in
  let kappa_cross := (kappa_cross_coeff_3 * hall ^ 3 +
                      kappa_cross_coeff_1 * hall) / Delta in
  if is_cross field_orientation then Ok (Some (Scalar kappa_cross)) else
  if is_all field_orientation
  then Ok (Some (Array [kappa_par; kappa_perp; kappa_cross]))
  else Ok None.

Definition nondim_visc_e_braginskii (hall Z : A) : res A (pyval A) :=
  let allowed_Z := [KNum (lit 1)] in
  _ <- check_Z allowed_Z Z "nondim_visc_e_braginskii" ;;
  let eta_prime_0 := lit 0.733 in
  let eta_doubleprime_2 := lit 2.05 in
  let eta_doubleprime_0 := lit 8.50 in
  let eta_tripleprime_2 := lit 1.0 in
  let eta_tripleprime_0 := lit 7.91 in
  let delta_1 := lit 13.8 in
  let delta_0 := lit 11.6 in
  let eta_0_e := eta_prime_0 in
  let f_eta_2 := fun hall =>
    let Delta := hall ^ 4 + delta_1 * hall ^ 2 + delta_0 in
    (eta_doubleprime_2 * hall ^ 2 + eta_doubleprime_0) / Delta in
  let eta_2_e := f_eta_2 hall in
  let eta_1_e := f_eta_2 (lit 2 * hall) in
  let f_eta_4 := fun hall =>
    let Delta := hall ^ 4 + delta_1 * hall ^ 2 + delta_0 in
    (eta_tripleprime_2 * hall ^ 3 + eta_tripleprime_0 * hall) / Delta in
  let eta_4_e := f_eta_4 hall in
  let eta_3_e := f_eta_4 (lit 2 * hall) in
  Ok (Some (Array [eta_0_e; eta_1_e; eta_2_e; eta_3_e; eta_4_e])).

Definition nondim_visc_i_braginskii (hall : A) : res A (pyval A) :=
  let eta_prime_0 := lit 0.96 in
  let eta_doubleprime_2 := lit 6 / lit 5 in
  let eta_doubleprime_0 := lit 2.23 in
  let eta_tripleprime_2 := lit 1.0 in
  let eta_tripleprime_0 := lit 2.38 in
  let delta_1 := lit 4.03 in
  let delta_0 := lit 2.33 in
  let Delta := hall ^ 4 + delta_1 * hall ^ 2 + delta_0 in
  let eta_0_i := eta_prime_0 in
  let f_eta_2 := fun hall =>
    (eta_doubleprime_2 * hall ^ 2 + eta_doubleprime_0) / Delta in
  let eta_2_i := f_eta_2 hall in
  let eta_1_i := f_eta_2 (lit 2 * hall) in
  let f_eta_4 := fun hall =>
    (eta_tripleprime_2 * hall ^ 3 + eta_tripleprime_0 * hall) / Delta in
  let eta_4_i := f_eta_4 hall in
  let eta_3_i := f_eta_4 (lit 2 * hall) in
  Ok (Some (Array [eta_0_i; eta_1_i; eta_2_i; eta_3_i; eta_4_i])).

Definition resist_alpha_1_prime : list A :=
  [lit 6.416; lit 5.523; lit 5.226; lit 5.077; lit 4.63].
Definition resist_alpha_0_prime : list A :=
  [lit 1.837; lit 0.5956; lit 0.3515; lit 0.2566; lit 0.0678].
Definition resist_alpha_1_doubleprime : list A :=
  [lit 1.704; lit 1.704; lit 1.704; lit 1.704; lit 1.704].
Definition resist_alpha_0_doubleprime : list A :=
  [lit 0.7796; lit 0.3439; lit 0.2400; lit 0.1957; lit 0.0940].

Definition nondim_resist_braginskii (hall Z : A) (field_orientation : string)
  : res A (pyval A) :=
  Z_idx <- check_Z braginskii_allowed_Z Z "nondim_resist_braginskii" ;;
  alpha_0_prime <- getitem resist_alpha_0_prime Z_idx ;;
  delta_0 <- getitem braginskii_delta_0 Z_idx ;;
  let alpha_0 := lit 1 - alpha_0_prime / delta_0 in
  delta_1 <- getitem braginskii_delta_1 Z_idx ;;
  let Delta := hall ^ 4 + delta_1 * hall ^ 2 + delta_0 in
  let alpha_par := alpha_0 in
  if is_par field_orientation then Ok (Some (Scalar alpha_par)) else
  alpha_1_prime <- getitem resist_alpha_1_prime Z_idx ;;
  let alpha_perp := lit 1 - (alpha_1_prime * hall ^ 2 + alpha_0_prime) / Delta in
  if is_perp field_orientation then Ok (Some (Scalar alpha_perp)) else
  alpha_1_doubleprime <- getitem resist_alpha_1_doubleprime Z_idx ;;
  alpha_0_doubleprime <- getitem resist_alpha_0_doubleprime Z_idx ;;
  let alpha_cross := (alpha_1_doubleprime * hall ^ 3 +
                      alpha_0_doubleprime * hall) / Delta in
  if is_cross field_orientation then Ok (Some (Scalar alpha_cross)) else
  if is_all field_orientation
  then Ok (Some (Array [alpha_par; alpha_perp; alpha_cross]))
  else Ok None.

Definition tec_beta_1_prime : list A :=
  [lit 5.101; lit 4.450; lit 4.233; lit 4.124; lit 3.798].
Definition tec_beta_0_prime : list A :=
  [lit 2.681; lit 0.9473; lit 0.5905; lit 0.4478; lit 0.1461].
Definition tec_beta_1_doubleprime : list A :=
  [lit 1.5; lit 1.5; lit 1.5; lit 1.5; lit 1.5].
Definition tec_beta_0_doubleprime : list A :=
  [lit 3.053; lit 1.784; lit 1.442; lit 1.285; lit 0.877].

Definition nondim_tec_braginskii (hall Z : A) (field_orientation : string)
  : res A (pyval A) :=
  Z_idx <- check_Z braginskii_allowed_Z Z "nondim_tec_braginskii" ;;
  delta_1 <- getitem braginskii_delta_1 Z_idx ;;
  delta_0 <- getitem braginskii_delta_0 Z_idx ;;
  let Delta := hall ^ 4 + delta_1 * hall ^ 2 + delta_0 in
  beta_0_prime <- getitem tec_beta_0_prime Z_idx ;;
  let beta_0 := beta_0_prime / delta_0 in
  let beta_par := beta_0 in
  if is_par field_orientation then Ok (Some (Scalar beta_par)) else
  beta_1_prime <- getitem tec_beta_1_prime Z_idx ;;
  let beta_perp := (beta_1_prime * hall ^ 2 + beta_0_prime) / Delta in
  if is_perp field_orientation then Ok (Some (Scalar beta_perp)) else
  beta_1_doubleprime <- getitem tec_beta_1_doubleprime Z_idx ;;
  beta_0_doubleprime <- getitem tec_beta_0_doubleprime Z_idx ;;
  let beta_cross := (beta_1_doubleprime * hall ^ 3 +
                     beta_0_doubleprime * hall) / Delta in
  if is_cross field_orientation then Ok (Some (Scalar beta_cross)) else
  if is_all field_orientation
  then Ok (Some (Array [beta_par; beta_perp; beta_cross]))
  else Ok None.

End Evaluators.

(** ** Nondimensional coefficients: Ji-Held, electrons *)

Section JiHeldElectron.
Context {A : Type} `{Transc A}.
Local Open Scope num_scope.
Local Open Scope string_scope.

Definition ji_held_allowed_Z : list (zkey A) :=
  [KNum (lit 1); KNum (lit 2); KArbitrary].

(** The fits [f_kappa_par_e], ..., [f_k_5] are evaluated for every [Z], as
    the source builds each list with its third entry.  Their quotients are
    the arithmetic's: at a [Z] that makes a denominator zero ([Z = 0.214]
    in [f_kappa_4]) Python's division of two Python numbers raises
    [ZeroDivisionError], which the embedding does not tell apart. *)
Definition nondim_tc_e_ji_held (hall Z : A) (field_orientation : string)
  : res A (pyval A) :=
  Z_idx <- check_Z ji_held_allowed_Z Z "nondim_tc_e_ji_held" ;;
  let r := fabs (Z * hall) in
  let f_kappa_par_e := fun Z =>
    let numerator := lit 13.5 * Z ^ 2 + lit 54.4 * Z + lit 25.2 in
    let denominator := Z ^ 3 + lit 8.35 * Z ^ 2 + lit 15.2 * Z + lit 4.51 in
    numerator / denominator in
  let f_kappa_0 := fun Z =>
    let numerator := lit 9.91 * Z ^ 3 + lit 75.3 * Z ^ 2 + lit 518 * Z + lit 333 in
    let denominator := lit 1000 in
    numerator / denominator in
  let f_kappa_1 := fun Z =>
    let numerator := lit 0.211 * Z ^ 3 + lit 12.7 ^ 2 + lit 48.4 * Z + lit 6.45 in
    let denominator := Z + lit 57.1 in
    numerator / denominator in
  let f_kappa_2 := fun Z =>
    let numerator := lit 0.932 * Z ^^ (7#3) + lit 0.135 * Z ^ 2 +
                     lit 12.3 * Z + lit 8.77 in
    let denominator := Z + lit 4.84 in
    numerator / denominator in
  let f_kappa_3 := fun Z =>
    let numerator := lit 0.246 * Z ^ 3 + lit 2.65 * Z ^ 2 -
                     lit 92.8 * Z - lit 1.96 in
    let denominator := Z ^ 2 + lit 19.9 * Z + lit 35.3 in
    numerator / denominator in
  let f_kappa_4 := fun Z =>
    let numerator := lit 2.76 * Z ^^ (5#3) - lit 0.836 * Z ^^ (2#3) - lit 0.0611 in
    let denominator := Z - lit 0.214 in
    numerator / denominator in
  let f_k_0 := fun Z =>
    let numerator := lit 0.0396 * Z ^ 3 + lit 46.3 * Z + lit 176 in
    let denominator := lit 1000 in
    numerator / denominator in
  let f_k_1 := fun Z =>
    let numerator := lit 15.4 * Z ^ 3 + lit 188 * Z ^ 2 + lit 240 * Z + lit 35.3 in
    let denominator := lit 1000 * Z + lit 397 in
    numerator / denominator in
  let f_k_2 := fun Z =>
    let numerator := lit (-0.159) * Z ^ 2 - lit 12.5 * Z + lit 34.1 in
    let denominator := Z ^^ (2#3) + lit 0.741 * Z ^^ (1#3) + lit 31.0 in
    numerator / denominator in
  let f_k_3 := fun Z =>
    let numerator := lit 0.431 * Z ^ 2 + lit 3.69 * Z + lit 0.0314 in
    let denominator := Z + lit 3.62 in
    numerator / denominator in
  let f_k_4 := fun Z =>
    let numerator := lit 0.0258 * Z ^ 2 - lit 1.63 * Z + lit 0.711 in
    let denominator := Z ^^ (4#3) + lit 4.36 * Z ^^ (2#3) + lit 2.75 in
    numerator / denominator in
  let f_k_5 := fun Z =>
    let numerator := Z ^ 3 + lit 11.9 * Z ^ 2 + lit 28.8 * Z + lit 9.07 in
    let denominator := lit 173 * Z + lit 133 in
    numerator / denominator in
  let kappa_par_e := [lit 3.204; lit 2.464; f_kappa_par_e Z] in
  let kappa_0 := [lit 0.936; lit 1.749; f_kappa_0 Z] in
  let kappa_1 := [lit 1.166; lit 2.635; f_kappa_1 Z] in
  let kappa_2 := [lit 5.310; lit 13.87; f_kappa_2 Z] in
  let kappa_3 := [lit (-1.635); lit (-2.212); f_kappa_3 Z] in
  let kappa_4 := [lit 2.370; lit 4.129; f_kappa_4 Z] in
  let k_0 := [lit 0.222; lit 0.269; f_k_0 Z] in
  let k_1 := [lit 0.343; lit 0.580; f_k_1 Z] in
  let k_2 := [lit 0.655; lit 0.252; f_k_2 Z] in
  let k_3 := [lit 0.899; lit 1.626; f_k_3 Z] in
  let k_4 := [lit (-0.110); lit (-0.201); f_k_4 Z] in
  let k_5 := [lit 0.166; lit 0.255; f_k_5 Z] in
  kappa_par <- getitem kappa_par_e Z_idx ;;
  if is_par field_orientation then Ok (Some (Scalar (Z * kappa_par))) else
  let f_kappa_perp := fun Z_idx =>
    kappa_0_i <- getitem kappa_0 Z_idx ;;
    kappa_par_e_i <- getitem kappa_par_e Z_idx ;;
    let numerator := (lit 13 / lit 4 * Z + fsqrt (lit 2)) * r +
                     kappa_0_i * kappa_par_e_i in
    kappa_4_i <- getitem kappa_4 Z_idx ;;
    kappa_3_i <- getitem kappa_3 Z_idx ;;
    kappa_2_i <- getitem kappa_2 Z_idx ;;
    kappa_1_i <- getitem kappa_1 Z_idx ;;
    let denominator := r ^ 3 +
                       kappa_4_i * r ^^ (7#3) +
                       kappa_3_i * r ^ 2 +
                       kappa_2_i * r ^^ (5#3) +
                       kappa_1_i * r +
                       kappa_0_i in
    Ok (numerator / denominator) in
  kappa_perp <- f_kappa_perp Z_idx ;;
  if is_perp field_orientation then Ok (Some (Scalar (Z * kappa_perp))) else
  let f_kappa_cross := fun Z_idx =>
    k_0_i <- getitem k_0 Z_idx ;;
    k_5_i <- getitem k_5 Z_idx ;;
    let numerator := r * (lit 5 / lit 2 * r + k_0_i / k_5_i) in
    k_4_i <- getitem k_4 Z_idx ;;
    k_3_i <- getitem k_3 Z_idx ;;
    k_2_i <- getitem k_2 Z_idx ;;
    k_1_i <- getitem k_1 Z_idx ;;
    let denominator := r ^ 3 +
                       k_4_i * r ^^ (7#3) +
                       k_3_i * r ^ 2 +
                       k_2_i * r ^^ (5#3) +
                       k_1_i * r +
                       k_0_i in
    Ok (numerator / denominator) in
  kappa_cross <- f_kappa_cross Z_idx ;;
  if is_cross field_orientation then Ok (Some (Scalar (Z * kappa_cross))) else
  if is_all field_orientation
  then Ok (Some (Array [Z * kappa_par; Z * kappa_perp; Z * kappa_cross]))
  else Ok None.

Definition nondim_resist_ji_held (hall Z : A) (field_orientation : string)
  : res A (pyval A) :=
  Z_idx <- check_Z ji_held_allowed_Z Z "nondim_resist_ji_held" ;;
  let r := fabs (Z * hall) in
  let f_alpha_par_e := fun Z =>
    let numerator := Z ^^ (2#3) in
    let denominator := lit 1.46 * Z ^^ (2#3) - lit 0.330 * Z ^^ (1#3) + lit 0.888 in
    lit 1 - numerator / denominator in
  let f_alpha_0 := fun Z =>
    lit 0.623 * Z ^^ (5#3) - lit 2.61 * Z ^^ (4#3) + lit 3.56 * Z + lit 0.557 in
  let f_alpha_1 := fun Z =>
    lit 2.24 * Z ^^ (2#3) - lit 1.11 * Z ^^ (1#3) + lit 1.84 in
  let f_alpha_2 := fun Z =>
    lit (-0.0983) * Z ^^ (1#3) + lit 0.0176 in
  let f_a_0 := fun Z =>
    lit 0.0759 * Z ^^ (8#3) + lit 0.897 * Z ^ 2 + lit 2.06 * Z + lit 1.06 in
  let f_a_1 := fun Z =>
    lit 2.18 * Z ^^ (5#3) + lit 5.31 * Z + lit 3.73 in
  let f_a_2 := fun Z =>
    lit 7.41 * Z + lit 1.11 * Z ^^ (2#3) - lit 1.17 in
  let f_a_3 := fun Z =>
    lit 3.89 * Z ^^ (2#3) - lit 4.51 * Z ^^ (1#3) + lit 6.76 in
  let f_a_4 := fun Z =>
    lit 2.26 * Z ^^ (1#3) + lit 0.281 in
  let f_a_5 := fun Z =>
    lit 1.18 * Z ^^ (5#3) - lit 1.03 * Z ^^ (4#3) + lit 3.60 * Z + lit 1.32 in
  let alpha_par_e := [lit 0.504; lit 0.431; f_alpha_par_e Z] in
  let alpha_0 := [lit 2.130; lit 3.078; f_alpha_0 Z] in
  let alpha_1 := [lit 2.970; lit 3.997; f_alpha_1 Z] in
  let alpha_2 := [lit (-0.081); lit (-0.106); f_alpha_2 Z] in
  let a_0 := [lit 4.093; lit 9.250; f_a_0 Z] in
  let a_1 := [lit 11.22; lit 21.27; f_a_1 Z] in
  let a_2 := [lit 7.350; lit 15.41; f_a_2 Z] in
  let a_3 := [lit 6.140; lit 7.253; f_a_3 Z] in
  let a_4 := [lit 2.541; lit 3.128; f_a_4 Z] in
  let a_5 := [lit 5.070; lit 9.671; f_a_5 Z] in
  alpha_par <- getitem alpha_par_e Z_idx ;;
  if is_par field_orientation then Ok (Some (Scalar alpha_par)) else
  let f_alpha_perp := fun Z_idx =>
    alpha_0_i <- getitem alpha_0 Z_idx ;;
    alpha_par_e_i <- getitem alpha_par_e Z_idx ;;
    let numerator := lit 1.46 * Z ^^ (2#3) * r +
                     alpha_0_i * (lit 1 - alpha_par_e_i) in
    alpha_2_i <- getitem alpha_2 Z_idx ;;
    alpha_1_i <- getitem alpha_1 Z_idx ;;
    let denominator := r ^^ (5#3) +
                       alpha_2_i * r ^^ (4#3) +
                       alpha_1_i * r +
                       alpha_0_i in
    Ok (lit 1 - numerator / denominator) in
  alpha_perp <- f_alpha_perp Z_idx ;;
  if is_perp field_orientation then Ok (Some (Scalar alpha_perp)) else
  let f_alpha_cross := fun Z_idx =>
    a_0_i <- getitem a_0 Z_idx ;;
    a_5_i <- getitem a_5 Z_idx ;;
    let numerator := Z ^^ (2#3) * r * (lit 2.53 * r + a_0_i / a_5_i) in
    a_4_i <- getitem a_4 Z_idx ;;
    a_3_i <- getitem a_3 Z_idx ;;
    a_2_i <- getitem a_2 Z_idx ;;
    a_1_i <- getitem a_1 Z_idx ;;
    let denominator := r ^^ (8#3) +
                       a_4_i * r ^^ (7#3) +
                       a_3_i * r ^ 2 +
                       a_2_i * r ^^ (5#3) +
                       a_1_i * r +
                       a_0_i in
    Ok (numerator / denominator) in
  alpha_cross <- f_alpha_cross Z_idx ;;
  if is_cross field_orientation then Ok (Some (Scalar alpha_cross)) else
  if is_all field_orientation
  then Ok (Some (Array [alpha_par; alpha_perp; alpha_cross]))
  else Ok None.

Definition nondim_tec_ji_held (hall Z : A) (field_orientation : string)
  : res A (pyval A) :=
  Z_idx <- check_Z ji_held_allowed_Z Z "nondim_tec_ji_held" ;;
  let r := fabs (Z * hall) in
  let f_beta_par_e := fun Z =>
    let numerator := Z ^^ (5#3) in
    let denominator := lit 0.693 * Z ^^ (5#3) - lit 0.279 * Z ^^ (4#3) +
                       Z + lit 0.01 in
    numerator / denominator in
  let f_beta_0 := fun Z =>
    lit 0.156 * Z ^^ (8#3) + lit 0.994 * Z ^ 2 + lit 3.21 * Z - lit 0.84 in
  let f_beta_1 := fun Z =>
    lit 3.69 * Z ^^ (5#3) + lit 3.77 * Z + lit 0.77 in
  let f_beta_2 := fun Z =>
    lit 9.43 * Z + lit 4.22 * Z ^^ (2#3) - lit 12.9 * Z ^^ (1#3) + lit 4.56 in
  let f_beta_3 := fun Z =>
    lit 2.70 * Z ^^ (2#3) + lit 1.46 * Z ^^ (1#3) - lit 0.17 in
  let f_beta_4 := fun Z =>
    lit 2.58 * Z ^^ (1#3) + lit 0.17 in
  let f_b_0 := fun Z =>
    let numerator := lit 6.87 * Z ^ 3 + lit 78.2 * Z ^ 2 + lit 623 * Z + lit 366 in
    let denominator := lit 1000 in
    numerator / denominator in
  let f_b_1 := fun Z =>
    lit 0.134 * Z ^ 2 + lit 0.977 * Z + lit 0.17 in
  let f_b_2 := fun Z =>
    lit 0.689 * Z ^^ (4#3) - lit 0.377 * Z ^^ (2#3) +
    lit 3.94 * Z ^^ (1#3) + lit 0.644 in
  let f_b_3 := fun Z =>
    lit (-0.109) * Z + lit 1.33 * Z ^^ (2#3) - lit 3.80 * Z ^^ (1#3) + lit 0.289 in
  let f_b_4 := fun Z =>
    lit 2.46 * Z ^^ (2#3) + lit 0.522 in
  let f_b_5 := fun Z =>
    lit 0.102 * Z ^ 2 + lit 0.746 * Z + lit 0.072 * Z ^^ (1#3) + lit 0.211 in
  let beta_par_e := [lit 0.702; lit 0.905; f_beta_par_e Z] in
  let beta_0 := [lit 3.520; lit 10.55; f_beta_0 Z] in
  let beta_1 := [lit 8.230; lit 20.03; f_beta_1 Z] in
  let beta_2 := [lit 5.310; lit 13.87; f_beta_2 Z] in
  let beta_3 := [lit 3.990; lit 5.955; f_beta_3 Z] in
  let beta_4 := [lit 2.750; lit 3.421; f_beta_4 Z] in
  let b_0 := [lit 1.074; lit 1.980; f_b_0 Z] in
  let b_1 := [lit 1.281; lit 2.660; f_b_1 Z] in
  let b_2 := [lit 4.896; lit 6.746; f_b_2 Z] in
  let b_3 := [lit (-2.290); lit (-2.605); f_b_3 Z] in
  let b_4 := [lit 2.982; lit 4.427; f_b_4 Z] in
  let b_5 := [lit 1.131; lit 2.202; f_b_5 Z] in
  beta_par <- getitem beta_par_e Z_idx ;;
  if is_par field_orientation then Ok (Some (Scalar beta_par)) else
  let f_beta_perp := fun Z_idx =>
    beta_0_i <- getitem beta_0 Z_idx ;;
    beta_par_e_i <- getitem beta_par_e Z_idx ;;
    let numerator := lit 6.33 * Z ^^ (5#3) * r + beta_0_i * beta_par_e_i in
    beta_4_i <- getitem beta_4 Z_idx ;;
    beta_3_i <- getitem beta_3 Z_idx ;;
    beta_2_i <- getitem beta_2 Z_idx ;;
    beta_1_i <- getitem beta_1 Z_idx ;;
    let denominator := r ^^ (8#3) +
                       beta_4_i * r ^^ (7#3) +
                       beta_3_i * r ^ 2 +
                       beta_2_i * r ^^ (5#3) +
                       beta_1_i * r +
                       beta_0_i in
    Ok (numerator / denominator) in
  beta_perp <- f_beta_perp Z_idx ;;
  if is_perp field_orientation then Ok (Some (Scalar beta_perp)) else
  let f_beta_cross := fun Z_idx =>
    b_0_i <- getitem b_0 Z_idx ;;
    b_5_i <- getitem b_5 Z_idx ;;
    let numerator := Z * r * (lit 3 / lit 2 * r + b_0_i / b_5_i) in
    b_4_i <- getitem b_4 Z_idx ;;
    b_3_i <- getitem b_3 Z_idx ;;
    b_2_i <- getitem b_2 Z_idx ;;
    b_1_i <- getitem b_1 Z_idx ;;
    let denominator := r ^ 3 +
                       b_4_i * r ^^ (7#3) +
                       b_3_i * r ^ 2 +
                       b_2_i * r ^^ (5#3) +
                       b_1_i * r +
                       b_0_i in
    Ok (numerator / denominator) in
  beta_cross <- f_beta_cross Z_idx ;;
  if is_cross field_orientation then Ok (Some (Scalar beta_cross)) else
  if is_all field_orientation
  then Ok (Some (Array [beta_par; beta_perp; beta_cross]))
  else Ok None.

Definition nondim_visc_e_ji_held (hall Z : A) : res A (pyval A) :=
  Z_idx <- check_Z ji_held_allowed_Z Z "nondim_visc_e_ji_held" ;;
  let r := fabs (Z * hall) in
  let f_eta_0_e := fun Z =>
    lit 1 / (lit 0.55 * Z + lit 0.083 * Z ^^ (1#3) + lit 0.732) in
  let f_hprime_0 := fun Z =>
    lit 0.0699 * Z ^ 3 + lit 0.558 * Z ^ 2 + lit 1.66 * Z + lit 1.06 in
  let f_hprime_1 := fun Z =>
    lit 0.657 * Z ^ 2 + lit 1.42 * Z + lit 0.416 in
  let f_hprime_2 := fun Z =>
    lit (-0.369) * Z ^^ (4#3) + lit 0.379 * Z + lit 0.339 * Z ^^ (1#3) + lit 2.17 in
  let f_hprime_3 := fun Z =>
    lit 2.16 * Z - lit 0.657 * Z ^^ (1#3) + lit 0.0347 in
  let f_hprime_4 := fun Z =>
    lit (-0.0703) * Z ^^ (2#3) - lit 0.224 * Z ^^ (1#3) + lit 0.333 in
  let f_h_0 := fun Z =>
    lit 0.0473 * Z ^ 3 + lit 0.323 * Z ^ 2 + lit 0.951 * Z + lit 0.407 in
  let f_h_1 := fun Z =>
    lit 0.171 * Z ^ 2 + lit 0.523 * Z + lit 0.336 in
  let f_h_2 := fun Z =>
    lit 0.362 * Z ^^ (4#3) + lit 0.178 * Z + lit 1.06 * Z ^^ (1#3) + lit 1.26 in
  let f_h_3 := fun Z =>
    lit 0.599 * Z + lit 0.106 * Z ^^ (2#3) - lit 0.444 * Z ^^ (1#3) - lit 0.161 in
  let f_h_4 := fun Z =>
    lit (-0.16) * Z ^^ (2#3) + lit 0.06 * Z ^^ (1#3) + lit 0.232 in
  let f_h_5 := fun Z =>
    lit 0.183 * Z ^ 2 + lit 0.714 * Z + lit 0.0375 * Z ^^ (1#3) + lit 0.47 in
  let eta_0_e := [lit 0.733; lit 0.516; f_eta_0_e Z] in
  let hprime_0 := [lit 3.348; lit 7.171; f_hprime_0 Z] in
  let hprime_1 := [lit 2.493; lit 5.884; f_hprime_1 Z] in
  let hprime_2 := [lit 2.519; lit 2.425; f_hprime_2 Z] in
  let hprime_3 := [lit 1.538; lit 3.527; f_hprime_3 Z] in
  let hprime_4 := [lit 0.039; lit (-0.061); f_hprime_4 Z] in
  let h_0 := [lit 1.728; lit 3.979; f_h_0 Z] in
  let h_1 := [lit 1.030; lit 2.066; f_h_1 Z] in
  let h_2 := [lit 2.860; lit 3.864; f_h_2 Z] in
  let h_3 := [lit 0.100; lit 0.646; f_h_3 Z] in
  let h_4 := [lit 0.132; lit 0.054; f_h_4 Z] in
  let h_5 := [lit 1.405; lit 2.677; f_h_5 Z] in
  eta_0 <- getitem eta_0_e Z_idx ;;
  let f_eta_2 := fun Z_idx r =>
    hprime_0_i <- getitem hprime_0 Z_idx ;;
    eta_0_e_i <- getitem eta_0_e Z_idx ;;
    let numerator := (lit 6 / lit 5 * Z + lit 3 / lit 5 * fsqrt (lit 2)) * r +
                     hprime_0_i * eta_0_e_i in
    hprime_4_i <- getitem hprime_4 Z_idx ;;
    hprime_3_i <- getitem hprime_3 Z_idx ;;
    hprime_2_i <- getitem hprime_2 Z_idx ;;
    hprime_1_i <- getitem hprime_1 Z_idx ;;
    let denominator := r ^ 3 +
                       hprime_4_i * r ^^ (7#3) +
                       hprime_3_i * r ^ 2 +
                       hprime_2_i * r ^^ (5#3) +
                       hprime_1_i * r +
                       hprime_0_i in
    Ok (numerator / denominator) in
  eta_2 <- f_eta_2 Z_idx r ;;
  eta_1 <- f_eta_2 Z_idx (lit 2 * r) ;;
  let f_eta_4 := fun Z_idx r =>
    h_0_i <- getitem h_0 Z_idx ;;
    h_5_i <- getitem h_5 Z_idx ;;
    let numerator := r * (r + h_0_i / h_5_i) in
    h_4_i <- getitem h_4 Z_idx ;;
    h_3_i <- getitem h_3 Z_idx ;;
    h_2_i <- getitem h_2 Z_idx ;;
    h_1_i <- getitem h_1 Z_idx ;;
    let denominator := r ^ 3 +
                       h_4_i * r ^^ (7#3) +
                       h_3_i * r ^ 2 +
                       h_2_i * r ^^ (5#3) +
                       h_1_i * r +
                       h_0_i in
    Ok (numerator / denominator) in
  eta_4 <- f_eta_4 Z_idx r ;;
  eta_3 <- f_eta_4 Z_idx (lit 2 * r) ;;
  Ok (Some (Array [eta_0; eta_1; eta_2; eta_3; eta_4])).

End JiHeldElectron.

(** ** Nondimensional coefficients: Ji-Held, ions *)

Section JiHeldIon.
Context {A : Type} `{Transc A}.
Local Open Scope num_scope.
Local Open Scope string_scope.

(** The moment closure the source fixes: [K = 3]. *)
Definition K : nat := 3.

(** A local variable that neither branch of [if K == 3: ... elif K == 2:]
    has bound. *)
Definition unbound {X : Type} (name : string) : res A X :=
  Err (Raise UnboundLocalError
         [Txt "local variable '"; Txt name; Txt "' referenced before assignment"]).

(** [zeta = 1/Z * np.sqrt(mu/theta)] is written with the arithmetic's
    division: at [Z = 0], a Python number, Python raises
    [ZeroDivisionError], which the embedding does not tell apart.  The same
    holds of [nondim_visc_i_ji_held] below. *)
Definition nondim_tc_i_ji_held (hall Z mu theta : A) (field_orientation : string)
  : res A (pyval A) :=
  let zeta := lit 1 / Z * fsqrt (mu / theta) in
  let r := fabs (hall / fsqrt (lit 2)) in
  p <- (if Nat.eqb K 3 then
          let Delta_par_i1 := lit 1 + lit 26.90 * zeta + lit 187.5 * zeta ^ 2 +
                              lit 346.9 * zeta ^ 3 in
          let kappa_par_i := (lit 5.586 + lit 101.7 * zeta + lit 289.1 * zeta ^ 2) /
                             Delta_par_i1 in
          Ok (Delta_par_i1, kappa_par_i)
        else if Nat.eqb K 2 then
          let Delta_par_i1 := lit 1 + lit 13.50 * zeta + lit 36.46 * zeta ^ 2 in
          let kappa_par_i := (lit 5.524 + lit 30.38 * zeta) / Delta_par_i1 in
          Ok (Delta_par_i1, kappa_par_i)
        else unbound "kappa_par_i") ;;
  let '(Delta_par_i1, kappa_par_i) := p in
  if is_par field_orientation
  then Ok (Some (Scalar (kappa_par_i / fsqrt (lit 2)))) else
  p <- (if Nat.eqb K 3 then
          let Delta_perp_i1 :=
            r ^ 6 +
            (lit 3.635 + lit 29.15 * zeta + lit 83 * zeta ^ 2) * r ^ 4 +
            (lit 1.395 + lit 35.64 * zeta + lit 344.9 * zeta ^ 2 +
             lit 1345 * zeta ^ 3 + lit 1891 * zeta ^ 4) * r ^ 2 +
            lit 0.09163 * Delta_par_i1 ^ 2 in
          let kappa_perp_i :=
            ((fsqrt (lit 2) + lit 15 / lit 2 * zeta) * r ^ 4 +
             (lit 3.841 + lit 57.59 * zeta + lit 297.8 * zeta ^ 2 +
              lit 555 * zeta ^ 3) * r ^ 2 +
             lit 0.09163 * kappa_par_i * Delta_par_i1 ^ 2
            ) / Delta_perp_i1 in
          Ok (Delta_perp_i1, kappa_perp_i)
        else if Nat.eqb K 2 then
          let Delta_perp_i1 :=
            r ^ 4 +
            (lit 1.352 + lit 12.49 * zeta + lit 34 * zeta ^ 2) * r ^ 2 +
            lit 0.1693 * Delta_par_i1 ^ 2 in
          let kappa_perp_i :=
            ((fsqrt (lit 2) + lit 15 / lit 2 * zeta) * r ^ 2 +
             lit 0.1693 * kappa_par_i * Delta_par_i1 ^ 2
            ) / Delta_perp_i1 in
          Ok (Delta_perp_i1, kappa_perp_i)
        else unbound "kappa_perp_i") ;;
  let '(Delta_perp_i1, kappa_perp_i) := p in
  if is_perp field_orientation
  then Ok (Some (Scalar (kappa_perp_i / fsqrt (lit 2)))) else
  kappa_cross_i <-
       (if Nat.eqb K 3 then
          Ok (r * (lit 5 / lit 2 * r ^ 4 +
                   (lit 7.963 + lit 64.40 * zeta + lit 185 * zeta ^ 2) * r ^ 2 +
                   lit 1.344 + lit 44.54 * zeta + lit 511.9 * zeta ^ 2 +
                   lit 2155 * zeta ^ 3 + lit 3063 * zeta ^ 4
                  ) / Delta_perp_i1)
        else if Nat.eqb K 2 then
          Ok (r * (lit 5 / lit 2 * r ^ 2 +
                   lit 2.323 + lit 22.73 * zeta + lit 62.5 * zeta ^ 2
                  ) / Delta_perp_i1)
        else unbound "kappa_cross_i") ;;
  if is_cross field_orientation
  then Ok (Some (Scalar (kappa_cross_i / fsqrt (lit 2)))) else
  if is_all field_orientation
  then Ok (Some (Array [kappa_par_i / fsqrt (lit 2);
                        kappa_perp_i / fsqrt (lit 2);
                        kappa_cross_i / fsqrt (lit 2)]))
  else Ok None.

Definition nondim_visc_i_ji_held (hall Z mu theta : A) : res A (pyval A) :=
  let zeta := lit 1 / Z * fsqrt (mu / theta) in
  let r := fabs (hall / fsqrt (lit 2)) in
  let r13 := lit 2 * r in
  p <- (if Nat.eqb K 3 then
          let Delta_par_i2 := lit 1 + lit 15.79 * zeta + lit 63.92 * zeta ^ 2 +
                              lit 71.69 * zeta ^ 3 in
          let Delta_perp_i2 :=
            r ^ 6 +
            (lit 4.391 + lit 26.69 * zeta + lit 56 * zeta ^ 2) * r ^ 4 +
            (lit 3.191 + lit 49.62 * zeta + lit 306.4 * zeta ^ 2 +
             lit 808.1 * zeta ^ 3 + lit 784 * zeta ^ 4) * r ^ 2 +
            lit 0.4483 * Delta_par_i2 ^ 2 in
          let eta_0_i := (lit 1.365 + lit 16.75 * zeta + lit 35.84 * zeta ^ 2) /
                         Delta_par_i2 in
          let eta_2_i :=
            ((lit 3 / lit 5 * fsqrt (lit 2) + lit 2 * zeta) * r ^ 4 +
             (lit 2.680 + lit 25.98 * zeta + lit 90.71 * zeta ^ 2 +
              lit 104 * zeta ^ 3) * r ^ 2 +
             lit 0.4483 * eta_0_i * Delta_par_i2 ^ 2
            ) / Delta_perp_i2 in
          let eta_1_i :=
            ((lit 3 / lit 5 * fsqrt (lit 2) + lit 2 * zeta) * r13 ^ 4 +
             (lit 2.680 + lit 25.98 * zeta + lit 90.71 * zeta ^ 2 +
              lit 104 * zeta ^ 3) * r13 ^ 2 +
             lit 0.4483 * eta_0_i * Delta_par_i2 ^ 2
            ) / Delta_perp_i2 in
          let eta_4_i :=
            r * (r ^ 4 +
                 (lit 3.535 + lit 23.30 * zeta + lit 52 * zeta ^ 2) * r ^ 2 +
                 lit 0.9538 + lit 21.81 * zeta + lit 174.2 * zeta ^ 2 +
                 lit 538.4 * zeta ^ 3 + lit 576 * zeta ^ 4
                ) / Delta_perp_i2 in
          let eta_3_i :=
            r13 * (r13 ^ 4 +
                   (lit 3.535 + lit 23.30 * zeta + lit 52 * zeta ^ 2) * r13 ^ 2 +
                   lit 0.9538 + lit 21.81 * zeta + lit 174.2 * zeta ^ 2 +
                   lit 538.4 * zeta ^ 3 + lit 576 * zeta ^ 4
                  ) / Delta_perp_i2 in
          Ok (eta_0_i, eta_1_i, eta_2_i, eta_3_i, eta_4_i)
        else if Nat.eqb K 2 then
          let Delta_par_i2 := lit 1 + lit 7.164 * zeta + lit 10.49 * zeta ^ 2 in
          let Delta_perp_i2 :=
            r ^ 4 +
            (lit 2.023 + lit 11.68 * zeta + lit 20 * zeta ^ 2) * r ^ 2 +
            lit 0.5820 * Delta_par_i2 ^ 2 in
          let eta_0_i := (lit 1.357 + lit 5.243 * zeta) / Delta_par_i2 in
          let eta_2_i :=
            ((lit 3 / lit 5 * fsqrt (lit 2) + lit 2 * zeta) * r ^ 2 +
             lit 0.5820 * eta_0_i * Delta_par_i2 ^ 2
            ) / Delta_perp_i2 in
          let eta_1_i :=
            ((lit 3 / lit 5 * fsqrt (lit 2) + lit 2 * zeta) * r13 ^ 2 +
             lit 0.5820 * eta_0_i * Delta_par_i2 ^ 2
            ) / Delta_perp_i2 in
          let eta_4_i :=
            r * (r ^ 2 +
                 lit 1.188 + lit 8.283 * zeta + lit 16 * zeta ^ 2
                ) / Delta_perp_i2 in
          let eta_3_i :=
            r13 * (r13 ^ 2 +
                   lit 1.188 + lit 8.283 * zeta + lit 16 * zeta ^ 2
                  ) / Delta_perp_i2 in
          Ok (eta_0_i, eta_1_i, eta_2_i, eta_3_i, eta_4_i)
        else unbound "eta_0_i") ;;
  let '(eta_0_i, eta_1_i, eta_2_i, eta_3_i, eta_4_i) := p in
  Ok (Some (Array [eta_0_i / fsqrt (lit 2); eta_1_i / fsqrt (lit 2);
                   eta_2_i / fsqrt (lit 2); eta_3_i / fsqrt (lit 2);
                   eta_4_i / fsqrt (lit 2)])).

End JiHeldIon.

(** ** Collaborators *)

(** What the module imports: the physical constants of [..constants], the
    species database of [..atomic] ([None]: the lookup raises), the checks of
    [plasmapy.utils] and the primitives of [.parameters].
    [_check_relativistic] gives the warnings it emits and the exception it
    raises, if any.  An optional velocity is [None] when not supplied. *)
Record warning (A : Type) : Type := Warning {
  category : string;
  message : list (frag A)
}.

Arguments Warning {A} category message.

Class Collaborators (A : Type) : Type := {
  k_B : A;
  e : A;
  eps0 : A;
  hbar : A;
  m_e : A;
  pi : A;
  ion_mass : string -> option A;
  charge_state : string -> option A;
  _is_electron : string -> bool;
  _check_relativistic : nd A -> string -> A -> list (warning A) * option (exn A);
  Debye_length : A -> A -> A;
  Hall_parameter : A -> A -> A -> string -> string -> A -> option A -> A;
  electron_ion_collision_rate : A -> A -> string -> A -> option A -> A;
  ion_ion_collision_rate : A -> A -> string -> A -> option A -> A
}.

(** ** Dispatch on the model *)

Section Dispatch.
Context {A : Type} `{Transc A} `{Collaborators A}.
Local Open Scope string_scope.

(** [mu/theta] and the like on an argument left at its default [None]. *)
Definition required (name : string) (x : option A) : res A A :=
  match x with
  | Some v => Ok v
  | None =>
      Err (Raise TypeError
             [Txt "unsupported operand type(s) for NoneType: "; Txt name])
  end.

Definition nondim_thermal_conductivity (hall Z : A) (particle model
  field_orientation : string) (mu theta : option A) : res A (pyval A) :=
  if _is_electron particle then
    if (model =? "spitzer-harm") || (model =? "spitzer") then
      nondim_tc_e_spitzer Z
    else if model =? "braginskii" then
      nondim_tc_e_braginskii hall Z field_orientation
    else if model =? "ji-held" then
      nondim_tc_e_ji_held hall Z field_orientation
    else
      Ok (Some (Scalar (lit 1)))
  else
    if model =? "braginskii" then
      nondim_tc_i_braginskii hall field_orientation
    else if model =? "ji-held" then
      mu' <- required "mu" mu ;;
      theta' <- required "theta" theta ;;
      nondim_tc_i_ji_held hall Z mu' theta' field_orientation
    else
      Ok (Some (Scalar (lit 1))).

Definition nondim_viscosity (hall Z : A) (particle model
  field_orientation : string) (mu theta : option A) : res A (pyval A) :=
  if _is_electron particle then
    if model =? "braginskii" then
      nondim_visc_e_braginskii hall Z
    else if model =? "ji-held" then
      nondim_visc_e_ji_held hall Z
    else
      Ok (Some (Scalar (lit 1)))
  else
    if model =? "braginskii" then
      nondim_visc_i_braginskii hall
    else if model =? "ji-held" then
      mu' <- required "mu" mu ;;
      theta' <- required "theta" theta ;;
      nondim_visc_i_ji_held hall Z mu' theta'
    else
      Ok (Some (Scalar (lit 1))).

Definition nondim_resisitivity (hall Z : A) (particle model
  field_orientation : string) : res A (pyval A) :=
  if (model =? "spitzer-harm") || (model =? "spitzer") then
    nondim_resist_spitzer Z
  else if model =? "braginskii" then
    nondim_resist_braginskii hall Z field_orientation
  else if model =? "ji-held" then
    nondim_resist_ji_held hall Z field_orientation
  else
    Ok (Some (Scalar (lit 1))).

Definition nondim_te_conductivity (hall Z : A) (particle model
  field_orientation : string) : res A (pyval A) :=
  if (model =? "spitzer-harm") || (model =? "spitzer") then
    nondim_tec_spitzer Z
  else if model =? "braginskii" then
    nondim_tec_braginskii hall Z field_orientation
  else if model =? "ji-held" then
    nondim_tec_ji_held hall Z field_orientation
  else
    Ok (Some (Scalar (lit 1))).

End Dispatch.

(** ** Effects: the caller's list, warnings and calls *)

(** What a run leaves behind, in order: the warnings emitted through
    [warnings.warn] and the calls made through [transport_funcs]. *)
Inductive event (A : Type) : Type :=
| Warned (w : warning A)
| Called (coeff : string).

Arguments Warned {A} w.
Arguments Called {A} coeff.

(** The state a call of [classical_transport] works on: the list object the
    caller passed as [coeffs], which the function and the caller share, and
    the events so far. *)
Record world (A : Type) : Type := World {
  coeffs : list string;
  log : list (event A)
}.

Arguments World {A} coeffs log.
Arguments coeffs {A} w.
Arguments log {A} w.

Definition M (A X : Type) : Type := world A -> world A * res A X.

Definition ret {A X : Type} (x : X) : M A X := fun w => (w, Ok x).

Definition raise {A X : Type} (ex : exn A) : M A X := fun w => (w, Err ex).

Definition bind {A X Y : Type} (m : M A X) (f : X -> M A Y) : M A Y :=
  fun w =>
    match m w with
    | (w', Ok x) => f x w'
    | (w', Err ex) => (w', Err ex)
    end.

Definition lift {A X : Type} (r : res A X) : M A X := fun w => (w, r).

Definition emit {A : Type} (ev : event A) : M A unit :=
  fun w => (World (coeffs w) (log w ++ [ev]), Ok tt).

Definition get_coeffs {A : Type} : M A (list string) :=
  fun w => (w, Ok (coeffs w)).

Definition set_coeffs {A : Type} (l : list string) : M A unit :=
  fun w => (World l (log w), Ok tt).

Notation "x <~ m ;; k" := (bind m (fun x => k))
  (at level 61, m at next level, right associativity).
Notation "m >> k" := (bind m (fun _ => k))
  (at level 61, right associativity).

(** [for x in l: body(x)]. *)
Fixpoint for_each {A X : Type} (l : list X) (body : X -> M A unit) : M A unit :=
  match l with
  | [] => ret tt
  | x :: l' => body x >> for_each l' body
  end.

(** [l[i] = x]; an index out of range leaves the list as it is (the loops
    below only write within range). *)
Fixpoint set_nth {X : Type} (l : list X) (i : nat) (x : X) : list X :=
  match l, i with
  | [], _ => []
  | _ :: l', O => x :: l'
  | y :: l', S i' => y :: set_nth l' i' x
  end.

(** ** The Coulomb logarithm *)

Section CoulombLogarithm.
Context {A : Type} `{Transc A} `{Collaborators A}.
Local Open Scope string_scope.
Local Open Scope num_scope.

(** One round of the loop over [range(b_min.size)]. *)
Definition b_min_step (b_perp b_deBroglie : list A) (b_min : res A (list A))
  (i : nat) : res A (list A) :=
  acc <- b_min ;;
  p <- getitem b_perp i ;;
  d <- getitem b_deBroglie i ;;
  if p >? d then Ok (set_nth acc i p) else Ok (set_nth acc i d).

(** [b_min = np.zeros_like(b_perp)] filled by the loop, as a flat list. *)
Definition b_min_loop (b_perp b_deBroglie : nd A) : res A (list A) :=
  let zeros := map (fun _ => lit 0) (flat b_perp) in
  fold_left (b_min_step (flat b_perp) (flat b_deBroglie))
            (seq 0 (size b_perp)) (Ok zeros).

(** The flat list [l] in the shape of [v]. *)
Definition reshape_like (v : nd A) (l : list A) : nd A :=
  match v with
  | Scalar _ => Scalar (nth 0 l (lit 0))
  | Array _ => Array l
  end.

(** [T] and [n_e] are one temperature and one density; [V], when given, is
    one velocity or an array of them.  (In the source arrays of
    temperatures or densities are broadcast by [Debye_length] and by the
    default [V], and the result then has their shape as well.) *)
Definition Coulomb_logarithm (T n_e : A) (particles : list string)
  (V : option (nd A)) : M A (nd A) :=
  match particles with
  | [particle_0; particle_1] =>
      let lookup := fun particle : string =>
        match ion_mass particle with
        | None =>
            raise (Raise ValueError
                     [Txt "Unable to find mass of particle: "; Txt particle;
                      Txt " in Coulomb_logarithm."])
        | Some mass =>
            match charge_state particle with
            | None =>
                raise (Raise ValueError
                         [Txt "Unable to find charge of particle: "; Txt particle;
                          Txt " in Coulomb_logarithm."])
            | Some Zp => ret (mass, fabs (e * Zp))
            end
        end in
      mc0 <~ lookup particle_0 ;;
      mc1 <~ lookup particle_1 ;;
      let '(masses_0, charges_0) := mc0 in
      let '(masses_1, charges_1) := mc1 in
      let reduced_mass := masses_0 * masses_1 / (masses_0 + masses_1) in
      let b_max := Debye_length T n_e in
      let V := match V with
               | None => Scalar (fsqrt (lit 3 * k_B * T / reduced_mass))
               | Some V => V
               end in
      let '(warnings, failure) := _check_relativistic V "Coulomb_logarithm" (lit 0.8) in
      for_each warnings (fun w => emit (Warned w)) >>
      match failure with
      | Some ex => raise ex
      | None =>
          let b_perp :=
            nd_map (fun V => charges_0 * charges_1 /
                             (lit 4 * pi * eps0 * reduced_mass * V ^ 2)) V in
          let b_deBroglie :=
            nd_map (fun V => hbar / (lit 2 * reduced_mass * V)) V in
          b_min <~ lift (b_min_loop b_perp b_deBroglie) ;;
          let b_min := reshape_like b_perp b_min in
          let ln_Lambda := nd_map (fun b => fln (b_max / b)) b_min in
          ret ln_Lambda
      end
  | _ =>
      raise (Raise ValueError
               [Txt "The third input of Coulomb_logarithm must be a list or tuple containing representations of two charged particles."])
  end.

End CoulombLogarithm.

(** ** Dimensional coefficients *)

Section Transport.
Context {A : Type} `{Transc A} `{Collaborators A}.
Local Open Scope string_scope.
Local Open Scope num_scope.

(** Arithmetic of a number with what an evaluator returned: elementwise on
    an array, a [TypeError] on [None]. *)
Definition broadcast (f : A -> A) (v : pyval A) : res A (nd A) :=
  match v with
  | Some x => Ok (nd_map f x)
  | None =>
      Err (Raise TypeError [Txt "unsupported operand type(s) for NoneType"])
  end.

(** [v[i]]: only an array can be indexed. *)
Definition subscript (v : pyval A) (i : nat) : res A A :=
  match v with
  | Some (Array xs) =>
      match nth_error xs i with
      | Some x => Ok x
      | None => Err (Raise IndexError [Txt "index out of bounds"])
      end
  | Some (Scalar _) =>
      Err (Raise TypeError [Txt "'int' object is not subscriptable"])
  | None =>
      Err (Raise TypeError [Txt "'NoneType' object is not subscriptable"])
  end.

(** [np.isclose(a, b, rtol=rtol)] with numpy's default [atol = 1e-8]. *)
Definition isclose (a b rtol : A) : bool :=
  fabs (a - b) <=? lit 1e-8 + rtol * fabs b.

(** The six transport functions, with the arguments [classical_transport]
    passes them: the charge state, the Coulomb logarithm and the Hall
    parameter are resolved numbers by then. *)
Definition resistivity (T_e n_e : A) (ion_particle e_particle : string)
  (Z B : A) (model field_orientation : string) (coulomb_log_ei : A)
  (V_ei : option A) (hall_e : A) : res A (nd A) :=
  alpha_hat <- nondim_resisitivity hall_e Z e_particle model field_orientation ;;
  let tau_e := lit 1 / electron_ion_collision_rate T_e n_e ion_particle
                         coulomb_log_ei V_ei in
  broadcast (fun alpha_hat => alpha_hat / (n_e * e ^ 2 * tau_e / m_e)) alpha_hat.

(** [beta_hat * units.s / units.s] leaves the magnitude as it is. *)
Definition thermoelectric_conductivity (T_e n_e : A) (e_particle : string)
  (Z B : A) (model field_orientation : string) (coulomb_log_ei : A)
  (V_ei : option A) (hall_e : A) : res A (nd A) :=
  beta_hat <- nondim_te_conductivity hall_e Z e_particle model field_orientation ;;
  broadcast (fun beta_hat => beta_hat) beta_hat.

Definition ion_thermal_conductivity (T_i n_i : A) (ion_particle : string)
  (Z B : A) (model field_orientation : string) (coulomb_log_ii : A)
  (V_ii : option A) (hall_i : A) (mu theta : option A) : res A (nd A) :=
  m_i <- match ion_mass ion_particle with
         | Some m => Ok m
         | None => Err (Raise CollaboratorError [Txt "ion_mass"; Txt ion_particle])
         end ;;
  kappa_hat <- nondim_thermal_conductivity hall_i Z ion_particle model
                 field_orientation mu theta ;;
  let tau_i := lit 1 / ion_ion_collision_rate T_i n_i ion_particle
                         coulomb_log_ii V_ii in
  broadcast (fun kappa_hat => kappa_hat * (n_i * k_B ^ 2 * T_i * tau_i / m_i))
            kappa_hat.

Definition electron_thermal_conductivity (T_e n_e : A)
  (ion_particle e_particle : string) (Z B : A) (model field_orientation : string)
  (coulomb_log_ei : A) (V_ei : option A) (hall_e : A) (mu theta : option A)
  : res A (nd A) :=
  kappa_hat <- nondim_thermal_conductivity hall_e Z e_particle model
                 field_orientation mu theta ;;
  let tau_e := lit 1 / electron_ion_collision_rate T_e n_e ion_particle
                         coulomb_log_ei V_ei in
  broadcast (fun kappa_hat => kappa_hat * (n_e * k_B ^ 2 * T_e * tau_e / m_e))
            kappa_hat.

(** The units the last [if] of the two viscosity functions compares are
    equal, the Hall parameter being a pure number: the array is always
    built. *)
Definition ion_viscosity (T_i n_i : A) (ion_particle : string) (Z B : A)
  (model field_orientation : string) (coulomb_log_ii : A) (V_ii : option A)
  (hall_i : A) (mu theta : option A) : res A (nd A) :=
  eta_hat <- nondim_viscosity hall_i Z ion_particle model field_orientation
               mu theta ;;
  let tau_i := lit 1 / ion_ion_collision_rate T_i n_i ion_particle
                         coulomb_log_ii V_ii in
  eta_hat_0 <- subscript eta_hat 0 ;;
  eta_hat_1 <- subscript eta_hat 1 ;;
  eta_hat_2 <- subscript eta_hat 2 ;;
  eta_hat_3 <- subscript eta_hat 3 ;;
  eta_hat_4 <- subscript eta_hat 4 ;;
  let eta1 :=
    if isclose hall_i (lit 0) (lit 1e-8) then
      [eta_hat_0 * (n_i * k_B * T_i * tau_i);
       eta_hat_1 * (n_i * k_B * T_i * tau_i);
       eta_hat_2 * (n_i * k_B * T_i * tau_i);
       eta_hat_3 * (n_i * k_B * T_i * tau_i);
       eta_hat_4 * (n_i * k_B * T_i * tau_i)]
    else
      [eta_hat_0 * (n_i * k_B * T_i * tau_i);
       eta_hat_1 * (n_i * k_B * T_i * tau_i) / hall_i ^ 2;
       eta_hat_2 * (n_i * k_B * T_i * tau_i) / hall_i ^ 2;
       eta_hat_3 * (n_i * k_B * T_i * tau_i) / hall_i;
       eta_hat_4 * (n_i * k_B * T_i * tau_i) / hall_i] in
  Ok (Array eta1).

Definition electron_viscosity (T_e n_e : A) (ion_particle e_particle : string)
  (Z B : A) (model field_orientation : string) (coulomb_log_ei : A)
  (V_ei : option A) (hall_e : A) (mu theta : option A) : res A (nd A) :=
  eta_hat <- nondim_viscosity hall_e Z e_particle model field_orientation
               mu theta ;;
  let tau_e := lit 1 / electron_ion_collision_rate T_e n_e ion_particle
                         coulomb_log_ei V_ei in
  eta_hat_0 <- subscript eta_hat 0 ;;
  eta_hat_1 <- subscript eta_hat 1 ;;
  eta_hat_2 <- subscript eta_hat 2 ;;
  eta_hat_3 <- subscript eta_hat 3 ;;
  eta_hat_4 <- subscript eta_hat 4 ;;
  let eta1 :=
    if isclose hall_e (lit 0) (lit 1e-8) then
      [eta_hat_0 * (n_e * k_B * T_e * tau_e);
       eta_hat_1 * (n_e * k_B * T_e * tau_e);
       eta_hat_2 * (n_e * k_B * T_e * tau_e);
       eta_hat_3 * (n_e * k_B * T_e * tau_e);
       eta_hat_4 * (n_e * k_B * T_e * tau_e)]
    else
      [eta_hat_0 * (n_e * k_B * T_e * tau_e);
       eta_hat_1 * (n_e * k_B * T_e * tau_e) / hall_e ^ 2;
       eta_hat_2 * (n_e * k_B * T_e * tau_e) / hall_e ^ 2;
       eta_hat_3 * (n_e * k_B * T_e * tau_e) / hall_e;
       eta_hat_4 * (n_e * k_B * T_e * tau_e) / hall_e] in
  Ok (Array eta1).

End Transport.

(** ** The orchestrator: [classical_transport] *)

(** [str.lower] on ASCII text (the names compared against are ASCII). *)
Definition lower_ascii (c : ascii) : ascii :=
  let n := nat_of_ascii c in
  if ((65 <=? n) && (n <=? 90))%nat then ascii_of_nat (n + 32) else c.

Fixpoint lower (s : string) : string :=
  match s with
  | EmptyString => EmptyString
  | String c s' => String (lower_ascii c) (lower s')
  end.

Definition valid_coeffs : list string :=
  ["resistivity";
   "thermoelectric_conductivity";
   "ion_thermal_conductivity";
   "electron_thermal_conductivity";
   "ion_viscosity";
   "electron_viscosity"]%string.

Definition valid_models : list string :=
  ["braginskii";
   "spitzer";
   "spitzer-harm";
   "ji-held"]%string.

Definition valid_fields : list string :=
  ["parallel"; "par";
   "perpendicular"; "perp";
   "cross";
   "all"]%string.

(** The flag loop [for valid in valids: if valid == x: is_valid = True]. *)
Definition is_valid (valids : list string) (x : string) : bool :=
  fold_left (fun flag valid => if (valid =? x)%string then true else flag)
            valids false.

Section ClassicalTransport.
Context {A : Type} `{Transc A} `{Collaborators A}.
Local Open Scope string_scope.
Local Open Scope num_scope.

(** [for coeff_idx, coeff in enumerate(coeffs): coeffs[coeff_idx] =
    coeff.lower()], on the caller's list. *)
Definition lower_in_place : M A unit :=
  l <~ get_coeffs ;;
  for_each (seq 0 (List.length l)) (fun coeff_idx =>
    l <~ get_coeffs ;;
    match nth_error l coeff_idx with
    | Some coeff => set_coeffs (set_nth l coeff_idx (lower coeff))
    | None => ret tt
    end).

(** The truth value of [v < x] needs one number. *)
Definition item (v : nd A) : M A A :=
  match v with
  | Scalar x => ret x
  | Array [x] => ret x
  | Array _ =>
      raise (Raise ValueError
               [Txt "The truth value of an array with more than one element is ambiguous."])
  end.

(** The dictionary [transport_funcs] with each function applied to the
    keyword arguments of its entry of [args]: the call the loop makes for
    [coeff], [None] for a name that is no key. *)
Definition transport_funcs (T_e n_e T_i n_i : A) (ion_particle e_particle : string)
  (Z B : A) (model field_orientation : string)
  (coulomb_log_ei : A) (V_ei : option A) (coulomb_log_ii : A) (V_ii : option A)
  (hall_e hall_i : A) (mu theta : option A) (coeff : string)
  : option (res A (nd A)) :=
  if (coeff =? "resistivity")%string then
    Some (resistivity T_e n_e ion_particle e_particle Z B model
            field_orientation coulomb_log_ei V_ei hall_e)
  else if (coeff =? "thermoelectric_conductivity")%string then
    Some (thermoelectric_conductivity T_e n_e e_particle Z B model
            field_orientation coulomb_log_ei V_ei hall_e)
  else if (coeff =? "ion_thermal_conductivity")%string then
    Some (ion_thermal_conductivity T_i n_i ion_particle Z B model
            field_orientation coulomb_log_ii V_ii hall_i mu theta)
  else if (coeff =? "electron_thermal_conductivity")%string then
    Some (electron_thermal_conductivity T_e n_e ion_particle e_particle Z B
            model field_orientation coulomb_log_ei V_ei hall_e mu theta)
  else if (coeff =? "ion_viscosity")%string then
    Some (ion_viscosity T_i n_i ion_particle Z B model field_orientation
            coulomb_log_ii V_ii hall_i mu theta)
  else if (coeff =? "electron_viscosity")%string then
    Some (electron_viscosity T_e n_e ion_particle e_particle Z B model
            field_orientation coulomb_log_ei V_ei hall_e mu theta)
  else None.

(** The loop [for coeff_idx, coeff in enumerate(coeffs):
    transport_coeffs.append(...)]. *)
Fixpoint call_each (funcs : string -> option (res A (nd A))) (l : list string)
  : M A (list (nd A)) :=
  match l with
  | [] => ret []
  | coeff :: l' =>
      match funcs coeff with
      | None => raise (Raise KeyError [Txt coeff])
      | Some call =>
          emit (Called coeff) >>
          x <~ lift call ;;
          xs <~ call_each funcs l' ;;
          ret (x :: xs)
      end
  end.

(** Lines 396-436: the three name checks, each a flag loop over the valid
    names, on the lower-cased names. *)
Definition check_names (model field_orientation : string) : M A unit :=
  l <~ get_coeffs ;;
  for_each l (fun coeff =>
    if is_valid valid_coeffs coeff then ret tt
    else raise (Raise PhysicsError
                  [Txt "Unknown transport coefficient '"; Txt coeff; Txt "'"])) >>
  (if is_valid valid_models model then ret tt
   else raise (Raise PhysicsError
                 [Txt "Unknown transport model '"; Txt model; Txt "'"])) >>
  (if is_valid valid_fields field_orientation then ret tt
   else raise (Raise PhysicsError
                 [Txt "Unknown field orientation '"; Txt field_orientation;
                  Txt "'"])).

(** Lines 445-461: the ion mass and the charge state, [(m_i, Z)]. *)
Definition resolve_species (ion_particle : string) (Z : option A) : M A (A * A) :=
  m_i <~ match ion_mass ion_particle with
         | Some m => ret m
         | None =>
             raise (Raise ValueError
                      [Txt "Unable to find mass of particle: "; Txt ion_particle;
                       Txt " in classical_transport."])
         end ;;
  Z <~ match Z with
       | None =>
           match charge_state ion_particle with
           | Some Z => ret Z
           | None =>
               raise (Raise ValueError
                        [Txt "Unable to find charge of particle: ";
                         Txt ion_particle; Txt " in classical_transport."])
           end
       | Some Z =>
           if Z <? lit 0
           then raise (Raise ValueError [Txt "Z not allowed to be negative"])
           else ret Z
       end ;;
  ret (m_i, Z).

(** Lines 467-470 and 476-479: a Coulomb logarithm is the one supplied, or
    else the one computed by [compute]. *)
Definition resolve_coulomb_log (supplied : option A) (compute : M A (nd A))
  : M A A :=
  match supplied with
  | None => v <~ compute ;; item v
  | Some v => ret v
  end.

(** Lines 471-475 and 480-484: the warning below 4 and the error below 1;
    [name] is [coulomb_log_ei] or [coulomb_log_ii]. *)
Definition strong_coupling_warning (name : string) (v : A) : warning A :=
  Warning "PhysicsWarning"
    [Txt name; Txt " is "; Num v; Txt ", you might have strong coupling effects"].

Definition less_than_1_error (name : string) (v : A) : exn A :=
  Raise PhysicsError [Txt name; Txt " is "; Num v; Txt ", less than 1"].

Definition check_coulomb_log (name : string) (v : A) : M A unit :=
  (if v <? lit 4
   then emit (Warned (strong_coupling_warning name v))
   else ret tt) >>
  (if v <? lit 1
   then raise (less_than_1_error name v)
   else ret tt).

(** Lines 486-600: the Hall parameters, the Ji-Held ratios, the argument
    dictionaries and the loop over the requested coefficients. *)
Definition evaluate_coefficients (T_e n_e T_i n_i : A) (ion_particle : string)
  (m_i Z B : A) (model field_orientation : string)
  (coulomb_log_ei : A) (V_ei : option A) (coulomb_log_ii : A) (V_ii : option A)
  (hall_e hall_i mu theta : option A)
  : M A (list (nd A) * A * A * A * A) :=
  let e_particle := "e" in
  let hall_e := match hall_e with
                | None => Hall_parameter n_e T_e B e_particle ion_particle
                            coulomb_log_ei V_ei
                | Some h => h
                end in
  let hall_i := match hall_i with
                | None => Hall_parameter n_i T_i B ion_particle ion_particle
                            coulomb_log_ii V_ii
                | Some h => h
                end in
  let mu := if (model =? "ji-held")%string
            then match mu with None => Some (m_e / m_i) | Some _ => mu end
            else mu in
  let theta := if (model =? "ji-held")%string
               then match theta with None => Some (T_e / T_i) | Some _ => theta end
               else theta in
  l <~ get_coeffs ;;
  transport_coeffs <~
    call_each (transport_funcs T_e n_e T_i n_i ion_particle e_particle Z B
                 model field_orientation coulomb_log_ei V_ei coulomb_log_ii
                 V_ii hall_e hall_i mu theta) l ;;
  ret (transport_coeffs, hall_e, hall_i, coulomb_log_ei, coulomb_log_ii).

(** Lines 390-461: everything before the Coulomb logarithms. *)
Definition prelude (ion_particle : string) (Z : option A)
  (model field_orientation : string) : M A (A * A) :=
  lower_in_place >>
  check_names (lower model) (lower field_orientation) >>
  resolve_species ion_particle Z.

Definition classical_transport (T_e n_e T_i n_i : A) (ion_particle : string)
  (Z : option A) (B : A) (model field_orientation : string)
  (coulomb_log_ei V_ei coulomb_log_ii V_ii hall_e hall_i mu theta : option A)
  : M A (list (nd A) * A * A * A * A) :=
  species <~ prelude ion_particle Z model field_orientation ;;
  let model := lower model in
  let field_orientation := lower field_orientation in
  let '(m_i, Z) := species in
  let e_particle := "e" in
  coulomb_log_ei <~
    resolve_coulomb_log coulomb_log_ei
      (Coulomb_logarithm T_e n_e [e_particle; ion_particle]
         (option_map Scalar V_ei)) ;;
  check_coulomb_log "coulomb_log_ei" coulomb_log_ei >>
  coulomb_log_ii <~
    resolve_coulomb_log coulomb_log_ii
      (Coulomb_logarithm T_i n_e [ion_particle; ion_particle]
         (option_map Scalar V_ii)) ;;
  check_coulomb_log "coulomb_log_ii" coulomb_log_ii >>
  evaluate_coefficients T_e n_e T_i n_i ion_particle m_i Z B model
    field_orientation coulomb_log_ei V_ei coulomb_log_ii V_ii
    hall_e hall_i mu theta.

End ClassicalTransport.

(** * Vocabulary of the properties *)

Section SearchVocabulary.
Context {X : Type} (p : X -> bool).

(** One round of a loop that keeps the index of the last entry passing [p]. *)
Definition last_step (acc : option nat) (q : nat * X) : option nat :=
  if p (snd q) then Some (fst q) else acc.

End SearchVocabulary.

Section Vocabulary.
Context {A : Type} `{Arith A}.
Local Open Scope string_scope.
Local Open Scope num_scope.

(** The quartic [hall**4 + delta_1*hall**2 + delta_0] every Braginskii
    evaluator writes out. *)
Definition Delta_of (delta_1 delta_0 hall : A) : A :=
  hall ^ 4 + delta_1 * hall ^ 2 + delta_0.

(** The two rational forms of the specification over the shared quartic. *)
Definition perp_form (c_1 c_0 delta_1 delta_0 x : A) : A :=
  (c_1 * x ^ 2 + c_0) / Delta_of delta_1 delta_0 x.

Definition cross_form (c_1 c_0 delta_1 delta_0 x : A) : A :=
  (c_1 * x ^ 3 + c_0 * x) / Delta_of delta_1 delta_0 x.

(** An evaluator whose parallel component is [par], whatever the Hall
    parameter, and whose other components are [perp] and [cross] of it. *)
Definition has_components (f : A -> string -> res A (pyval A))
  (par : A) (perp cross : A -> A) : Prop :=
  forall hall : A,
    f hall "parallel"%string = Ok (Some (Scalar par)) /\
    f hall "par"%string = Ok (Some (Scalar par)) /\
    f hall "perpendicular"%string = Ok (Some (Scalar (perp hall))) /\
    f hall "perp"%string = Ok (Some (Scalar (perp hall))) /\
    f hall "cross"%string = Ok (Some (Scalar (cross hall))).

(** What one round of the loop stores: the larger of the two entries. *)
Definition pick (p d : A) : A := if p >? d then p else d.

(** From [w] to [w'] the caller's list is the same and the log has grown by
    warnings only: no transport function was called in between. *)
Definition only_warnings (w w' : world A) : Prop :=
  coeffs w' = coeffs w /\ exists ws, log w' = (log w ++ map Warned ws)%list.

(** A computation that does no more than that. *)
Definition quiet {X : Type} (m : M A X) : Prop :=
  forall w, only_warnings w (fst (m w)).

(** A computation that changes nothing of the world. *)
Definition silent {X : Type} (m : M A X) : Prop :=
  forall w, fst (m w) = w.

(** A computation that leaves the caller's list as it is. *)
Definition keeps_coeffs {X : Type} (m : M A X) : Prop :=
  forall w, coeffs (fst (m w)) = coeffs w.

(** The world after the warning of [check_coulomb_log], if it is due. *)
Definition warned (name : string) (v : A) (w : world A) : world A :=
  if v <? lit 4
  then World (coeffs w)
         (log w ++ [Warned (strong_coupling_warning name v)])%list
  else w.

(** What ["all"] gives is the triple of what the three orientations give one
    by one, under their long and short names; or each request raises the
    same exception. *)
Definition all_is_triple (f : string -> res A (pyval A)) : Prop :=
  (exists par perp cross : A,
     f "all" = Ok (Some (Array [par; perp; cross])) /\
     f "parallel" = Ok (Some (Scalar par)) /\
     f "par" = Ok (Some (Scalar par)) /\
     f "perpendicular" = Ok (Some (Scalar perp)) /\
     f "perp" = Ok (Some (Scalar perp)) /\
     f "cross" = Ok (Some (Scalar cross)))
  \/
  (exists ex : exn A,
     f "all" = Err ex /\
     f "parallel" = Err ex /\ f "par" = Err ex /\
     f "perpendicular" = Err ex /\ f "perp" = Err ex /\
     f "cross" = Err ex).

(** The orientation has no part in the result. *)
Definition ignores_orientation (f : string -> res A (pyval A)) : Prop :=
  forall field_orientation field_orientation' : string,
    f field_orientation = f field_orientation'.

End Vocabulary.

(** The five components, undivided and divided. *)
Definition undivided (eta_hat : list R) (scale : R) : list R :=
  map (fun eta_hat_i => eta_hat_i * scale)%R eta_hat.

Definition divided (eta_hat : list R) (scale hall : R) : list R :=
  match eta_hat with
  | [eta_hat_0; eta_hat_1; eta_hat_2; eta_hat_3; eta_hat_4] =>
      [eta_hat_0 * scale;
       eta_hat_1 * scale / hall ^ 2;
       eta_hat_2 * scale / hall ^ 2;
       eta_hat_3 * scale / hall;
       eta_hat_4 * scale / hall]%R
  | _ => []
  end.

(** A result with its cross component negated: the number of a request for
    ["cross"], the third entry of a request for ["all"]. *)
Definition flip_cross (field_orientation : string) (r : res R (pyval R))
  : res R (pyval R) :=
  match r with
  | Ok (Some (Scalar x)) =>
      if is_cross field_orientation then Ok (Some (Scalar (- x)%R)) else r
  | Ok (Some (Array [par; perp; cross])) =>
      Ok (Some (Array [par; perp; (- cross)%R]))
  | _ => r
  end.

(** The array of ["all"] when the parallel result is also the
    perpendicular one and the cross component vanishes. *)
Definition isotropic (r : res R (pyval R)) : res R (pyval R) :=
  match r with
  | Ok (Some (Scalar par)) => Ok (Some (Array [par; par; 0%R]))
  | _ => r
  end.

(** Real arithmetic with a test for [np.inf]: the operations of [Arith_R],
    and [Z == np.inf] holds of the numbers [pinf] picks out.  With it a real
    charge state can resolve to the last row of the Spitzer-Harm and
    Braginskii tables, the row of [np.inf], which no number does under
    [Arith_R]. *)
Definition Arith_R_inf (pinf : R -> bool) : Arith R := {|
  lit q := Q2R q;
  fadd a b := (a + b)%R;
  fsub a b := (a - b)%R;
  fmul a b := (a * b)%R;
  fdiv a b := (a / b)%R;
  fpow a n := (a ^ n)%R;
  fabs a := Rabs a;
  feqb a b := if Req_dec_T a b then true else false;
  fltb a b := if Rlt_dec a b then true else false;
  fleb a b := if Rle_dec a b then true else false;
  is_pinf := pinf
|}.

(** The numbers above the range of the doubles, [2^1024] and more, which a
    float holds as [inf]. *)
Definition beyond_doubles (x : R) : bool :=
  if Rle_dec (Q2R (2 ^ 1024)) x then true else false.

(** A plasma of electrons and protons in units where the constants are 1:
    collaborators over the reals, for the examples below. *)
Definition demo : Collaborators R := {|
  k_B := 1%R;
  e := 1%R;
  eps0 := 1%R;
  hbar := 1%R;
  m_e := 1%R;
  pi := PI;
  ion_mass := fun p => if (p =? "e")%string then Some (lit 1) else Some (lit 1836);
  charge_state := fun p => if (p =? "e")%string then Some (lit (-1)) else Some (lit 1);
  _is_electron := fun p => (p =? "e")%string;
  _check_relativistic := fun _ _ _ => ([], None);
  Debye_length := fun T n => sqrt (T / n);
  Hall_parameter := fun _ _ B _ _ _ _ => B;
  electron_ion_collision_rate := fun _ _ _ _ _ => 1%R;
  ion_ion_collision_rate := fun _ _ _ _ _ => 1%R
|}.

(** The same plasma with a species database that knows electrons and
    protons, the mass of ["x"] but not its charge, and no other name. *)
Definition sparse : Collaborators R := {|
  k_B := 1%R;
  e := 1%R;
  eps0 := 1%R;
  hbar := 1%R;
  m_e := 1%R;
  pi := PI;
  ion_mass := fun p =>
    if (p =? "e")%string then Some (lit 1)
    else if (p =? "p")%string then Some (lit 1836)
    else if (p =? "x")%string then Some (lit 2)
    else None;
  charge_state := fun p =>
    if (p =? "e")%string then Some (lit (-1))
    else if (p =? "p")%string then Some (lit 1)
    else None;
  _is_electron := fun p => (p =? "e")%string;
  _check_relativistic := fun _ _ _ => ([], None);
  Debye_length := fun T n => sqrt (T / n);
  Hall_parameter := fun _ _ B _ _ _ _ => B;
  electron_ion_collision_rate := fun _ _ _ _ _ => 1%R;
  ion_ion_collision_rate := fun _ _ _ _ _ => 1%R
|}.

Section EvaluatorVocabulary.
Context {A : Type} `{Arith A}.

(** An evaluator that accepts exactly the charge states listed in [keys]:
    it returns for a [Z] equal to one of them and raises the [PhysicsError]
    of [check_Z], naming [Z] and [caller], for any other. *)
Definition accepts_exactly (keys : list (zkey A)) (caller : string)
  (f : A -> res A (pyval A)) : Prop :=
  forall Z : A,
    ((exists k, In k keys /\ Z_eq Z k = true) -> exists v, f Z = Ok v) /\
    ((forall k, In k keys -> Z_eq Z k = false) ->
     f Z = Err (Raise PhysicsError
                  [Num Z; Txt " is not an available Z value in "; Txt caller])).

(** Component [i] of a result that is an array. *)
Definition component (r : res A (pyval A)) (i : nat) : option A :=
  match r with
  | Ok (Some (Array xs)) => nth_error xs i
  | _ => None
  end.

(** An evaluator that reaches no [return], and so returns [None], exactly
    for the orientations outside [names]. *)
Definition returns_None_outside (names : list string)
  (f : string -> res A (pyval A)) : Prop :=
  forall (field_orientation : string) (v : pyval A),
    f field_orientation = Ok v ->
    (v = None <-> ~ In field_orientation names).


(** A result with [g] applied to each of its numbers. *)
Definition pyval_map (g : A -> A) (r : res A (pyval A)) : res A (pyval A) :=
  match r with
  | Ok v => Ok (option_map (nd_map g) v)
  | Err ex => Err ex
  end.

End EvaluatorVocabulary.

(** * Properties *)

(** ** Searching a list for the last entry that passes a test *)

Section FindLast.
Context {X : Type} (p : X -> bool).

Lemma combine_seq_snoc (l : list X) (x : X) (s : nat) :
  combine (seq s (List.length (l ++ [x]))) (l ++ [x]) =
  combine (seq s (List.length l)) l ++ [(s + List.length l, x)].
Proof.
  revert s; induction l as [|y l IH]; intros s; simpl.
  - now rewrite Nat.add_0_r.
  - rewrite IH. now rewrite Nat.add_succ_r.
Qed.

Lemma enumerate_snoc (l : list X) (x : X) :
  enumerate (l ++ [x]) = enumerate l ++ [(List.length l, x)].
Proof. unfold enumerate. now rewrite combine_seq_snoc. Qed.

Lemma fold_last_snoc (l : list X) (x : X) (init : option nat) :
  fold_left (last_step p) (enumerate (l ++ [x])) init =
  if p x then Some (List.length l) else fold_left (last_step p) (enumerate l) init.
Proof.
  rewrite enumerate_snoc, fold_left_app. reflexivity.
Qed.

(** The loop returns the greatest index whose entry passes, and [None] when
    no entry does. *)
Lemma fold_last_spec (l : list X) :
  match fold_left (last_step p) (enumerate l) None with
  | Some i =>
      (exists x, nth_error l i = Some x /\ p x = true) /\
      (forall j y, nth_error l j = Some y -> p y = true -> j <= i)
  | None => forall y, In y l -> p y = false
  end.
Proof.
  induction l as [|x l IH] using rev_ind.
  - simpl. intros y [].
  - rewrite fold_last_snoc. destruct (p x) eqn:Hx.
    + split.
      * exists x. split; [|assumption].
        rewrite nth_error_app2 by lia. now rewrite Nat.sub_diag.
      * intros j y Hj _.
        assert (j < List.length (l ++ [x])) as Hlt
          by (apply nth_error_Some; congruence).
        rewrite length_app in Hlt. simpl in Hlt. lia.
    + destruct (fold_left (last_step p) (enumerate l) None) as [i|].
      * destruct IH as [[y [Hy Hpy]] Hmax]. split.
        -- exists y. split; [|assumption].
           rewrite nth_error_app1; [assumption|].
           apply nth_error_Some. congruence.
        -- intros j z Hj Hz.
           destruct (Nat.lt_ge_cases j (List.length l)) as [Hlt|Hge].
           ++ rewrite nth_error_app1 in Hj by assumption. eauto.
           ++ rewrite nth_error_app2 in Hj by assumption.
              destruct (j - List.length l) as [|n] eqn:Hn; simpl in Hj.
              ** injection Hj as <-. congruence.
              ** destruct n; discriminate.
      * intros y Hy. apply in_app_or in Hy as [Hy|[<-|[]]]; auto.
Qed.

End FindLast.

(** ** C1: the Z-table lookup *)

Section CheckZSpec.
Context {A : Type} `{Arith A}.

Lemma find_Z_last (allowed_Z : list (zkey A)) (Z : A) :
  find_Z allowed_Z Z = fold_left (last_step (Z_eq Z)) (enumerate allowed_Z) None.
Proof. reflexivity. Qed.

(** The flag and the index of the first loop are set together. *)
Lemma find_arbitrary_flag (allowed_Z : list (zkey A)) :
  find_arbitrary allowed_Z =
  match fold_left (last_step is_arbitrary) (enumerate allowed_Z) None with
  | Some i => (true, Some i)
  | None => (false, None)
  end.
Proof.
  unfold find_arbitrary.
  induction allowed_Z as [|k l IH] using rev_ind; [reflexivity|].
  rewrite fold_last_snoc, enumerate_snoc, fold_left_app. simpl.
  destruct (is_arbitrary k); [reflexivity|exact IH].
Qed.

Lemma is_arbitrary_true (k : zkey A) : is_arbitrary k = true <-> k = KArbitrary.
Proof. destruct k; simpl; split; congruence. Qed.

(** C1.  [check_Z] returns the index of the entry equal to [Z] (the last
    one, should several be equal); with no equal entry it returns the index
    of the ['arbitrary'] entry when there is one (the last one), and raises
    the [PhysicsError] that names [Z] and the caller when there is none. *)
Theorem check_Z_spec (allowed_Z : list (zkey A)) (Z : A) (caller : string) :
  ((exists k, In k allowed_Z /\ Z_eq Z k = true) ->
   exists i k,
     check_Z allowed_Z Z caller = Ok i /\
     nth_error allowed_Z i = Some k /\ Z_eq Z k = true /\
     forall j k', nth_error allowed_Z j = Some k' -> Z_eq Z k' = true -> j <= i)
  /\
  ((forall k, In k allowed_Z -> Z_eq Z k = false) ->
   In KArbitrary allowed_Z ->
   exists i,
     check_Z allowed_Z Z caller = Ok i /\
     nth_error allowed_Z i = Some KArbitrary /\
     forall j, nth_error allowed_Z j = Some KArbitrary -> j <= i)
  /\
  ((forall k, In k allowed_Z -> Z_eq Z k = false) ->
   ~ In KArbitrary allowed_Z ->
   check_Z allowed_Z Z caller =
   Err (Raise PhysicsError
          [Num Z; Txt " is not an available Z value in "; Txt caller])).
Proof.
  unfold check_Z. rewrite find_arbitrary_flag, find_Z_last.
  pose proof (fold_last_spec (Z_eq Z) allowed_Z) as HZ.
  pose proof (fold_last_spec is_arbitrary allowed_Z) as HA.
  repeat split.
  - intros [k [Hin Hk]].
    destruct (fold_left (last_step (Z_eq Z)) (enumerate allowed_Z) None)
      as [i|].
    + destruct HZ as [[k0 [Hk0 Hp]] Hmax]. exists i, k0.
      destruct (fold_left (last_step is_arbitrary) (enumerate allowed_Z) None);
        auto.
    + rewrite (HZ k Hin) in Hk. discriminate.
  - intros Hno Harb.
    destruct (fold_left (last_step (Z_eq Z)) (enumerate allowed_Z) None)
      as [i|].
    + destruct HZ as [[k0 [Hk0 Hp]] _].
      rewrite (Hno k0 (nth_error_In _ _ Hk0)) in Hp. discriminate.
    + destruct (fold_left (last_step is_arbitrary) (enumerate allowed_Z) None)
        as [i|].
      * destruct HA as [[k0 [Hk0 Hp]] Hmax].
        apply is_arbitrary_true in Hp. subst k0.
        exists i. repeat split; auto.
        intros j Hj. now apply (Hmax j KArbitrary).
      * specialize (HA KArbitrary Harb). discriminate.
  - intros Hno Hnarb.
    destruct (fold_left (last_step (Z_eq Z)) (enumerate allowed_Z) None)
      as [i|].
    + destruct HZ as [[k0 [Hk0 Hp]] _].
      rewrite (Hno k0 (nth_error_In _ _ Hk0)) in Hp. discriminate.
    + destruct (fold_left (last_step is_arbitrary) (enumerate allowed_Z) None)
        as [i|]; [|reflexivity].
      destruct HA as [[k0 [Hk0 Hp]] _].
      apply is_arbitrary_true in Hp. subst k0.
      exfalso. apply Hnarb. eapply nth_error_In; eauto.
Qed.

(** An index returned by [check_Z] is an index of the list. *)
Lemma check_Z_in_range (allowed_Z : list (zkey A)) (Z : A) (caller : string)
  (i : nat) :
  check_Z allowed_Z Z caller = Ok i -> i < List.length allowed_Z.
Proof.
  unfold check_Z. rewrite find_arbitrary_flag, find_Z_last.
  pose proof (fold_last_spec (Z_eq Z) allowed_Z) as HZ.
  pose proof (fold_last_spec is_arbitrary allowed_Z) as HA.
  destruct (fold_left (last_step (Z_eq Z)) (enumerate allowed_Z) None) as [j|].
  - destruct HZ as [[k [Hk _]] _].
    destruct (fold_left (last_step is_arbitrary) (enumerate allowed_Z) None);
      intros [= <-]; apply nth_error_Some; congruence.
  - destruct (fold_left (last_step is_arbitrary) (enumerate allowed_Z) None)
      as [j|]; [|discriminate].
    destruct HA as [[k [Hk _]] _].
    intros [= <-]; apply nth_error_Some; congruence.
Qed.

End CheckZSpec.

(** The lookup on the Ji-Held list and on the Braginskii list, with exact
    rationals: 2 is found, 7 falls to ['arbitrary'] in the first list and is
    refused by the second. *)
Lemma check_Z_spec_witness :
  (exists i k,
     check_Z (A := Q) [KNum 1%Q; KNum 2%Q; KArbitrary] 2%Q "f" = Ok i /\
     nth_error [KNum 1%Q; KNum 2%Q; KArbitrary] i = Some k /\
     Z_eq 2%Q k = true /\
     forall j k', nth_error [KNum 1%Q; KNum 2%Q; KArbitrary] j = Some k' ->
                  Z_eq 2%Q k' = true -> j <= i) /\
  (exists i,
     check_Z (A := Q) [KNum 1%Q; KNum 2%Q; KArbitrary] 7%Q "f" = Ok i /\
     nth_error [KNum 1%Q; KNum 2%Q; KArbitrary] i = Some KArbitrary /\
     forall j, nth_error [KNum 1%Q; KNum 2%Q; KArbitrary] j = Some KArbitrary ->
               j <= i) /\
  check_Z (A := Q) [KNum 1%Q; KNum 2%Q; KNum 3%Q; KNum 4%Q; KInf] 7%Q "f" =
  Err (Raise PhysicsError
         [Num 7%Q; Txt " is not an available Z value in "; Txt "f"]).
Proof.
  split; [|split].
  - apply (check_Z_spec (A := Q)).
    exists (KNum 2%Q). split; [simpl; auto|reflexivity].
  - apply (check_Z_spec (A := Q)).
    + intros k [<-|[<-|[<-|[]]]]; reflexivity.
    + simpl; auto.
  - apply (check_Z_spec (A := Q)).
    + intros k [<-|[<-|[<-|[<-|[<-|[]]]]]]; reflexivity.
    + intros [H|[H|[H|[H|[H|[]]]]]]; discriminate.
Defined.

(** ** C2: the Braginskii components *)

Section BraginskiiForm.
Context {A : Type} `{Arith A}.
Local Open Scope num_scope.

(** The name read off the call stack only shows in the error message. *)
Lemma check_Z_caller (allowed_Z : list (zkey A)) (Z : A) (c c' : string)
  (i : nat) :
  check_Z allowed_Z Z c = Ok i -> check_Z allowed_Z Z c' = Ok i.
Proof.
  unfold check_Z. destruct (find_arbitrary allowed_Z) as [[|] [j|]];
    destruct (find_Z allowed_Z Z); intros E; try discriminate E; exact E.
Qed.

(** C2, as the code has it.  For a charge state resolved to the table row
    [Z_idx], the three table-driven Braginskii evaluators share the quartic
    [Delta_of delta_1 delta_0]; the parallel component is a table value free
    of the Hall parameter and the cross component is [cross_form]; the
    perpendicular component is [perp_form] for the electron thermal and the
    thermoelectric conductivity, and one minus [perp_form] for the
    resistivity (whose parallel component is one minus the table ratio). *)
Theorem braginskii_components (Z : A) (caller : string) (Z_idx : nat) :
  check_Z braginskii_allowed_Z Z caller = Ok Z_idx ->
  exists delta_0 delta_1,
    nth_error braginskii_delta_0 Z_idx = Some delta_0 /\
    nth_error braginskii_delta_1 Z_idx = Some delta_1 /\
    (exists gamma_1_prime gamma_0_prime gamma_1_doubleprime gamma_0_doubleprime,
       nth_error tc_e_gamma_1_prime Z_idx = Some gamma_1_prime /\
       nth_error tc_e_gamma_0_prime Z_idx = Some gamma_0_prime /\
       nth_error tc_e_gamma_1_doubleprime Z_idx = Some gamma_1_doubleprime /\
       nth_error tc_e_gamma_0_doubleprime Z_idx = Some gamma_0_doubleprime /\
       has_components (fun hall => nondim_tc_e_braginskii hall Z)
         (gamma_0_prime / delta_0)
         (perp_form gamma_1_prime gamma_0_prime delta_1 delta_0)
         (cross_form gamma_1_doubleprime gamma_0_doubleprime delta_1 delta_0)) /\
    (exists beta_1_prime beta_0_prime beta_1_doubleprime beta_0_doubleprime,
       nth_error tec_beta_1_prime Z_idx = Some beta_1_prime /\
       nth_error tec_beta_0_prime Z_idx = Some beta_0_prime /\
       nth_error tec_beta_1_doubleprime Z_idx = Some beta_1_doubleprime /\
       nth_error tec_beta_0_doubleprime Z_idx = Some beta_0_doubleprime /\
       has_components (fun hall => nondim_tec_braginskii hall Z)
         (beta_0_prime / delta_0)
         (perp_form beta_1_prime beta_0_prime delta_1 delta_0)
         (cross_form beta_1_doubleprime beta_0_doubleprime delta_1 delta_0)) /\
    (exists alpha_1_prime alpha_0_prime alpha_1_doubleprime alpha_0_doubleprime,
       nth_error resist_alpha_1_prime Z_idx = Some alpha_1_prime /\
       nth_error resist_alpha_0_prime Z_idx = Some alpha_0_prime /\
       nth_error resist_alpha_1_doubleprime Z_idx = Some alpha_1_doubleprime /\
       nth_error resist_alpha_0_doubleprime Z_idx = Some alpha_0_doubleprime /\
       has_components (fun hall => nondim_resist_braginskii hall Z)
         (lit 1 - alpha_0_prime / delta_0)
         (fun x => lit 1 - perp_form alpha_1_prime alpha_0_prime delta_1 delta_0 x)
         (cross_form alpha_1_doubleprime alpha_0_doubleprime delta_1 delta_0)).
Proof.
  intros Hidx.
  pose proof (check_Z_in_range _ _ _ _ Hidx) as Hlt. simpl in Hlt.
  pose proof (check_Z_caller _ _ _ "nondim_tc_e_braginskii" _ Hidx) as H1.
  pose proof (check_Z_caller _ _ _ "nondim_tec_braginskii" _ Hidx) as H2.
  pose proof (check_Z_caller _ _ _ "nondim_resist_braginskii" _ Hidx) as H3.
  destruct Z_idx as [|[|[|[|[|n]]]]]; [| | | | |exfalso; lia];
    (do 2 eexists; split; [reflexivity|]; split; [reflexivity|];
     split; [|split];
     do 4 eexists; (do 4 (split; [reflexivity|]));
     intros hall;
     unfold nondim_tc_e_braginskii, nondim_tec_braginskii,
       nondim_resist_braginskii;
     rewrite ?H1, ?H2, ?H3; repeat split; reflexivity).
Qed.

End BraginskiiForm.

(** Charge state 1 resolves to row 0 of the Braginskii tables. *)
Lemma braginskii_components_witness :
  exists delta_0 delta_1 : Q,
    nth_error braginskii_delta_0 0 = Some delta_0 /\
    nth_error braginskii_delta_1 0 = Some delta_1 /\
    (exists gamma_1_prime gamma_0_prime gamma_1_doubleprime gamma_0_doubleprime,
       nth_error tc_e_gamma_1_prime 0 = Some gamma_1_prime /\
       nth_error tc_e_gamma_0_prime 0 = Some gamma_0_prime /\
       nth_error tc_e_gamma_1_doubleprime 0 = Some gamma_1_doubleprime /\
       nth_error tc_e_gamma_0_doubleprime 0 = Some gamma_0_doubleprime /\
       has_components (fun hall => nondim_tc_e_braginskii hall 1%Q)
         (gamma_0_prime / delta_0)%num
         (perp_form gamma_1_prime gamma_0_prime delta_1 delta_0)
         (cross_form gamma_1_doubleprime gamma_0_doubleprime delta_1 delta_0)) /\
    (exists beta_1_prime beta_0_prime beta_1_doubleprime beta_0_doubleprime,
       nth_error tec_beta_1_prime 0 = Some beta_1_prime /\
       nth_error tec_beta_0_prime 0 = Some beta_0_prime /\
       nth_error tec_beta_1_doubleprime 0 = Some beta_1_doubleprime /\
       nth_error tec_beta_0_doubleprime 0 = Some beta_0_doubleprime /\
       has_components (fun hall => nondim_tec_braginskii hall 1%Q)
         (beta_0_prime / delta_0)%num
         (perp_form beta_1_prime beta_0_prime delta_1 delta_0)
         (cross_form beta_1_doubleprime beta_0_doubleprime delta_1 delta_0)) /\
    (exists alpha_1_prime alpha_0_prime alpha_1_doubleprime alpha_0_doubleprime,
       nth_error resist_alpha_1_prime 0 = Some alpha_1_prime /\
       nth_error resist_alpha_0_prime 0 = Some alpha_0_prime /\
       nth_error resist_alpha_1_doubleprime 0 = Some alpha_1_doubleprime /\
       nth_error resist_alpha_0_doubleprime 0 = Some alpha_0_doubleprime /\
       has_components (fun hall => nondim_resist_braginskii hall 1%Q)
         (lit 1 - alpha_0_prime / delta_0)%num
         (fun x => lit 1 - perp_form alpha_1_prime alpha_0_prime delta_1 delta_0 x)%num
         (cross_form alpha_1_doubleprime alpha_0_doubleprime delta_1 delta_0)).
Proof.
  apply (braginskii_components (A := Q) 1%Q "caller" 0).
  reflexivity.
Defined.

(** The resistivity's perpendicular component is not the plain ratio of the
    claim: at Hall parameter 0 and Z = 1 the code gives 1 - 1.837/3.7703,
    the ratio is 1.837/3.7703. *)
Lemma resist_perp_is_not_perp_form :
  nondim_resist_braginskii (A := Q) 0%Q 1%Q "perpendicular" =
    Ok (Some (Scalar (19333 # 37703)%Q)) /\
  perp_form (A := Q) (lit 6.416) (lit 1.837) (lit 14.79) (lit 3.7703) 0%Q =
    (18370 # 37703)%Q /\
  ~ ((19333 # 37703) == (18370 # 37703))%Q.
Proof.
  repeat split; try reflexivity.
  intros E. vm_compute in E. discriminate E.
Qed.

(** ** C3: the Coulomb logarithm *)

Section BMinLoop.
Context {A : Type} `{Arith A}.
Local Open Scope num_scope.

Lemma set_nth_app (l1 l2 : list A) (z x : A) :
  set_nth (l1 ++ z :: l2) (List.length l1) x = l1 ++ x :: l2.
Proof. induction l1 as [|y l1 IH]; simpl; [reflexivity|now rewrite IH]. Qed.

Lemma firstn_snoc_nth (l : list A) (k : nat) (x : A) :
  nth_error l k = Some x -> firstn (S k) l = firstn k l ++ [x].
Proof.
  revert k; induction l as [|y l IH]; intros [|k] E; simpl in *;
    try discriminate.
  - now injection E as ->.
  - now rewrite (IH k E).
Qed.

Lemma skipn_cons_nth (l : list A) (k : nat) (x : A) :
  nth_error l k = Some x -> skipn k l = x :: skipn (S k) l.
Proof.
  revert k; induction l as [|y l IH]; intros [|k] E; simpl in *;
    try discriminate.
  - now injection E as ->.
  - now rewrite (IH k E).
Qed.

(** After [k] rounds the first [k] cells hold their final value and the
    others are as at the start. *)
Lemma b_min_rounds (bp bd zeros : list A) (k : nat) :
  List.length bd = List.length bp ->
  List.length zeros = List.length bp ->
  k <= List.length bp ->
  fold_left (b_min_step bp bd) (seq 0 k) (Ok zeros) =
  Ok (firstn k (map (fun q => pick (fst q) (snd q)) (combine bp bd)) ++
      skipn k zeros).
Proof.
  intros Hd Hz. induction k as [|k IH]; intros Hk; [reflexivity|].
  rewrite seq_S, fold_left_app, IH by lia. cbn [fold_left Nat.add].
  destruct (nth_error bp k) as [p|] eqn:Ep;
    [|apply nth_error_None in Ep; lia].
  destruct (nth_error bd k) as [d|] eqn:Ed;
    [|apply nth_error_None in Ed; lia].
  destruct (nth_error zeros k) as [z|] eqn:Ez;
    [|apply nth_error_None in Ez; lia].
  unfold b_min_step, getitem, rbind. rewrite Ep, Ed.
  set (target := map (fun q => pick (fst q) (snd q)) (combine bp bd)).
  assert (nth_error target k = Some (pick p d)) as Et.
  { unfold target. rewrite nth_error_map.
    assert (nth_error (combine bp bd) k = Some (p, d)) as ->; [|reflexivity].
    clear - Ep Ed. revert bd k Ep Ed.
    induction bp as [|y bp IHb]; intros [|y' bd] [|k] Ep Ed; simpl in *;
      try discriminate; [congruence|auto]. }
  assert (List.length (firstn k target) = k) as Hlen.
  { apply firstn_length_le. apply Nat.lt_le_incl, nth_error_Some. congruence. }
  rewrite (skipn_cons_nth _ _ _ Ez), (firstn_snoc_nth _ _ _ Et), <- app_assoc.
  cbn [app].
  assert (forall x, set_nth (firstn k target ++ z :: skipn (S k) zeros) k x =
                    firstn k target ++ x :: skipn (S k) zeros) as Hset.
  { intros x.
    pose proof (set_nth_app (firstn k target) (skipn (S k) zeros) z x) as E.
    now rewrite Hlen in E. }
  unfold pick. destruct (p >? d); now rewrite Hset.
Qed.

Lemma b_min_loop_map (f g : A -> A) (V : nd A) :
  b_min_loop (nd_map f V) (nd_map g V) =
  Ok (map (fun v => pick (f v) (g v)) (flat V)).
Proof.
  unfold b_min_loop, size.
  assert (flat (nd_map f V) = map f (flat V)) as -> by now destruct V.
  assert (flat (nd_map g V) = map g (flat V)) as -> by now destruct V.
  rewrite b_min_rounds; rewrite ?length_map; auto.
  rewrite skipn_all2 by (rewrite !length_map; lia).
  rewrite firstn_all2
    by (rewrite length_map, length_combine, !length_map; lia).
  rewrite app_nil_r. f_equal.
  induction (flat V) as [|v l IH]; simpl; [reflexivity|now rewrite IH].
Qed.

Lemma reshape_like_map (f g : A -> A) (V : nd A) :
  reshape_like (nd_map f V) (map g (flat V)) = nd_map g V.
Proof. destruct V; reflexivity. Qed.

End BMinLoop.

Lemma for_each_emit {A : Type} (ws : list (warning A)) (w : world A) :
  for_each ws (fun x => emit (Warned x)) w =
  (World (coeffs w) (log w ++ map Warned ws), Ok tt).
Proof.
  revert w; induction ws as [|x ws IH]; intros [c l]; simpl.
  - now rewrite app_nil_r.
  - unfold bind, emit. simpl. rewrite IH. simpl. now rewrite <- app_assoc.
Qed.

Lemma nd_map_ext {A B : Type} (f g : A -> B) (v : nd A) :
  (forall x, f x = g x) -> nd_map f v = nd_map g v.
Proof.
  intros E. destruct v as [x|xs]; simpl; [now rewrite E|].
  f_equal. apply map_ext. exact E.
Qed.

Lemma nd_map_map {A B C : Type} (f : A -> B) (g : B -> C) (v : nd A) :
  nd_map g (nd_map f v) = nd_map (fun x => g (f x)) v.
Proof. destruct v; simpl; [reflexivity|now rewrite map_map]. Qed.

Section CoulombSpec.
Context `{Collaborators R}.
Local Open Scope R_scope.

(** On the reals the loop's choice is the maximum. *)
Lemma pick_Rmax (p d : R) : pick p d = Rmax p d.
Proof.
  unfold pick, Rmax. simpl.
  destruct (Rlt_dec d p), (Rle_dec p d); lra.
Qed.

Lemma Q2R_int (z : Z) : Q2R (z # 1) = IZR z.
Proof. unfold Q2R. simpl. lra. Qed.

(** C3.  For two particles whose mass and charge state resolve, and a
    velocity the relativity check lets through, [Coulomb_logarithm] returns
    [ln (b_max / b_min)] elementwise over the velocities, [b_max] being the
    Debye length at [(T, n_e)] and [b_min] the maximum of the deflection
    parameter and the de Broglie length for the reduced mass; without a
    velocity it uses the one number [V] that, for a temperature that is not
    negative, satisfies [m_r * V^2 = 3 * k_B * T]. *)
Theorem Coulomb_logarithm_spec (T n_e : R) (p1 p2 : string) (V : option (nd R))
  (m1 m2 Z1 Z2 : R) (ws : list (warning R)) (w : world R) :
  ion_mass p1 = Some m1 -> charge_state p1 = Some Z1 ->
  ion_mass p2 = Some m2 -> charge_state p2 = Some Z2 ->
  let m_r := m1 * m2 / (m1 + m2) in
  let q1 := Rabs (e * Z1) in
  let q2 := Rabs (e * Z2) in
  let V' := match V with
            | Some V => V
            | None => Scalar (sqrt (3 * k_B * T / m_r))
            end in
  _check_relativistic V' "Coulomb_logarithm" (lit 0.8) = (ws, None) ->
  let b_max := Debye_length T n_e in
  let b_perp := fun v => q1 * q2 / (4 * pi * eps0 * m_r * v ^ 2) in
  let b_deBroglie := fun v => hbar / (2 * m_r * v) in
  Coulomb_logarithm T n_e [p1; p2] V w =
    (World (coeffs w) (log w ++ map Warned ws),
     Ok (nd_map (fun v => ln (b_max / Rmax (b_perp v) (b_deBroglie v))) V'))
  /\
  (V = None -> 0 <= T -> 0 < k_B -> 0 < m_r ->
   exists v, V' = Scalar v /\ m_r * v ^ 2 = 3 * k_B * T).
Proof.
  intros Hm1 Hz1 Hm2 Hz2 m_r q1 q2 V' Hrel b_max b_perp b_deBroglie.
  split.
  - unfold Coulomb_logarithm, bind, ret, raise, lift.
    rewrite Hm1, Hz1, Hm2, Hz2.
    cbn [lit fadd fsub fmul fdiv fpow fabs fsqrt fln Arith_R Transc_R].
    rewrite !Q2R_int.
    fold m_r. fold q1. fold q2.
    replace (match V with
             | Some V0 => V0
             | None => Scalar (sqrt (3 * k_B * T / m_r))
             end) with V' by reflexivity.
    cbn [lit Arith_R] in Hrel. rewrite Hrel.
    rewrite for_each_emit.
    rewrite b_min_loop_map, reshape_like_map, nd_map_map.
    f_equal. f_equal. apply nd_map_ext. intros v.
    now rewrite pick_Rmax.
  - intros -> HT Hk Hm. exists (sqrt (3 * k_B * T / m_r)).
    split; [reflexivity|].
    simpl. rewrite Rmult_1_r, sqrt_sqrt.
    + field. lra.
    + apply Rmult_le_pos; [|apply Rlt_le, Rinv_0_lt_compat; exact Hm].
      apply Rmult_le_pos; lra.
Qed.

End CoulombSpec.

(** Electrons on protons at [T = 1], [n_e = 1], no velocity given. *)
Lemma Coulomb_logarithm_spec_witness :
  (exists v,
     Coulomb_logarithm (H1 := demo) 1%R 1%R ["e"; "p"]%string None (World [] []) =
       (World [] [], Ok (Scalar v))) /\
  (exists v, (1 * 1836 / (1 + 1836) * v ^ 2 = 3 * 1 * 1)%R).
Proof.
  assert (Q2R 1 = 1%R) as E1 by (unfold Q2R; simpl; lra).
  assert (Q2R 1836 = 1836%R) as E2 by (unfold Q2R; simpl; lra).
  destruct (Coulomb_logarithm_spec (H := demo) 1%R 1%R "e" "p" None
              (lit 1) (lit 1836) (lit (-1)) (lit 1) [] (World [] [])
              eq_refl eq_refl eq_refl eq_refl eq_refl)
    as [E Hv].
  split.
  - eexists. rewrite E. reflexivity.
  - cbn [lit Arith_R k_B demo] in Hv. rewrite E1, E2 in Hv.
    destruct Hv as [v [_ Hv]]; [reflexivity|lra|lra|lra|].
    exists v. exact Hv.
Defined.

(** ** Running the orchestrator *)

Section Runs.
Context {A : Type}.

Lemma bind_ok {X Y : Type} (m : M A X) (f : X -> M A Y) (w w' : world A) (x : X) :
  m w = (w', Ok x) -> bind m f w = f x w'.
Proof. unfold bind. now intros ->. Qed.

Lemma bind_err {X Y : Type} (m : M A X) (f : X -> M A Y) (w w' : world A)
  (ex : exn A) :
  m w = (w', Err ex) -> bind m f w = (w', Err ex).
Proof. unfold bind. now intros ->. Qed.

Lemma only_warnings_refl (w : world A) : only_warnings w w.
Proof. split; [reflexivity|]. exists []. simpl. now rewrite app_nil_r. Qed.

Lemma only_warnings_trans (w1 w2 w3 : world A) :
  only_warnings w1 w2 -> only_warnings w2 w3 -> only_warnings w1 w3.
Proof.
  intros [Hc [ws Hl]] [Hc' [ws' Hl']]. split; [congruence|].
  exists (ws ++ ws'). rewrite Hl', Hl, map_app. now rewrite app_assoc.
Qed.

Lemma quiet_ret {X : Type} (x : X) : quiet (@ret A X x).
Proof. intros w. apply only_warnings_refl. Qed.

Lemma quiet_raise {X : Type} (ex : exn A) : quiet (@raise A X ex).
Proof. intros w. apply only_warnings_refl. Qed.

Lemma quiet_lift {X : Type} (r : res A X) : quiet (lift r).
Proof. intros w. apply only_warnings_refl. Qed.

Lemma quiet_warned (x : warning A) : quiet (emit (Warned x)).
Proof.
  intros w. split; [reflexivity|]. exists [x]. reflexivity.
Qed.

Lemma quiet_bind {X Y : Type} (m : M A X) (f : X -> M A Y) :
  quiet m -> (forall x, quiet (f x)) -> quiet (bind m f).
Proof.
  intros Hm Hf w. unfold bind. specialize (Hm w).
  destruct (m w) as [w' [x|ex]]; simpl in *; [|exact Hm].
  eapply only_warnings_trans; [exact Hm|apply Hf].
Qed.

Lemma quiet_for_each {X : Type} (l : list X) (body : X -> M A unit) :
  (forall x, quiet (body x)) -> quiet (for_each l body).
Proof.
  intros Hb. induction l as [|x l IH]; simpl.
  - apply quiet_ret.
  - apply quiet_bind; auto.
Qed.

Lemma quiet_if {X : Type} (b : bool) (m1 m2 : M A X) :
  quiet m1 -> quiet m2 -> quiet (if b then m1 else m2).
Proof. now destruct b. Qed.

Lemma quiet_get_coeffs : quiet (@get_coeffs A).
Proof. intros w. apply only_warnings_refl. Qed.

End Runs.

Create HintDb quiet.

#[local] Hint Resolve quiet_ret quiet_raise quiet_lift quiet_warned
  quiet_get_coeffs : quiet.
#[local] Hint Extern 2 (quiet (bind _ _)) =>
  apply quiet_bind; [|intros] : quiet.
#[local] Hint Extern 2 (quiet (for_each _ _)) =>
  apply quiet_for_each; intros : quiet.
#[local] Hint Extern 2 (quiet (if _ then _ else _)) => apply quiet_if : quiet.
#[local] Hint Extern 3 (quiet (match ?x with _ => _ end)) => destruct x : quiet.

Section Stages.
Context {A : Type} `{Transc A} `{Collaborators A}.

Lemma quiet_Coulomb_logarithm (T n_e : A) (particles : list string)
  (V : option (nd A)) : quiet (Coulomb_logarithm T n_e particles V).
Proof.
  unfold Coulomb_logarithm.
  destruct particles as [|p0 [|p1 [|p2 l]]]; auto with quiet.
  apply quiet_bind; [destruct (ion_mass p0), (charge_state p0); auto with quiet|].
  intros [m0 c0].
  apply quiet_bind; [destruct (ion_mass p1), (charge_state p1); auto with quiet|].
  intros [m1 c1].
  destruct (_check_relativistic _ _ _) as [ws [ex|]]; auto 6 with quiet.
Qed.

Lemma quiet_item (v : nd A) : quiet (item v).
Proof. destruct v as [x|[|x [|y l]]]; simpl; auto with quiet. Qed.

Lemma quiet_resolve_coulomb_log (supplied : option A) (compute : M A (nd A)) :
  quiet compute -> quiet (resolve_coulomb_log supplied compute).
Proof.
  intros Hc. destruct supplied; simpl; auto with quiet.
  apply quiet_bind; [exact Hc|]. intros v. apply quiet_item.
Qed.

Lemma quiet_check_coulomb_log (name : string) (v : A) :
  quiet (check_coulomb_log name v).
Proof. unfold check_coulomb_log. auto 6 with quiet. Qed.

Lemma quiet_check_names (model field_orientation : string) :
  quiet (check_names (A := A) model field_orientation).
Proof. unfold check_names. auto 8 with quiet. Qed.

Lemma quiet_resolve_species (ion_particle : string) (Z : option A) :
  quiet (resolve_species ion_particle Z).
Proof.
  unfold resolve_species.
  apply quiet_bind; [destruct (ion_mass ion_particle); auto with quiet|].
  intros m. apply quiet_bind; [|auto with quiet].
  destruct Z as [z|]; [destruct (fltb z (lit 0))|
                       destruct (charge_state ion_particle)]; auto with quiet.
Qed.

End Stages.

Section Frames.
Context {A : Type}.

Lemma silent_bind {X Y : Type} (m : M A X) (f : X -> M A Y) :
  silent m -> (forall x, silent (f x)) -> silent (bind m f).
Proof.
  intros Hm Hf w. unfold bind. specialize (Hm w).
  destruct (m w) as [w' [x|ex]]; simpl in *; [|exact Hm].
  subst w'. apply Hf.
Qed.

Lemma silent_for_each {X : Type} (l : list X) (body : X -> M A unit) :
  (forall x, silent (body x)) -> silent (for_each l body).
Proof.
  intros Hb. induction l as [|x l IH]; simpl.
  - intros w. reflexivity.
  - apply silent_bind; auto.
Qed.

Lemma keeps_coeffs_bind {X Y : Type} (m : M A X) (f : X -> M A Y) :
  keeps_coeffs m -> (forall x, keeps_coeffs (f x)) -> keeps_coeffs (bind m f).
Proof.
  intros Hm Hf w. unfold bind. specialize (Hm w).
  destruct (m w) as [w' [x|ex]]; simpl in *; [|exact Hm].
  rewrite <- Hm. apply Hf.
Qed.

Lemma quiet_keeps_coeffs {X : Type} (m : M A X) : quiet m -> keeps_coeffs m.
Proof. intros Hq w. apply Hq. Qed.

Lemma keeps_coeffs_emit (ev : event A) : keeps_coeffs (emit ev).
Proof. intros w. reflexivity. Qed.

(** After the rounds [0 .. k-1] of the lower-casing loop the first [k] names
    are lower-cased; the remaining rounds lower-case the others. *)
Lemma lower_rounds (l : list string) (lg : list (event A)) (n k : nat) :
  k + n = List.length l ->
  for_each (seq k n) (fun coeff_idx =>
    l <~ get_coeffs ;;
    match nth_error l coeff_idx with
    | Some coeff => set_coeffs (set_nth l coeff_idx (lower coeff))
    | None => ret tt
    end) (World (map lower (firstn k l) ++ skipn k l) lg) =
  (World (map lower l) lg, Ok tt).
Proof.
  revert k; induction n as [|n IH]; intros k Hk.
  - simpl. unfold ret. rewrite firstn_all2, skipn_all2 by lia.
    now rewrite app_nil_r.
  - destruct (nth_error l k) as [c|] eqn:Ec;
      [|apply nth_error_None in Ec; lia].
    assert (List.length (map lower (firstn k l)) = k) as Hlen
      by (rewrite length_map; apply firstn_length_le; lia).
    cbn [seq for_each]. unfold bind at 1. unfold bind at 1.
    unfold get_coeffs at 1. cbn [coeffs].
    rewrite (skipn_cons_nth _ _ _ Ec).
    rewrite nth_error_app2 by lia. rewrite Hlen, Nat.sub_diag. cbn [nth_error].
    unfold set_coeffs. cbn [coeffs log].
    pose proof (set_nth_app (map lower (firstn k l)) (skipn (S k) l) c (lower c))
      as Hset.
    rewrite Hlen in Hset. rewrite Hset.
    replace (map lower (firstn k l) ++ lower c :: skipn (S k) l)
      with (map lower (firstn (S k) l) ++ skipn (S k) l).
    + apply IH. lia.
    + rewrite (firstn_snoc_nth _ _ _ Ec), map_app, <- app_assoc. reflexivity.
Qed.

(** The first loop of [classical_transport] writes the lower-cased names
    into the caller's list. *)
Lemma lower_in_place_run (w : world A) :
  lower_in_place w = (World (map lower (coeffs w)) (log w), Ok tt).
Proof.
  unfold lower_in_place, bind at 1, get_coeffs at 1.
  destruct w as [l lg]. cbn [coeffs log].
  now apply (lower_rounds l lg (List.length l) 0).
Qed.

End Frames.

(** ** C8: validation of the names *)

Lemma is_valid_fold (valids : list string) (x : string) (flag : bool) :
  fold_left (fun flag valid => if (valid =? x)%string then true else flag)
            valids flag =
  flag || existsb (fun valid => (valid =? x)%string) valids.
Proof.
  revert flag; induction valids as [|v l IH]; intros flag; simpl.
  - now rewrite orb_false_r.
  - rewrite IH. destruct (v =? x)%string, flag; reflexivity.
Qed.

(** The flag loop decides membership. *)
Lemma is_valid_In (valids : list string) (x : string) :
  is_valid valids x = true <-> In x valids.
Proof.
  unfold is_valid. rewrite is_valid_fold. simpl. rewrite existsb_exists.
  split.
  - intros [v [Hin Hv]]. apply String.eqb_eq in Hv. now subst.
  - intros Hin. exists x. split; [assumption|apply String.eqb_refl].
Qed.

Section Validation.
Context {A : Type} `{Transc A} `{Collaborators A}.

Lemma silent_check_names (model field_orientation : string) :
  silent (check_names (A := A) model field_orientation).
Proof.
  unfold check_names.
  apply silent_bind; [intros w; reflexivity|]. intros l.
  apply silent_bind.
  - apply silent_for_each. intros c w.
    destruct (is_valid valid_coeffs c); reflexivity.
  - intros _. apply silent_bind.
    + intros w. destruct (is_valid valid_models model); reflexivity.
    + intros _ w. destruct (is_valid valid_fields field_orientation);
        reflexivity.
Qed.

Lemma silent_resolve_species (ion_particle : string) (Z : option A) :
  silent (resolve_species ion_particle Z).
Proof.
  unfold resolve_species.
  apply silent_bind;
    [intros w; destruct (ion_mass ion_particle); reflexivity|].
  intros m. apply silent_bind; [|intros z w; reflexivity].
  intros w.
  destruct Z as [z|]; [destruct (fltb z (lit 0))|
                       destruct (charge_state ion_particle)]; reflexivity.
Qed.

(** Whatever the prelude returns, it leaves the lower-cased names in the
    caller's list and the log as it was. *)
Lemma prelude_world (ion_particle : string) (Z : option A)
  (model field_orientation : string) (w : world A) :
  fst (prelude ion_particle Z model field_orientation w) =
  World (map lower (coeffs w)) (log w).
Proof.
  unfold prelude. unfold bind at 1. rewrite lower_in_place_run.
  apply (silent_bind (check_names (lower model) (lower field_orientation))
                     (fun _ => resolve_species ion_particle Z)).
  - apply silent_check_names.
  - intros _. apply silent_resolve_species.
Qed.

Lemma valid_coeffs_loop (l : list string) (w : world A) :
  Forall (fun coeff => In coeff valid_coeffs) l ->
  for_each l (fun coeff =>
    if is_valid valid_coeffs coeff then ret tt
    else raise (Raise PhysicsError
                  [Txt "Unknown transport coefficient '"; Txt coeff; Txt "'"]))
    w = (w, Ok tt).
Proof.
  induction 1 as [|c l Hc Hl IH]; [reflexivity|].
  cbn [for_each]. apply is_valid_In in Hc.
  erewrite bind_ok; [exact IH|]. now rewrite Hc.
Qed.

(** The names the model check lets through are those of [valid_models]. *)
Lemma check_names_model (model field_orientation : string) (w : world A) :
  Forall (fun coeff => In coeff valid_coeffs) (coeffs w) ->
  check_names model field_orientation w =
  if is_valid valid_models model then
    if is_valid valid_fields field_orientation then (w, Ok tt)
    else (w, Err (Raise PhysicsError
                    [Txt "Unknown field orientation '"; Txt field_orientation;
                     Txt "'"]))
  else (w, Err (Raise PhysicsError
                  [Txt "Unknown transport model '"; Txt model; Txt "'"])).
Proof.
  intros Hc. unfold check_names. unfold bind at 1, get_coeffs at 1.
  erewrite bind_ok; [|apply valid_coeffs_loop; exact Hc].
  destruct (is_valid valid_models model).
  - erewrite bind_ok; [|reflexivity].
    destruct (is_valid valid_fields field_orientation); reflexivity.
  - erewrite bind_err; reflexivity.
Qed.

Lemma unknown_model_raises (T_e n_e T_i n_i : A) (ion_particle : string)
  (Z : option A) (B : A) (model field_orientation : string)
  (coulomb_log_ei V_ei coulomb_log_ii V_ii hall_e hall_i mu theta : option A)
  (w : world A) :
  Forall (fun coeff => In (lower coeff) valid_coeffs) (coeffs w) ->
  ~ In (lower model) valid_models ->
  classical_transport T_e n_e T_i n_i ion_particle Z B model field_orientation
    coulomb_log_ei V_ei coulomb_log_ii V_ii hall_e hall_i mu theta w =
  (World (map lower (coeffs w)) (log w),
   Err (Raise PhysicsError
          [Txt "Unknown transport model '"; Txt (lower model); Txt "'"])).
Proof.
  intros Hc Hm.
  assert (Forall (fun coeff => In coeff valid_coeffs)
                 (coeffs (World (map lower (coeffs w)) (log w)))) as Hc'
    by (cbn [coeffs]; now apply Forall_map).
  unfold classical_transport.
  apply bind_err. unfold prelude.
  erewrite bind_ok; [|apply lower_in_place_run].
  apply bind_err. rewrite (check_names_model _ _ _ Hc').
  destruct (is_valid valid_models (lower model)) eqn:E; [|reflexivity].
  apply is_valid_In in E. contradiction.
Qed.

(** C8, as the code has it.  The lower-cased model name is checked against
    [valid_models], four names that are the three implemented models with
    two spellings of Spitzer-Harm: the reserved name ["epperlein-haines"] is
    not among them.  With valid coefficient names, a model name outside the
    list makes [classical_transport] raise [PhysicsError] with the caller's
    list lower-cased and nothing logged: no collaborator was consulted and
    no coefficient evaluated; a name of the list passes the model check. *)
Theorem model_validation (T_e n_e T_i n_i : A) (ion_particle : string)
  (Z : option A) (B : A) (model field_orientation : string)
  (coulomb_log_ei V_ei coulomb_log_ii V_ii hall_e hall_i mu theta : option A)
  (w : world A) :
  Forall (fun coeff => In (lower coeff) valid_coeffs) (coeffs w) ->
  valid_models = ["braginskii"; "spitzer"; "spitzer-harm"; "ji-held"]%string /\
  (~ In (lower model) valid_models ->
   classical_transport T_e n_e T_i n_i ion_particle Z B model field_orientation
     coulomb_log_ei V_ei coulomb_log_ii V_ii hall_e hall_i mu theta w =
   (World (map lower (coeffs w)) (log w),
    Err (Raise PhysicsError
           [Txt "Unknown transport model '"; Txt (lower model); Txt "'"]))) /\
  (In (lower model) valid_models ->
   In (lower field_orientation) valid_fields ->
   check_names (lower model) (lower field_orientation)
     (World (map lower (coeffs w)) (log w)) =
   (World (map lower (coeffs w)) (log w), Ok tt)).
Proof.
  intros Hc. split; [reflexivity|].
  assert (Forall (fun coeff => In coeff valid_coeffs)
                 (coeffs (World (map lower (coeffs w)) (log w)))) as Hc'
    by (cbn [coeffs]; now apply Forall_map).
  split.
  - intros Hm. now apply unknown_model_raises.
  - intros Hm Hf. rewrite (check_names_model _ _ _ Hc').
    apply is_valid_In in Hm, Hf. now rewrite Hm, Hf.
Qed.

End Validation.

(** The reserved model name is refused by the model check. *)
Lemma epperlein_haines_rejected :
  ~ In (lower "Epperlein-Haines") valid_models /\
  classical_transport (H1 := demo) 1%R 1%R 1%R 1%R "p" None 0%R
    "Epperlein-Haines" "parallel" None None None None None None None None
    (World ["resistivity"%string] []) =
  (World ["resistivity"%string] [],
   Err (Raise PhysicsError
          [Txt "Unknown transport model '"; Txt "epperlein-haines"; Txt "'"])).
Proof.
  assert (~ In (lower "Epperlein-Haines") valid_models) as Hn.
  { simpl. intros [E|[E|[E|[E|[]]]]]; discriminate E. }
  split; [exact Hn|].
  apply (unknown_model_raises (H1 := demo) 1%R 1%R 1%R 1%R "p" None 0%R
           "Epperlein-Haines" "parallel" None None None None None None None None
           (World ["resistivity"%string] [])).
  - repeat constructor.
  - exact Hn.
Qed.

(** A model name outside the list, with a valid coefficient name. *)
Lemma model_validation_witness :
  valid_models = ["braginskii"; "spitzer"; "spitzer-harm"; "ji-held"]%string /\
  classical_transport (H1 := demo) 1%R 1%R 1%R 1%R "p" None 0%R
    "Chapman-Enskog" "parallel" None None None None None None None None
    (World ["Resistivity"%string] []) =
  (World ["resistivity"%string] [],
   Err (Raise PhysicsError
          [Txt "Unknown transport model '"; Txt "chapman-enskog"; Txt "'"])) /\
  check_names (A := R) "braginskii" "perp" (World ["resistivity"%string] []) =
  (World ["resistivity"%string] [], Ok tt).
Proof.
  destruct (model_validation (H1 := demo) 1%R 1%R 1%R 1%R "p" None 0%R
              "Chapman-Enskog" "parallel" None None None None None None None None
              (World ["Resistivity"%string] [])) as [E [Hrej _]].
  { repeat constructor. }
  destruct (model_validation (H1 := demo) 1%R 1%R 1%R 1%R "p" None 0%R
              "Braginskii" "PERP" None None None None None None None None
              (World ["Resistivity"%string] [])) as [_ [_ Hacc]].
  { repeat constructor. }
  split; [exact E|]. split.
  - apply Hrej. simpl. intros [F|[F|[F|[F|[]]]]]; discriminate F.
  - apply Hacc; simpl; auto.
Defined.

(** ** C9: what a call does to the caller's list *)

Section CallerList.
Context {A : Type} `{Transc A} `{Collaborators A}.

Lemma keeps_coeffs_call_each (funcs : string -> option (res A (nd A)))
  (l : list string) : keeps_coeffs (call_each funcs l).
Proof.
  induction l as [|c l IH]; simpl; [intros w; reflexivity|].
  destruct (funcs c) as [call|]; [|intros w; reflexivity].
  apply keeps_coeffs_bind; [apply keeps_coeffs_emit|]. intros _.
  apply keeps_coeffs_bind; [intros w; reflexivity|]. intros x.
  apply keeps_coeffs_bind; [exact IH|]. intros xs w. reflexivity.
Qed.

Lemma keeps_coeffs_evaluate (T_e n_e T_i n_i : A) (ion_particle : string)
  (m_i Z B : A) (model field_orientation : string)
  (coulomb_log_ei : A) (V_ei : option A) (coulomb_log_ii : A) (V_ii : option A)
  (hall_e hall_i mu theta : option A) :
  keeps_coeffs
    (evaluate_coefficients T_e n_e T_i n_i ion_particle m_i Z B model
       field_orientation coulomb_log_ei V_ei coulomb_log_ii V_ii
       hall_e hall_i mu theta).
Proof.
  unfold evaluate_coefficients.
  apply keeps_coeffs_bind; [intros w; reflexivity|]. intros l.
  apply keeps_coeffs_bind; [apply keeps_coeffs_call_each|].
  intros xs w. reflexivity.
Qed.

(** Whether the call returns or raises, the caller's list then holds the
    lower-cased names. *)
Lemma coeffs_after_call (T_e n_e T_i n_i : A) (ion_particle : string)
  (Z : option A) (B : A) (model field_orientation : string)
  (coulomb_log_ei V_ei coulomb_log_ii V_ii hall_e hall_i mu theta : option A)
  (w : world A) :
  coeffs (fst (classical_transport T_e n_e T_i n_i ion_particle Z B model
                 field_orientation coulomb_log_ei V_ei coulomb_log_ii V_ii
                 hall_e hall_i mu theta w)) =
  map lower (coeffs w).
Proof.
  unfold classical_transport. unfold bind at 1.
  pose proof (prelude_world ion_particle Z model field_orientation w) as Hw.
  destruct (prelude ion_particle Z model field_orientation w)
    as [w1 [[m_i Zr]|ex]]; simpl in Hw; subst w1; [|reflexivity].
  match goal with
  | |- coeffs (fst (?m ?w0)) = _ =>
      assert (keeps_coeffs m) as Hk; [|exact (Hk w0)]
  end.
  apply keeps_coeffs_bind.
  { apply quiet_keeps_coeffs, quiet_resolve_coulomb_log,
      quiet_Coulomb_logarithm. }
  intros lei. apply keeps_coeffs_bind.
  { apply quiet_keeps_coeffs, quiet_check_coulomb_log. }
  intros _. apply keeps_coeffs_bind.
  { apply quiet_keeps_coeffs, quiet_resolve_coulomb_log,
      quiet_Coulomb_logarithm. }
  intros lii. apply keeps_coeffs_bind.
  { apply quiet_keeps_coeffs, quiet_check_coulomb_log. }
  intros _. apply keeps_coeffs_evaluate.
Qed.

Lemma lower_fixed (l : list string) :
  Forall (fun coeff => lower coeff = coeff) l -> map lower l = l.
Proof. induction 1 as [|c l Hc Hl IH]; simpl; congruence. Qed.

(** What the assignment of line 392 does on every input.  The body of
    [classical_transport] replaces every name in the caller's [coeffs] list
    by its lower-case form, in place and in the same order, whether the body
    then returns or raises (a refusal of the arguments by the decorators,
    before the body runs, is outside the embedding); the list is unchanged
    when every name was lower-case already.  The model and the orientation
    are lower-cased by rebinding local names, lines 393-394, and a call
    cannot change the caller's strings and numbers. *)
Theorem coeffs_lowered_in_place (T_e n_e T_i n_i : A) (ion_particle : string)
  (Z : option A) (B : A) (model field_orientation : string)
  (coulomb_log_ei V_ei coulomb_log_ii V_ii hall_e hall_i mu theta : option A)
  (w : world A) :
  let after :=
    coeffs (fst (classical_transport T_e n_e T_i n_i ion_particle Z B model
                   field_orientation coulomb_log_ei V_ei coulomb_log_ii V_ii
                   hall_e hall_i mu theta w)) in
  after = map lower (coeffs w) /\
  (Forall (fun coeff => lower coeff = coeff) (coeffs w) -> after = coeffs w).
Proof.
  intros after. unfold after. rewrite coeffs_after_call. split; [reflexivity|].
  apply lower_fixed.
Qed.

End CallerList.

(** ** C4 and C10: the Coulomb logarithms *)

Section CoulombLogs.
Context {A : Type} `{Transc A} `{Collaborators A}.
Local Open Scope string_scope.
Local Open Scope num_scope.

Lemma bind_assoc {X Y W : Type} (m : M A X) (f : X -> M A Y) (g : Y -> M A W)
  (w : world A) :
  bind (bind m f) g w = bind m (fun x => bind (f x) g) w.
Proof. unfold bind. destruct (m w) as [w' [x|ex]]; reflexivity. Qed.

Lemma check_coulomb_log_run (name : string) (v : A) (w : world A) :
  check_coulomb_log name v w =
  (warned name v w,
   if v <? lit 1 then Err (less_than_1_error name v) else Ok tt).
Proof.
  unfold check_coulomb_log, warned, bind, emit, ret, raise.
  destruct (v <? lit 4), (v <? lit 1); reflexivity.
Qed.

Lemma only_warnings_warned (name : string) (v : A) (w : world A) :
  only_warnings w (warned name v w).
Proof.
  unfold warned. destruct (v <? lit 4); [|apply only_warnings_refl].
  split; [reflexivity|]. now exists [strong_coupling_warning name v].
Qed.

(** C4.  Once the prelude has passed, each Coulomb logarithm, supplied or
    computed, is checked as soon as it is resolved: below 4 a
    [PhysicsWarning] is logged and the run goes on; below 1 the call raises
    the [PhysicsError] at once.  When it does, the log holds nothing but
    warnings since the prelude: [evaluate_coefficients], which makes every
    call to a transport function, was not entered. *)
Theorem coulomb_log_validity (T_e n_e T_i n_i : A) (ion_particle : string)
  (Z : option A) (B : A) (model field_orientation : string)
  (coulomb_log_ei V_ei coulomb_log_ii V_ii hall_e hall_i mu theta : option A)
  (w w1 w2 : world A) (m_i Zr lei : A) :
  prelude ion_particle Z model field_orientation w = (w1, Ok (m_i, Zr)) ->
  resolve_coulomb_log coulomb_log_ei
    (Coulomb_logarithm T_e n_e ["e"; ion_particle] (option_map Scalar V_ei)) w1 =
    (w2, Ok lei) ->
  let run :=
    classical_transport T_e n_e T_i n_i ion_particle Z B model field_orientation
      coulomb_log_ei V_ei coulomb_log_ii V_ii hall_e hall_i mu theta w in
  let w3 := warned "coulomb_log_ei" lei w2 in
  ((lei <? lit 4) = true ->
   log w3 =
   (log w2 ++ [Warned (strong_coupling_warning "coulomb_log_ei" lei)])%list) /\
  ((lei <? lit 1) = true ->
   run = (w3, Err (less_than_1_error "coulomb_log_ei" lei)) /\
   only_warnings w1 w3) /\
  ((lei <? lit 1) = false ->
   forall (w4 : world A) (lii : A),
     resolve_coulomb_log coulomb_log_ii
       (Coulomb_logarithm T_i n_e [ion_particle; ion_particle]
          (option_map Scalar V_ii)) w3 = (w4, Ok lii) ->
     let w5 := warned "coulomb_log_ii" lii w4 in
     ((lii <? lit 4) = true ->
      log w5 =
      (log w4 ++ [Warned (strong_coupling_warning "coulomb_log_ii" lii)])%list) /\
     ((lii <? lit 1) = true ->
      run = (w5, Err (less_than_1_error "coulomb_log_ii" lii)) /\
      only_warnings w1 w5) /\
     ((lii <? lit 1) = false ->
      run = evaluate_coefficients T_e n_e T_i n_i ion_particle m_i Zr B
              (lower model) (lower field_orientation) lei V_ei lii V_ii
              hall_e hall_i mu theta w5)).
Proof.
  intros Hpre Hei run w3.
  assert (only_warnings w1 w2) as H12.
  { pose proof (quiet_resolve_coulomb_log coulomb_log_ei _
                  (quiet_Coulomb_logarithm T_e n_e ["e"; ion_particle]
                     (option_map Scalar V_ei)) w1) as Hq.
    now rewrite Hei in Hq. }
  assert (only_warnings w1 w3) as H13.
  { eapply only_warnings_trans; [exact H12|apply only_warnings_warned]. }
  assert (run =
          bind (check_coulomb_log "coulomb_log_ei" lei) (fun _ =>
            coulomb_log_ii <~
              resolve_coulomb_log coulomb_log_ii
                (Coulomb_logarithm T_i n_e [ion_particle; ion_particle]
                   (option_map Scalar V_ii)) ;;
            check_coulomb_log "coulomb_log_ii" coulomb_log_ii >>
            evaluate_coefficients T_e n_e T_i n_i ion_particle m_i Zr B
              (lower model) (lower field_orientation) lei V_ei
              coulomb_log_ii V_ii hall_e hall_i mu theta) w2) as Hrun.
  { unfold run, classical_transport.
    erewrite bind_ok; [|exact Hpre]. cbv iota beta zeta.
    erewrite bind_ok; [|exact Hei]. reflexivity. }
  split; [|split].
  - intros E. unfold w3, warned. now rewrite E.
  - intros E1. split; [|exact H13].
    rewrite Hrun. erewrite bind_err; [reflexivity|].
    rewrite check_coulomb_log_run. now rewrite E1.
  - intros E1 w4 lii Hii w5.
    assert (only_warnings w1 w5) as H15.
    { pose proof (quiet_resolve_coulomb_log coulomb_log_ii _
                    (quiet_Coulomb_logarithm T_i n_e
                       [ion_particle; ion_particle]
                       (option_map Scalar V_ii)) w3) as Hq.
      rewrite Hii in Hq.
      eapply only_warnings_trans; [exact H13|].
      eapply only_warnings_trans; [exact Hq|apply only_warnings_warned]. }
    assert (run =
            bind (check_coulomb_log "coulomb_log_ii" lii) (fun _ =>
              evaluate_coefficients T_e n_e T_i n_i ion_particle m_i Zr B
                (lower model) (lower field_orientation) lei V_ei
                lii V_ii hall_e hall_i mu theta) w4) as Hrun'.
    { rewrite Hrun. erewrite bind_ok;
        [|rewrite check_coulomb_log_run, E1; reflexivity].
      fold w3. erewrite bind_ok; [|exact Hii]. reflexivity. }
    split; [|split].
    + intros E. unfold w5, warned. now rewrite E.
    + intros E2. split; [|exact H15].
      rewrite Hrun'. erewrite bind_err; [reflexivity|].
      rewrite check_coulomb_log_run. now rewrite E2.
    + intros E2. rewrite Hrun'. erewrite bind_ok; [reflexivity|].
      rewrite check_coulomb_log_run. now rewrite E2.
Qed.

End CoulombLogs.

Section IonIonLogarithm.
Context {A : Type} `{Transc A} `{Collaborators A}.
Local Open Scope string_scope.
Local Open Scope num_scope.

(** The last component of what [evaluate_coefficients] returns is the
    ion-ion logarithm it was given. *)
Lemma evaluate_coefficients_ii (T_e n_e T_i n_i : A) (ion_particle : string)
  (m_i Z B : A) (model field_orientation : string)
  (coulomb_log_ei : A) (V_ei : option A) (coulomb_log_ii : A) (V_ii : option A)
  (hall_e hall_i mu theta : option A) (w w' : world A)
  (tc : list (nd A)) (he hi a b : A) :
  evaluate_coefficients T_e n_e T_i n_i ion_particle m_i Z B model
    field_orientation coulomb_log_ei V_ei coulomb_log_ii V_ii
    hall_e hall_i mu theta w = (w', Ok (tc, he, hi, a, b)) ->
  a = coulomb_log_ei /\ b = coulomb_log_ii.
Proof.
  unfold evaluate_coefficients, bind, get_coeffs, ret.
  destruct (call_each _ _ _) as [w'' [xs|ex]]; [|discriminate].
  intros E. injection E as _ _ _ _ <- <-. split; reflexivity.
Qed.

(** C10.  When [coulomb_log_ii] is not supplied and the run has come past
    the electron-ion logarithm, the call continues as: compute
    [Coulomb_logarithm] at the ion temperature [T_i], the electron density
    [n_e] and the pair [(ion_particle, ion_particle)] with [V_ii], check the
    value, and evaluate the coefficients with it.  So the ion-ion logarithm
    a successful call returns is the value of that very computation. *)
Theorem coulomb_log_ii_computed (T_e n_e T_i n_i : A) (ion_particle : string)
  (Z : option A) (B : A) (model field_orientation : string)
  (coulomb_log_ei V_ei V_ii hall_e hall_i mu theta : option A)
  (w w1 w2 w3 : world A) (m_i Zr lei : A) :
  prelude ion_particle Z model field_orientation w = (w1, Ok (m_i, Zr)) ->
  resolve_coulomb_log coulomb_log_ei
    (Coulomb_logarithm T_e n_e ["e"; ion_particle] (option_map Scalar V_ei)) w1 =
    (w2, Ok lei) ->
  check_coulomb_log "coulomb_log_ei" lei w2 = (w3, Ok tt) ->
  let run :=
    classical_transport T_e n_e T_i n_i ion_particle Z B model field_orientation
      coulomb_log_ei V_ei None V_ii hall_e hall_i mu theta w in
  run =
    (v <~ Coulomb_logarithm T_i n_e [ion_particle; ion_particle]
            (option_map Scalar V_ii) ;;
     coulomb_log_ii <~ item v ;;
     check_coulomb_log "coulomb_log_ii" coulomb_log_ii >>
     evaluate_coefficients T_e n_e T_i n_i ion_particle m_i Zr B
       (lower model) (lower field_orientation) lei V_ei coulomb_log_ii V_ii
       hall_e hall_i mu theta) w3 /\
  forall (w' : world A) (tc : list (nd A)) (he hi a b : A),
    run = (w', Ok (tc, he, hi, a, b)) ->
    exists (w4 : world A) (v : nd A),
      Coulomb_logarithm T_i n_e [ion_particle; ion_particle]
        (option_map Scalar V_ii) w3 = (w4, Ok v) /\
      item v w4 = (w4, Ok b).
Proof.
  intros Hpre Hei Hck run.
  assert (run =
    (v <~ Coulomb_logarithm T_i n_e [ion_particle; ion_particle]
            (option_map Scalar V_ii) ;;
     coulomb_log_ii <~ item v ;;
     check_coulomb_log "coulomb_log_ii" coulomb_log_ii >>
     evaluate_coefficients T_e n_e T_i n_i ion_particle m_i Zr B
       (lower model) (lower field_orientation) lei V_ei coulomb_log_ii V_ii
       hall_e hall_i mu theta) w3) as Hrun.
  { unfold run, classical_transport.
    erewrite bind_ok; [|exact Hpre]. cbv iota beta zeta.
    erewrite bind_ok; [|exact Hei].
    erewrite bind_ok; [|exact Hck].
    unfold resolve_coulomb_log. apply bind_assoc. }
  split; [exact Hrun|].
  intros w' tc he hi a b Hok. rewrite Hrun in Hok. unfold bind at 1 in Hok.
  destruct (Coulomb_logarithm T_i n_e [ion_particle; ion_particle]
              (option_map Scalar V_ii) w3) as [w4 [v|ex]]; [|discriminate].
  exists w4, v. split; [reflexivity|].
  unfold bind at 1 in Hok.
  assert (fst (item v w4) = w4) as Hw
    by (destruct v as [x|[|x [|y l]]]; reflexivity).
  destruct (item v w4) as [w5 [lii|ex]]; [|discriminate].
  simpl in Hw. subst w5. unfold bind at 1 in Hok.
  destruct (check_coulomb_log "coulomb_log_ii" lii w4) as [w6 [[]|ex]];
    [|discriminate].
  apply evaluate_coefficients_ii in Hok as [_ ->]. reflexivity.
Qed.

End IonIonLogarithm.

(** ** Deciding comparisons of literals on the reals *)

Lemma fltb_lit (a b : Q) :
  fltb (A := R) (lit a) (lit b) = negb (Qle_bool b a).
Proof.
  cbn [fltb lit Arith_R].
  destruct (Rlt_dec (Q2R a) (Q2R b)) as [L|L].
  - apply Rlt_Qlt in L. destruct (Qle_bool b a) eqn:E; [|reflexivity].
    apply Qle_bool_iff in E. exfalso. exact (Qlt_not_le _ _ L E).
  - destruct (Qle_bool b a) eqn:E; [reflexivity|].
    exfalso. apply L, Qlt_Rlt, Qnot_le_lt. intros F.
    apply Qle_bool_iff in F. congruence.
Qed.

Lemma feqb_lit (a b : Q) :
  feqb (A := R) (lit a) (lit b) = Qeq_bool a b.
Proof.
  cbn [feqb lit Arith_R].
  destruct (Req_dec_T (Q2R a) (Q2R b)) as [E|E].
  - apply eqR_Qeq in E. symmetry. now apply Qeq_bool_iff.
  - destruct (Qeq_bool a b) eqn:F; [|reflexivity].
    apply Qeq_bool_iff, Qeq_eqR in F. contradiction.
Qed.

(** An electron-ion logarithm of 0.5 forced by the caller: the warning, then
    the error.  Forced logarithms of 10 and 2: one warning, and the run goes
    on to the coefficients. *)
Lemma coulomb_log_validity_witness :
  classical_transport (H1 := demo) 1%R 1%R 1%R 1%R "p" None 0%R
    "Braginskii" "parallel" (Some (lit 0.5)) None None None None None None None
    (World ["resistivity"%string] []) =
  (World ["resistivity"%string]
     [Warned (strong_coupling_warning "coulomb_log_ei" (lit 0.5))],
   Err (less_than_1_error "coulomb_log_ei" (lit 0.5))) /\
  classical_transport (H1 := demo) 1%R 1%R 1%R 1%R "p" None 0%R
    "Braginskii" "parallel" (Some (lit 10)) None (Some (lit 2)) None
    None None None None (World ["resistivity"%string] []) =
  evaluate_coefficients (H1 := demo) 1%R 1%R 1%R 1%R "p" (lit 1836) (lit 1) 0%R
    "braginskii" "parallel" (lit 10) None (lit 2) None None None None None
    (World ["resistivity"%string]
       [Warned (strong_coupling_warning "coulomb_log_ii" (lit 2))]).
Proof.
  split.
  - destruct (coulomb_log_validity (H1 := demo) 1%R 1%R 1%R 1%R "p" None 0%R
                "Braginskii" "parallel" (Some (lit 0.5)) None None None
                None None None None
                (World ["resistivity"%string] [])
                (World ["resistivity"%string] [])
                (World ["resistivity"%string] [])
                (lit 1836) (lit 1) (lit 0.5) eq_refl eq_refl) as [_ [Herr _]].
    destruct Herr as [Herr _]; [now rewrite fltb_lit|].
    rewrite Herr. unfold warned. now rewrite fltb_lit.
  - destruct (coulomb_log_validity (H1 := demo) 1%R 1%R 1%R 1%R "p" None 0%R
                "Braginskii" "parallel" (Some (lit 10)) None (Some (lit 2)) None
                None None None None
                (World ["resistivity"%string] [])
                (World ["resistivity"%string] [])
                (World ["resistivity"%string] [])
                (lit 1836) (lit 1) (lit 10) eq_refl eq_refl) as [_ [_ Hgo]].
    assert (warned "coulomb_log_ei" (lit 10) (World ["resistivity"%string] []) =
            World (A := R) ["resistivity"%string] []) as Ew
      by (unfold warned; now rewrite fltb_lit).
    destruct (Hgo (ltac:(now rewrite fltb_lit))
                  (World ["resistivity"%string] []) (lit 2))
      as [_ [_ Hrun]].
    + now rewrite Ew.
    + rewrite Hrun by now rewrite fltb_lit.
      unfold warned. now rewrite fltb_lit.
Defined.

(** A forced electron-ion logarithm of 10 and no ion-ion logarithm: the run
    computes it from [T_i = 3], [n_e = 5] (not [n_i = 7]) and the pair
    [(p, p)]. *)
Lemma coulomb_log_ii_computed_witness :
  classical_transport (H1 := demo) 2%R 5%R 3%R 7%R "p" None 0%R
    "Braginskii" "parallel" (Some (lit 10)) None None None None None None None
    (World ["resistivity"%string] []) =
  (v <~ Coulomb_logarithm (H1 := demo) 3%R 5%R ["p"; "p"]%string None ;;
   coulomb_log_ii <~ item v ;;
   check_coulomb_log "coulomb_log_ii" coulomb_log_ii >>
   evaluate_coefficients (H1 := demo) 2%R 5%R 3%R 7%R "p" (lit 1836) (lit 1) 0%R
     "braginskii" "parallel" (lit 10) None coulomb_log_ii None
     None None None None) (World ["resistivity"%string] []).
Proof.
  apply (coulomb_log_ii_computed (H1 := demo) 2%R 5%R 3%R 7%R "p" None 0%R
           "Braginskii" "parallel" (Some (lit 10)) None None None None None None
           (World ["resistivity"%string] [])
           (World ["resistivity"%string] [])
           (World ["resistivity"%string] [])
           (World ["resistivity"%string] [])
           (lit 1836) (lit 1) (lit 10) eq_refl eq_refl).
  rewrite check_coulomb_log_run. unfold warned. now rewrite !fltb_lit.
Defined.

(** ** C5: orientation "all" *)

Section AllOrientations.
Context {A : Type} `{Transc A}.
Local Open Scope string_scope.

Ltac triple_found := left; do 3 eexists; repeat split; reflexivity.

Ltac triple_by_rows E :=
  match type of E with
  | check_Z _ _ _ = Ok ?idx =>
      let Hlt := fresh "Hlt" in
      pose proof (check_Z_in_range _ _ _ _ E) as Hlt; simpl in Hlt;
      destruct idx as [|[|[|[|[|?]]]]];
      first [exfalso; lia | triple_found]
  | check_Z _ _ _ = Err ?ex =>
      right; exists ex; repeat split; reflexivity
  end.

Lemma tc_e_braginskii_all (hall Z : A) :
  all_is_triple (nondim_tc_e_braginskii hall Z).
Proof.
  unfold all_is_triple, nondim_tc_e_braginskii.
  destruct (check_Z braginskii_allowed_Z Z "nondim_tc_e_braginskii")
    as [idx|ex] eqn:E; triple_by_rows E.
Qed.

Lemma tc_i_braginskii_all (hall : A) :
  all_is_triple (nondim_tc_i_braginskii hall).
Proof. left. do 3 eexists. repeat split; reflexivity. Qed.

Lemma resist_braginskii_all (hall Z : A) :
  all_is_triple (nondim_resist_braginskii hall Z).
Proof.
  unfold all_is_triple, nondim_resist_braginskii.
  destruct (check_Z braginskii_allowed_Z Z "nondim_resist_braginskii")
    as [idx|ex] eqn:E; triple_by_rows E.
Qed.

Lemma tec_braginskii_all (hall Z : A) :
  all_is_triple (nondim_tec_braginskii hall Z).
Proof.
  unfold all_is_triple, nondim_tec_braginskii.
  destruct (check_Z braginskii_allowed_Z Z "nondim_tec_braginskii")
    as [idx|ex] eqn:E; triple_by_rows E.
Qed.

Lemma tc_e_ji_held_all (hall Z : A) :
  all_is_triple (nondim_tc_e_ji_held hall Z).
Proof.
  unfold all_is_triple, nondim_tc_e_ji_held.
  destruct (check_Z ji_held_allowed_Z Z "nondim_tc_e_ji_held")
    as [idx|ex] eqn:E; triple_by_rows E.
Qed.

Lemma resist_ji_held_all (hall Z : A) :
  all_is_triple (nondim_resist_ji_held hall Z).
Proof.
  unfold all_is_triple, nondim_resist_ji_held.
  destruct (check_Z ji_held_allowed_Z Z "nondim_resist_ji_held")
    as [idx|ex] eqn:E; triple_by_rows E.
Qed.

Lemma tec_ji_held_all (hall Z : A) :
  all_is_triple (nondim_tec_ji_held hall Z).
Proof.
  unfold all_is_triple, nondim_tec_ji_held.
  destruct (check_Z ji_held_allowed_Z Z "nondim_tec_ji_held")
    as [idx|ex] eqn:E; triple_by_rows E.
Qed.

Lemma tc_i_ji_held_all (hall Z mu theta : A) :
  all_is_triple (nondim_tc_i_ji_held hall Z mu theta).
Proof. left. do 3 eexists. repeat split; reflexivity. Qed.

End AllOrientations.

Section AllOrientationsDispatch.
Context {A : Type} `{Transc A} `{Collaborators A}.
Local Open Scope string_scope.

Lemma all_is_triple_err (ex : exn A) : all_is_triple (fun _ => Err ex).
Proof. right. exists ex. repeat split; reflexivity. Qed.

(** C5, as the code has it.  Under the Braginskii and the Ji-Held model the
    thermal conductivity (of either species), the resistivity and the
    thermoelectric conductivity requested with ["all"] are the 3-element
    array of the parallel, perpendicular and cross results for the same
    inputs (or all requests raise the same exception).  Under any other
    model name, Spitzer-Harm included, these coefficients do not depend on
    the orientation: ["all"] gives the same scalar as any other request.
    The viscosity never depends on the orientation. *)
Theorem all_orientation_triple (hall Z : A) (particle model : string)
  (mu theta : option A) :
  (model = "braginskii" \/ model = "ji-held" ->
   all_is_triple (fun field_orientation =>
     nondim_thermal_conductivity hall Z particle model field_orientation
       mu theta) /\
   all_is_triple (nondim_resisitivity hall Z particle model) /\
   all_is_triple (nondim_te_conductivity hall Z particle model)) /\
  (model <> "braginskii" -> model <> "ji-held" ->
   ignores_orientation (fun field_orientation =>
     nondim_thermal_conductivity hall Z particle model field_orientation
       mu theta) /\
   ignores_orientation (nondim_resisitivity hall Z particle model) /\
   ignores_orientation (nondim_te_conductivity hall Z particle model)) /\
  ignores_orientation (fun field_orientation =>
    nondim_viscosity hall Z particle model field_orientation mu theta).
Proof.
  split; [|split].
  - intros [-> | ->];
      unfold nondim_thermal_conductivity, nondim_resisitivity,
        nondim_te_conductivity; cbn [String.eqb Ascii.eqb Bool.eqb orb].
    + split; [|split].
      * destruct (_is_electron particle).
        -- apply tc_e_braginskii_all.
        -- apply tc_i_braginskii_all.
      * apply resist_braginskii_all.
      * apply tec_braginskii_all.
    + split; [|split].
      * destruct (_is_electron particle).
        -- apply tc_e_ji_held_all.
        -- destruct mu as [mu'|]; [|apply all_is_triple_err].
           destruct theta as [theta'|]; [|apply all_is_triple_err].
           apply tc_i_ji_held_all.
      * apply resist_ji_held_all.
      * apply tec_ji_held_all.
  - intros Hb Hj. apply String.eqb_neq in Hb, Hj.
    unfold ignores_orientation, nondim_thermal_conductivity,
      nondim_resisitivity, nondim_te_conductivity.
    rewrite Hb, Hj. repeat split; reflexivity.
  - intros fo fo'. reflexivity.
Qed.

End AllOrientationsDispatch.

(** The row of Z = 1 in the Spitzer-Harm table, on the reals. *)
Lemma spitzer_row_of_1 (caller : string) :
  check_Z (A := R)
    [KNum (lit 1); KNum (lit 2); KNum (lit 4); KNum (lit 16); KInf]
    (lit 1) caller = Ok 0.
Proof.
  unfold check_Z, find_arbitrary, find_Z, enumerate.
  cbn [List.length seq combine fold_left fst snd is_arbitrary Z_eq].
  rewrite !feqb_lit. reflexivity.
Qed.

(** Under Spitzer-Harm a request for ["all"] returns one number, the same as
    a request for ["parallel"], and no array. *)
Lemma spitzer_all_is_a_scalar :
  exists x : R,
    nondim_te_conductivity (A := R) (lit 0) (lit 1) "e" "spitzer" "all" =
      Ok (Some (Scalar x)) /\
    nondim_te_conductivity (A := R) (lit 0) (lit 1) "e" "spitzer"
      "parallel" = Ok (Some (Scalar x)) /\
    forall par perp cross : R,
      nondim_te_conductivity (A := R) (lit 0) (lit 1) "e" "spitzer" "all" <>
      Ok (Some (Array [par; perp; cross])).
Proof.
  unfold nondim_te_conductivity. cbn [String.eqb Ascii.eqb Bool.eqb orb].
  unfold nondim_tec_spitzer, get_spitzer_harm_coeffs.
  rewrite spitzer_row_of_1. cbn [rbind getitem nth_error].
  eexists. repeat split. discriminate.
Qed.

(** The Braginskii resistivity of an electron and the Spitzer-Harm one. *)
Lemma all_orientation_triple_witness :
  all_is_triple (nondim_resisitivity (A := R) (lit 2) (lit 1) "e" "braginskii") /\
  ignores_orientation
    (nondim_resisitivity (A := R) (lit 2) (lit 1) "e" "spitzer").
Proof.
  split.
  - apply (all_orientation_triple (H1 := demo) (lit 2) (lit 1) "e" "braginskii"
             None None).
    now left.
  - apply (all_orientation_triple (H1 := demo) (lit 2) (lit 1) "e" "spitzer"
             None None); discriminate.
Defined.

(** ** C6: combinations without an evaluator *)

Section Placeholder.
Context {A : Type} `{Transc A} `{Collaborators A}.
Local Open Scope string_scope.

(** C6.  A dispatch function asked for a combination it has no evaluator
    for returns the number 1 and raises nothing: the viscosity under a model
    other than Braginskii and Ji-Held, the ion thermal conductivity under
    such a model (Spitzer-Harm for one), and the electron thermal
    conductivity, resistivity and thermoelectric conductivity under a model
    that is none of the four names either. *)
Theorem unsupported_combination_placeholder (hall Z : A)
  (particle model field_orientation : string) (mu theta : option A) :
  model <> "braginskii" -> model <> "ji-held" ->
  nondim_viscosity hall Z particle model field_orientation mu theta =
    Ok (Some (Scalar (lit 1))) /\
  (_is_electron particle = false ->
   nondim_thermal_conductivity hall Z particle model field_orientation
     mu theta = Ok (Some (Scalar (lit 1)))) /\
  (model <> "spitzer-harm" -> model <> "spitzer" ->
   nondim_thermal_conductivity hall Z particle model field_orientation
     mu theta = Ok (Some (Scalar (lit 1))) /\
   nondim_resisitivity hall Z particle model field_orientation =
     Ok (Some (Scalar (lit 1))) /\
   nondim_te_conductivity hall Z particle model field_orientation =
     Ok (Some (Scalar (lit 1)))).
Proof.
  intros Hb Hj. apply String.eqb_neq in Hb, Hj.
  unfold nondim_viscosity, nondim_thermal_conductivity, nondim_resisitivity,
    nondim_te_conductivity.
  rewrite Hb, Hj. split; [|split].
  - destruct (_is_electron particle); reflexivity.
  - now intros ->.
  - intros Hs Hs'. apply String.eqb_neq in Hs, Hs'. rewrite Hs, Hs'.
    cbn [orb]. destruct (_is_electron particle); repeat split; reflexivity.
Qed.

End Placeholder.

(** The ion thermal conductivity and the ion viscosity of protons under
    Spitzer-Harm. *)
Lemma unsupported_combination_placeholder_witness :
  nondim_viscosity (H1 := demo) (lit 2) (lit 1) "p" "spitzer" "parallel"
    None None = Ok (Some (Scalar (lit 1))) /\
  nondim_thermal_conductivity (H1 := demo) (lit 2) (lit 1) "p" "spitzer"
    "parallel" None None = Ok (Some (Scalar (lit 1))).
Proof.
  destruct (unsupported_combination_placeholder (H1 := demo) (lit 2) (lit 1)
              "p" "spitzer" "parallel" None None) as [Hv [Hk _]];
    try discriminate.
  split; [exact Hv|]. now apply Hk.
Defined.

(** ** C7: the viscosity in physical units *)

Section Viscosity.
Context `{Collaborators R}.
Local Open Scope R_scope.

(** [np.isclose(hall, 0, rtol=1e-8)] on the reals: [|hall| <= 1e-8], the
    default absolute tolerance. *)
Lemma isclose_zero (hall : R) :
  isclose hall (lit 0) (lit 1e-8) = true <-> Rabs hall <= Q2R 1e-8.
Proof.
  unfold isclose. cbn [fleb fabs fsub fadd fmul lit Arith_R].
  replace (Q2R 0) with 0 by (unfold Q2R; simpl; lra).
  rewrite Rabs_R0, Rminus_0_r, Rmult_0_r, Rplus_0_r.
  destruct (Rle_dec (Rabs hall) (Q2R 1e-8)); split; intros E;
    try reflexivity; try assumption; try discriminate E; contradiction.
Qed.

(** C7.  Given the five nondimensional components, the ion and the electron
    viscosity multiply each by [n * k_B * T * tau]; components 1 and 2 are
    then divided by the square of the Hall parameter and components 3 and
    4 by the Hall parameter, unless the Hall parameter is within 1e-8 of
    zero, where the result is the undivided products, those of the branch
    the source writes for that case. *)
Theorem viscosity_dimensionalization (T n : R) (ion_particle e_particle : string)
  (Z B : R) (model field_orientation : string) (coulomb_log : R)
  (V : option R) (hall : R) (mu theta : option R)
  (eta_hat_0 eta_hat_1 eta_hat_2 eta_hat_3 eta_hat_4 : R) :
  let eta_hat := [eta_hat_0; eta_hat_1; eta_hat_2; eta_hat_3; eta_hat_4] in
  let tau_i := 1 / ion_ion_collision_rate T n ion_particle coulomb_log V in
  let tau_e := 1 / electron_ion_collision_rate T n ion_particle coulomb_log V in
  (nondim_viscosity hall Z ion_particle model field_orientation mu theta =
     Ok (Some (Array eta_hat)) ->
   (Rabs hall <= Q2R 1e-8 ->
    ion_viscosity T n ion_particle Z B model field_orientation coulomb_log V
      hall mu theta = Ok (Array (undivided eta_hat (n * k_B * T * tau_i)))) /\
   (Q2R 1e-8 < Rabs hall ->
    ion_viscosity T n ion_particle Z B model field_orientation coulomb_log V
      hall mu theta = Ok (Array (divided eta_hat (n * k_B * T * tau_i) hall))))
  /\
  (nondim_viscosity hall Z e_particle model field_orientation mu theta =
     Ok (Some (Array eta_hat)) ->
   (Rabs hall <= Q2R 1e-8 ->
    electron_viscosity T n ion_particle e_particle Z B model field_orientation
      coulomb_log V hall mu theta =
    Ok (Array (undivided eta_hat (n * k_B * T * tau_e)))) /\
   (Q2R 1e-8 < Rabs hall ->
    electron_viscosity T n ion_particle e_particle Z B model field_orientation
      coulomb_log V hall mu theta =
    Ok (Array (divided eta_hat (n * k_B * T * tau_e) hall)))).
Proof.
  intros eta_hat tau_i tau_e.
  assert (Q2R 1 = 1) as E1 by (unfold Q2R; simpl; lra).
  split; intros Hhat; (split; intros Hh).
  - apply isclose_zero in Hh.
    unfold ion_viscosity. rewrite Hhat. cbn [rbind subscript nth_error].
    rewrite Hh. cbn [lit fmul fdiv Arith_R]. rewrite E1. reflexivity.
  - assert (isclose hall (lit 0) (lit 1e-8) = false) as Hn.
    { destruct (isclose hall (lit 0) (lit 1e-8)) eqn:E; [|reflexivity].
      apply isclose_zero in E. lra. }
    unfold ion_viscosity. rewrite Hhat. cbn [rbind subscript nth_error].
    rewrite Hn. cbn [lit fmul fdiv fpow Arith_R]. rewrite E1. reflexivity.
  - apply isclose_zero in Hh.
    unfold electron_viscosity. rewrite Hhat. cbn [rbind subscript nth_error].
    rewrite Hh. cbn [lit fmul fdiv Arith_R]. rewrite E1. reflexivity.
  - assert (isclose hall (lit 0) (lit 1e-8) = false) as Hn.
    { destruct (isclose hall (lit 0) (lit 1e-8)) eqn:E; [|reflexivity].
      apply isclose_zero in E. lra. }
    unfold electron_viscosity. rewrite Hhat. cbn [rbind subscript nth_error].
    rewrite Hn. cbn [lit fmul fdiv fpow Arith_R]. rewrite E1. reflexivity.
Qed.

End Viscosity.

(** Protons under Braginskii: Hall parameter 0, components undivided; Hall
    parameter 2, components divided. *)
Lemma viscosity_dimensionalization_witness :
  (exists eta_hat : list R,
     nondim_viscosity (H1 := demo) (lit 0) (lit 1) "p" "braginskii" "parallel"
       None None = Ok (Some (Array eta_hat)) /\
     ion_viscosity (H1 := demo) 1%R 1%R "p" (lit 1) 0%R "braginskii" "parallel"
       (lit 10) None (lit 0) None None =
     Ok (Array (undivided eta_hat (1 * 1 * 1 * (1 / 1))%R))) /\
  (exists eta_hat : list R,
     nondim_viscosity (H1 := demo) (lit 2) (lit 1) "p" "braginskii" "parallel"
       None None = Ok (Some (Array eta_hat)) /\
     ion_viscosity (H1 := demo) 1%R 1%R "p" (lit 1) 0%R "braginskii" "parallel"
       (lit 10) None (lit 2) None None =
     Ok (Array (divided eta_hat (1 * 1 * 1 * (1 / 1))%R (lit 2)))).
Proof.
  split; eexists; (split; [reflexivity|]).
  - refine (proj1 (proj1 (viscosity_dimensionalization (H := demo) 1%R 1%R
                            "p" "e" (lit 1) 0%R "braginskii" "parallel" (lit 10)
                            None (lit 0) None None _ _ _ _ _) eq_refl) _).
    cbn [lit Arith_R]. replace (Q2R 0) with 0%R by (unfold Q2R; simpl; lra).
    rewrite Rabs_R0. unfold Q2R; simpl; lra.
  - refine (proj2 (proj1 (viscosity_dimensionalization (H := demo) 1%R 1%R
                            "p" "e" (lit 1) 0%R "braginskii" "parallel" (lit 10)
                            None (lit 2) None None _ _ _ _ _) eq_refl) _).
    cbn [lit Arith_R]. replace (Q2R 2) with 2%R by (unfold Q2R; simpl; lra).
    rewrite Rabs_pos_eq by lra. unfold Q2R; simpl; lra.
Defined.

(** ** A complete run *)

(** The row of Z = 1 in the Braginskii tables, on the reals. *)
Lemma braginskii_row_of_1 (caller : string) :
  check_Z (A := R) braginskii_allowed_Z (lit 1) caller = Ok 0.
Proof.
  unfold check_Z, find_arbitrary, find_Z, enumerate, braginskii_allowed_Z.
  cbn [List.length seq combine fold_left fst snd is_arbitrary Z_eq].
  rewrite !feqb_lit. reflexivity.
Qed.

Section ForcedLogarithms.
Context {A : Type} `{Transc A} `{Collaborators A}.

(** With both Coulomb logarithms supplied the run checks them and goes to
    the coefficients. *)
Lemma run_with_forced_logs (T_e n_e T_i n_i : A) (ion_particle : string)
  (Z : option A) (B : A) (model field_orientation : string)
  (lei lii : A) (V_ei V_ii hall_e hall_i mu theta : option A)
  (w w1 : world A) (m_i Zr : A) :
  prelude ion_particle Z model field_orientation w = (w1, Ok (m_i, Zr)) ->
  classical_transport T_e n_e T_i n_i ion_particle Z B model field_orientation
    (Some lei) V_ei (Some lii) V_ii hall_e hall_i mu theta w =
  (check_coulomb_log "coulomb_log_ei" lei >>
   check_coulomb_log "coulomb_log_ii" lii >>
   evaluate_coefficients T_e n_e T_i n_i ion_particle m_i Zr B (lower model)
     (lower field_orientation) lei V_ei lii V_ii hall_e hall_i mu theta) w1.
Proof.
  intros Hpre. unfold classical_transport.
  erewrite bind_ok; [|exact Hpre]. reflexivity.
Qed.

End ForcedLogarithms.

(** The Braginskii resistivity of a proton plasma along the field, with the
    Coulomb logarithms and Hall parameters forced: the call returns the one
    coefficient and the four numbers used; it has logged the one call, and
    the caller's list now reads ["resistivity"]. *)
Lemma demo_run :
  exists alpha : R,
    classical_transport (H1 := demo) 1%R 1%R 1%R 1%R "p" None 0%R
      "Braginskii" "parallel" (Some (lit 10)) None (Some (lit 10)) None
      (Some (lit 0)) (Some (lit 0)) None None
      (World ["Resistivity"%string] []) =
    (World ["resistivity"%string] [Called "resistivity"],
     Ok ([Scalar alpha], lit 0, lit 0, lit 10, lit 10)).
Proof.
  eexists.
  rewrite (run_with_forced_logs (H1 := demo) 1%R 1%R 1%R 1%R "p" None 0%R
             "Braginskii" "parallel" (lit 10) (lit 10) None None
             (Some (lit 0)) (Some (lit 0)) None None
             (World ["Resistivity"%string] [])
             (World ["resistivity"%string] []) (lit 1836) (lit 1) eq_refl).
  erewrite bind_ok;
    [|rewrite check_coulomb_log_run; unfold warned; rewrite !fltb_lit;
      reflexivity].
  erewrite bind_ok;
    [|rewrite check_coulomb_log_run; unfold warned; rewrite !fltb_lit;
      reflexivity].
  unfold evaluate_coefficients, bind, get_coeffs. cbn [coeffs call_each].
  unfold transport_funcs. cbn [lower lower_ascii String.eqb Ascii.eqb Bool.eqb].
  unfold resistivity, nondim_resisitivity.
  cbn [String.eqb Ascii.eqb Bool.eqb orb].
  unfold nondim_resist_braginskii. rewrite braginskii_row_of_1.
  reflexivity.
Qed.

(** C9.  The claim is that a call leaves the caller's [coeffs] list with the
    values it had.  The code does not: called with the list
    [["Resistivity"]], [classical_transport] returns, and the caller's list
    then reads [["resistivity"]]. *)
Lemma caller_list_is_rewritten :
  exists (w' : world R) (out : list (nd R) * R * R * R * R),
    classical_transport (H1 := demo) 1%R 1%R 1%R 1%R "p" None 0%R
      "Braginskii" "parallel" (Some (lit 10)) None (Some (lit 10)) None
      (Some (lit 0)) (Some (lit 0)) None None
      (World ["Resistivity"%string] []) = (w', Ok out) /\
    coeffs w' = ["resistivity"%string] /\
    coeffs w' <> ["Resistivity"%string].
Proof.
  destruct demo_run as [alpha E].
  do 2 eexists. split; [exact E|]. split; [reflexivity|discriminate].
Qed.

(** ** Values of the tables, with exact rationals *)

(** Braginskii electron thermal conductivity along the field at Z = 1:
    11.92 / 3.7703, whatever the Hall parameter. *)
Example tc_e_braginskii_parallel_Z1 :
  nondim_tc_e_braginskii (A := Q) 0%Q 1%Q "parallel" =
    Ok (Some (Scalar (119200 # 37703)%Q)) /\
  nondim_tc_e_braginskii (A := Q) 100%Q 1%Q "parallel" =
    Ok (Some (Scalar (119200 # 37703)%Q)).
Proof. split; reflexivity. Qed.

(** Z = 5 has no row in the Braginskii tables. *)
Example tc_e_braginskii_Z5 :
  nondim_tc_e_braginskii (A := Q) 0%Q 5%Q "parallel" =
  Err (Raise PhysicsError
         [Num 5%Q; Txt " is not an available Z value in ";
          Txt "nondim_tc_e_braginskii"]).
Proof. reflexivity. Qed.

(** The five components of the Braginskii ion viscosity without a field. *)
Example visc_i_braginskii_hall_0 :
  nondim_visc_i_braginskii (A := Q) 0%Q =
  Ok (Some (Array [(24 # 25)%Q; (223 # 233)%Q; (223 # 233)%Q; 0%Q; 0%Q])).
Proof. reflexivity. Qed.

(** The Spitzer-Harm thermoelectric coefficient at Z = 16; an orientation
    that is none of the six names reaches no [return]. *)
Example tec_spitzer_Z16 :
  nondim_tec_spitzer (A := Q) 16%Q = Ok (Some (Scalar (4967 # 3690)%Q)) /\
  nondim_tec_braginskii (A := Q) 0%Q 1%Q "diagonal" = Ok None.
Proof. split; reflexivity. Qed.

(** * Further properties *)

(** ** The checks that open [classical_transport] *)

Lemma lower_ascii_idempotent (c : ascii) :
  lower_ascii (lower_ascii c) = lower_ascii c.
Proof. destruct c as [[] [] [] [] [] [] [] []]; reflexivity. Qed.

Lemma lower_idempotent (s : string) : lower (lower s) = lower s.
Proof.
  induction s as [|c s IH]; cbn [lower]; [reflexivity|].
  now rewrite lower_ascii_idempotent, IH.
Qed.

Section Rejections.
Context {A : Type} `{Transc A} `{Collaborators A}.
Local Open Scope string_scope.
Local Open Scope num_scope.

(** The loop over the names stops at the first one that is not valid. *)
Lemma first_invalid_coefficient (l1 l2 : list string) (c : string)
  (w : world A) :
  Forall (fun coeff => In coeff valid_coeffs) l1 ->
  ~ In c valid_coeffs ->
  for_each (l1 ++ c :: l2)%list (fun coeff =>
    if is_valid valid_coeffs coeff then ret tt
    else raise (Raise PhysicsError
                  [Txt "Unknown transport coefficient '"; Txt coeff; Txt "'"]))
    w =
  (w, Err (Raise PhysicsError
             [Txt "Unknown transport coefficient '"; Txt c; Txt "'"])).
Proof.
  intros Hl Hc. induction Hl as [|x l Hx Hl IH]; cbn [app for_each].
  - apply bind_err.
    destruct (is_valid valid_coeffs c) eqn:E; [|reflexivity].
    apply is_valid_In in E. contradiction.
  - erewrite bind_ok; [exact IH|].
    apply is_valid_In in Hx. now rewrite Hx.
Qed.

(** The prelude is the name checks and the species lookup on the
    lower-cased list. *)
Lemma prelude_run (ion_particle : string) (Z : option A)
  (model field_orientation : string) (w : world A) :
  prelude ion_particle Z model field_orientation w =
  (check_names (lower model) (lower field_orientation) >>
   resolve_species ion_particle Z) (World (map lower (coeffs w)) (log w)).
Proof.
  unfold prelude. erewrite bind_ok; [reflexivity|apply lower_in_place_run].
Qed.

(** X1.  The first requested name that, lower-cased, is not one of the six
    coefficient names makes [classical_transport] raise the [PhysicsError]
    that quotes it, whatever the model, the orientation and the species
    are: the coefficient names are checked first.  Every name of the
    caller's list has been lower-cased by then, those after the offending
    one included, and nothing has been logged. *)
Theorem unknown_coefficient_rejected (T_e n_e T_i n_i : A)
  (ion_particle : string) (Z : option A) (B : A)
  (model field_orientation : string)
  (coulomb_log_ei V_ei coulomb_log_ii V_ii hall_e hall_i mu theta : option A)
  (w : world A) (l1 l2 : list string) (c : string) :
  coeffs w = (l1 ++ c :: l2)%list ->
  Forall (fun coeff => In (lower coeff) valid_coeffs) l1 ->
  ~ In (lower c) valid_coeffs ->
  classical_transport T_e n_e T_i n_i ion_particle Z B model field_orientation
    coulomb_log_ei V_ei coulomb_log_ii V_ii hall_e hall_i mu theta w =
  (World (map lower (coeffs w)) (log w),
   Err (Raise PhysicsError
          [Txt "Unknown transport coefficient '"; Txt (lower c); Txt "'"])).
Proof.
  intros Hw Hl Hc. unfold classical_transport.
  apply bind_err. rewrite prelude_run. apply bind_err.
  unfold check_names. unfold bind at 1, get_coeffs at 1. cbn [coeffs].
  apply bind_err. rewrite Hw, map_app. cbn [map].
  apply first_invalid_coefficient; [|exact Hc].
  now apply Forall_map.
Qed.

(** X2.  With valid coefficient names and a valid model name, an
    orientation that, lower-cased, is none of the six orientation names
    makes [classical_transport] raise the [PhysicsError] that quotes it,
    before any species is looked up and with nothing logged. *)
Theorem unknown_orientation_rejected (T_e n_e T_i n_i : A)
  (ion_particle : string) (Z : option A) (B : A)
  (model field_orientation : string)
  (coulomb_log_ei V_ei coulomb_log_ii V_ii hall_e hall_i mu theta : option A)
  (w : world A) :
  Forall (fun coeff => In (lower coeff) valid_coeffs) (coeffs w) ->
  In (lower model) valid_models ->
  ~ In (lower field_orientation) valid_fields ->
  classical_transport T_e n_e T_i n_i ion_particle Z B model field_orientation
    coulomb_log_ei V_ei coulomb_log_ii V_ii hall_e hall_i mu theta w =
  (World (map lower (coeffs w)) (log w),
   Err (Raise PhysicsError
          [Txt "Unknown field orientation '"; Txt (lower field_orientation);
           Txt "'"])).
Proof.
  intros Hc Hm Hf. unfold classical_transport.
  apply bind_err. rewrite prelude_run. apply bind_err.
  rewrite check_names_model by (cbn [coeffs]; now apply Forall_map).
  apply is_valid_In in Hm. rewrite Hm.
  destruct (is_valid valid_fields (lower field_orientation)) eqn:E;
    [|reflexivity].
  apply is_valid_In in E. contradiction.
Qed.

End Rejections.

(** Three names, the second unknown; the model and the orientation are
    unknown as well, and it is the coefficient that is reported. *)
Lemma unknown_coefficient_rejected_witness :
  classical_transport (H1 := demo) 1%R 1%R 1%R 1%R "p" None 0%R
    "Chapman-Enskog" "diagonal" None None None None None None None None
    (World ["Resistivity"; "Viscosity"; "ION_VISCOSITY"]%string []) =
  (World ["resistivity"; "viscosity"; "ion_viscosity"]%string [],
   Err (Raise PhysicsError
          [Txt "Unknown transport coefficient '"; Txt "viscosity"; Txt "'"])).
Proof.
  apply (unknown_coefficient_rejected (H1 := demo) 1%R 1%R 1%R 1%R "p" None 0%R
           "Chapman-Enskog" "diagonal" None None None None None None None None
           (World ["Resistivity"; "Viscosity"; "ION_VISCOSITY"]%string [])
           ["Resistivity"%string] ["ION_VISCOSITY"%string] "Viscosity").
  - reflexivity.
  - repeat constructor.
  - simpl. intros [E|[E|[E|[E|[E|[E|[]]]]]]]; discriminate E.
Defined.

(** A valid request but for the orientation. *)
Lemma unknown_orientation_rejected_witness :
  classical_transport (H1 := demo) 1%R 1%R 1%R 1%R "p" None 0%R
    "Braginskii" "Diagonal" None None None None None None None None
    (World ["Resistivity"%string] []) =
  (World ["resistivity"%string] [],
   Err (Raise PhysicsError
          [Txt "Unknown field orientation '"; Txt "diagonal"; Txt "'"])).
Proof.
  apply (unknown_orientation_rejected (H1 := demo) 1%R 1%R 1%R 1%R "p" None 0%R
           "Braginskii" "Diagonal" None None None None None None None None
           (World ["Resistivity"%string] [])).
  - repeat constructor.
  - simpl. auto.
  - simpl. intros [E|[E|[E|[E|[E|[E|[]]]]]]]; discriminate E.
Defined.

Section Species.
Context {A : Type} `{Transc A} `{Collaborators A}.
Local Open Scope string_scope.
Local Open Scope num_scope.

Lemma bind_ext {X Y : Type} (m m' : M A X) (f f' : X -> M A Y)
  (w w' : world A) :
  m w = m' w' -> (forall x w0, f x w0 = f' x w0) ->
  bind m f w = bind m' f' w'.
Proof.
  intros Em Ef. unfold bind. rewrite Em.
  destruct (m' w') as [w1 [x|ex]]; [apply Ef|reflexivity].
Qed.

(** A call whose prelude raises stops there. *)
Lemma prelude_raises (T_e n_e T_i n_i : A) (ion_particle : string)
  (Z : option A) (B : A) (model field_orientation : string)
  (coulomb_log_ei V_ei coulomb_log_ii V_ii hall_e hall_i mu theta : option A)
  (w w1 : world A) (ex : exn A) :
  prelude ion_particle Z model field_orientation w = (w1, Err ex) ->
  classical_transport T_e n_e T_i n_i ion_particle Z B model field_orientation
    coulomb_log_ei V_ei coulomb_log_ii V_ii hall_e hall_i mu theta w =
  (w1, Err ex).
Proof. intros E. unfold classical_transport. now apply bind_err. Qed.

(** With valid names the prelude is the species lookup. *)
Lemma prelude_species (ion_particle : string) (Z : option A)
  (model field_orientation : string) (w : world A) :
  Forall (fun coeff => In (lower coeff) valid_coeffs) (coeffs w) ->
  In (lower model) valid_models ->
  In (lower field_orientation) valid_fields ->
  prelude ion_particle Z model field_orientation w =
  resolve_species ion_particle Z (World (map lower (coeffs w)) (log w)).
Proof.
  intros Hc Hm Hf. rewrite prelude_run.
  erewrite bind_ok; [reflexivity|].
  rewrite check_names_model by (cbn [coeffs]; now apply Forall_map).
  apply is_valid_In in Hm, Hf. now rewrite Hm, Hf.
Qed.

(** X3.  Once the names have passed, [classical_transport] looks up the ion:
    an ion whose mass is not known raises the [ValueError] about the mass,
    whatever [Z] is; with the mass known, a supplied [Z] below zero raises
    the [ValueError] about a negative [Z], and a missing [Z] whose charge
    state is not known raises the [ValueError] about the charge.  Each of
    these leaves the log as it was: no Coulomb logarithm was computed.  A
    supplied [Z] that is not negative is the charge state used, the
    database is not asked; a missing one is taken from the database. *)
Theorem species_resolution (T_e n_e T_i n_i : A) (ion_particle : string)
  (Z : option A) (B : A) (model field_orientation : string)
  (coulomb_log_ei V_ei coulomb_log_ii V_ii hall_e hall_i mu theta : option A)
  (w : world A) :
  Forall (fun coeff => In (lower coeff) valid_coeffs) (coeffs w) ->
  In (lower model) valid_models ->
  In (lower field_orientation) valid_fields ->
  let run :=
    classical_transport T_e n_e T_i n_i ion_particle Z B model field_orientation
      coulomb_log_ei V_ei coulomb_log_ii V_ii hall_e hall_i mu theta w in
  let w1 := World (map lower (coeffs w)) (log w) in
  (ion_mass ion_particle = None ->
   run = (w1, Err (Raise ValueError
                     [Txt "Unable to find mass of particle: "; Txt ion_particle;
                      Txt " in classical_transport."]))) /\
  (forall m_i : A, ion_mass ion_particle = Some m_i ->
     (forall z : A, Z = Some z -> (z <? lit 0) = true ->
        run = (w1, Err (Raise ValueError [Txt "Z not allowed to be negative"]))) /\
     (Z = None -> charge_state ion_particle = None ->
        run = (w1, Err (Raise ValueError
                          [Txt "Unable to find charge of particle: ";
                           Txt ion_particle; Txt " in classical_transport."]))) /\
     (forall z : A, Z = Some z -> (z <? lit 0) = false ->
        prelude ion_particle Z model field_orientation w = (w1, Ok (m_i, z))) /\
     (forall z : A, Z = None -> charge_state ion_particle = Some z ->
        prelude ion_particle Z model field_orientation w = (w1, Ok (m_i, z)))).
Proof.
  intros Hc Hm Hf run w1.
  pose proof (prelude_species ion_particle Z model field_orientation w Hc Hm Hf)
    as Hpre.
  fold w1 in Hpre. unfold resolve_species in Hpre.
  split; [|intros m_i Hmass; repeat split].
  - intros Hmass. apply prelude_raises. rewrite Hpre, Hmass. reflexivity.
  - intros z -> Hz. apply prelude_raises. rewrite Hpre, Hmass.
    unfold bind, ret. now rewrite Hz.
  - intros -> Hq. apply prelude_raises. rewrite Hpre, Hmass.
    unfold bind, ret. now rewrite Hq.
  - intros z -> Hz. rewrite Hpre, Hmass. unfold bind, ret. now rewrite Hz.
  - intros z -> Hq. rewrite Hpre, Hmass. unfold bind, ret. now rewrite Hq.
Qed.

(** X4.  The model, the orientation and the coefficient names are read
    without regard to case: a call is the call with the lower-cased model
    and orientation on the lower-cased list, in its result and in what it
    leaves behind. *)
Theorem names_are_case_insensitive (T_e n_e T_i n_i : A)
  (ion_particle : string) (Z : option A) (B : A)
  (model field_orientation : string)
  (coulomb_log_ei V_ei coulomb_log_ii V_ii hall_e hall_i mu theta : option A)
  (w : world A) :
  classical_transport T_e n_e T_i n_i ion_particle Z B model field_orientation
    coulomb_log_ei V_ei coulomb_log_ii V_ii hall_e hall_i mu theta w =
  classical_transport T_e n_e T_i n_i ion_particle Z B
    (lower model) (lower field_orientation)
    coulomb_log_ei V_ei coulomb_log_ii V_ii hall_e hall_i mu theta
    (World (map lower (coeffs w)) (log w)).
Proof.
  assert (map lower (map lower (coeffs w)) = map lower (coeffs w)) as El.
  { rewrite map_map. apply map_ext. intros x. apply lower_idempotent. }
  unfold classical_transport. apply bind_ext.
  - rewrite !prelude_run. cbn [coeffs log].
    now rewrite El, !lower_idempotent.
  - intros [m_i Zr] w0. now rewrite !lower_idempotent.
Qed.

End Species.

(** An ion of unknown mass; a negative charge state forced on protons; an
    ion of known mass and unknown charge; a charge state of 3 forced on
    protons; protons as the database has them. *)
Lemma species_resolution_witness :
  classical_transport (H1 := sparse) 1%R 1%R 1%R 1%R "q" (Some (lit 1)) 0%R
    "Braginskii" "parallel" None None None None None None None None
    (World ["Resistivity"%string] []) =
  (World ["resistivity"%string] [],
   Err (Raise ValueError
          [Txt "Unable to find mass of particle: "; Txt "q";
           Txt " in classical_transport."])) /\
  classical_transport (H1 := sparse) 1%R 1%R 1%R 1%R "p" (Some (lit (-1))) 0%R
    "Braginskii" "parallel" None None None None None None None None
    (World ["Resistivity"%string] []) =
  (World ["resistivity"%string] [],
   Err (Raise ValueError [Txt "Z not allowed to be negative"])) /\
  classical_transport (H1 := sparse) 1%R 1%R 1%R 1%R "x" None 0%R
    "Braginskii" "parallel" None None None None None None None None
    (World ["Resistivity"%string] []) =
  (World ["resistivity"%string] [],
   Err (Raise ValueError
          [Txt "Unable to find charge of particle: "; Txt "x";
           Txt " in classical_transport."])) /\
  prelude (H1 := sparse) "p" (Some (lit 3)) "Braginskii" "parallel"
    (World ["Resistivity"%string] []) =
  (World ["resistivity"%string] [], Ok (lit 1836, lit 3)) /\
  prelude (H1 := sparse) "p" None "Braginskii" "parallel"
    (World ["Resistivity"%string] []) =
  (World ["resistivity"%string] [], Ok (lit 1836, lit 1)).
Proof.
  assert (Forall (fun coeff => In (lower coeff) valid_coeffs)
            ["Resistivity"%string]) as Hc by repeat constructor.
  assert (In (lower "Braginskii") valid_models) as Hm by (simpl; auto).
  assert (In (lower "parallel") valid_fields) as Hf by (simpl; auto).
  split; [|split; [|split; [|split]]].
  - destruct (species_resolution (H1 := sparse) 1%R 1%R 1%R 1%R "q"
                (Some (lit 1)) 0%R "Braginskii" "parallel"
                None None None None None None None None
                (World ["Resistivity"%string] []) Hc Hm Hf) as [Hmass _].
    apply Hmass. reflexivity.
  - destruct (species_resolution (H1 := sparse) 1%R 1%R 1%R 1%R "p"
                (Some (lit (-1))) 0%R "Braginskii" "parallel"
                None None None None None None None None
                (World ["Resistivity"%string] []) Hc Hm Hf) as [_ Hknown].
    destruct (Hknown (lit 1836) eq_refl) as [Hneg _].
    apply (Hneg (lit (-1)) eq_refl). now rewrite fltb_lit.
  - destruct (species_resolution (H1 := sparse) 1%R 1%R 1%R 1%R "x"
                None 0%R "Braginskii" "parallel"
                None None None None None None None None
                (World ["Resistivity"%string] []) Hc Hm Hf) as [_ Hknown].
    destruct (Hknown (lit 2) eq_refl) as [_ [Hcharge _]].
    apply Hcharge; reflexivity.
  - destruct (species_resolution (H1 := sparse) 1%R 1%R 1%R 1%R "p"
                (Some (lit 3)) 0%R "Braginskii" "parallel"
                None None None None None None None None
                (World ["Resistivity"%string] []) Hc Hm Hf) as [_ Hknown].
    destruct (Hknown (lit 1836) eq_refl) as [_ [_ [Hforced _]]].
    apply (Hforced (lit 3) eq_refl). now rewrite fltb_lit.
  - destruct (species_resolution (H1 := sparse) 1%R 1%R 1%R 1%R "p"
                None 0%R "Braginskii" "parallel"
                None None None None None None None None
                (World ["Resistivity"%string] []) Hc Hm Hf) as [_ Hknown].
    destruct (Hknown (lit 1836) eq_refl) as [_ [_ [_ Hfound]]].
    apply (Hfound (lit 1) eq_refl eq_refl).
Defined.

(** ** What a call of [classical_transport] returns *)

Section Returns.
Context {A : Type} `{Transc A} `{Collaborators A}.
Local Open Scope string_scope.
Local Open Scope num_scope.

Lemma item_world (v : nd A) (w : world A) : fst (item v w) = w.
Proof. destruct v as [x|[|x [|y l]]]; reflexivity. Qed.

(** The loop over the requested names logs one call for each and returns
    what each call returned, in the order of the names. *)
Lemma call_each_run (funcs : string -> option (res A (nd A)))
  (l : list string) (w w' : world A) (xs : list (nd A)) :
  call_each funcs l w = (w', Ok xs) ->
  Forall2 (fun coeff x => funcs coeff = Some (Ok x)) l xs /\
  w' = World (coeffs w) (log w ++ map Called l).
Proof.
  revert w w' xs; induction l as [|c l IH]; intros w w' xs E.
  - injection E as <- <-. split; [constructor|].
    destruct w as [cs lg]; simpl. now rewrite app_nil_r.
  - cbn [call_each] in E.
    destruct (funcs c) as [[x|ex]|] eqn:Ec; try discriminate E.
    unfold bind at 1 in E. unfold emit at 1 in E.
    unfold bind at 1 in E. unfold lift at 1 in E.
    unfold bind at 1 in E.
    destruct (call_each funcs l (World (coeffs w) (log w ++ [Called c])))
      as [w'' [xs'|ex]] eqn:Er; try discriminate E.
    injection E as <- <-.
    apply IH in Er as [Hxs ->]. split; [now constructor|].
    cbn [coeffs log map]. now rewrite <- app_assoc.
Qed.

(** The stages a call that returns has gone through. *)
Lemma successful_run (T_e n_e T_i n_i : A) (ion_particle : string)
  (Z : option A) (B : A) (model field_orientation : string)
  (coulomb_log_ei V_ei coulomb_log_ii V_ii hall_e hall_i mu theta : option A)
  (w w' : world A) (tc : list (nd A)) (he hi lei lii : A) :
  classical_transport T_e n_e T_i n_i ion_particle Z B model field_orientation
    coulomb_log_ei V_ei coulomb_log_ii V_ii hall_e hall_i mu theta w =
  (w', Ok (tc, he, hi, lei, lii)) ->
  exists (m_i Zr : A) (w2 w4 : world A),
    prelude ion_particle Z model field_orientation w =
      (World (map lower (coeffs w)) (log w), Ok (m_i, Zr)) /\
    resolve_coulomb_log coulomb_log_ei
      (Coulomb_logarithm T_e n_e ["e"; ion_particle] (option_map Scalar V_ei))
      (World (map lower (coeffs w)) (log w)) = (w2, Ok lei) /\
    (lei <? lit 1) = false /\
    resolve_coulomb_log coulomb_log_ii
      (Coulomb_logarithm T_i n_e [ion_particle; ion_particle]
         (option_map Scalar V_ii))
      (warned "coulomb_log_ei" lei w2) = (w4, Ok lii) /\
    (lii <? lit 1) = false /\
    evaluate_coefficients T_e n_e T_i n_i ion_particle m_i Zr B (lower model)
      (lower field_orientation) lei V_ei lii V_ii hall_e hall_i mu theta
      (warned "coulomb_log_ii" lii w4) = (w', Ok (tc, he, hi, lei, lii)).
Proof.
  intros E. unfold classical_transport in E. unfold bind at 1 in E.
  pose proof (prelude_world ion_particle Z model field_orientation w) as Hw.
  destruct (prelude ion_particle Z model field_orientation w)
    as [w1 [[m_i Zr]|ex]]; [|discriminate E].
  simpl in Hw. subst w1. cbv iota beta zeta in E.
  unfold bind at 1 in E.
  destruct (resolve_coulomb_log coulomb_log_ei _ _) as [w2 [a|ex]] eqn:Eei;
    [|discriminate E].
  unfold bind at 1 in E. rewrite check_coulomb_log_run in E.
  destruct (a <? lit 1) eqn:Ea; [discriminate E|].
  unfold bind at 1 in E.
  destruct (resolve_coulomb_log coulomb_log_ii _ _) as [w4 [b|ex]] eqn:Eii;
    [|discriminate E].
  unfold bind at 1 in E. rewrite check_coulomb_log_run in E.
  destruct (b <? lit 1) eqn:Eb; [discriminate E|].
  destruct (evaluate_coefficients_ii _ _ _ _ _ _ _ _ _ _ _ _ _ _ _ _ _ _ _ _
              _ _ _ _ _ E) as [-> ->].
  exists m_i, Zr, w2, w4. repeat split; assumption.
Qed.

(** X5.  A call that returns gives one coefficient for each requested name,
    in the order of the request: the i-th is what the transport function of
    the i-th lower-cased name returned for the model, the orientation, the
    Coulomb logarithms and the Hall parameters of the call.  The caller's
    list then holds the lower-cased names, and the log has grown by
    warnings followed by one call for each name, in that order. *)
Theorem one_result_per_request (T_e n_e T_i n_i : A) (ion_particle : string)
  (Z : option A) (B : A) (model field_orientation : string)
  (coulomb_log_ei V_ei coulomb_log_ii V_ii hall_e hall_i mu theta : option A)
  (w w' : world A) (tc : list (nd A)) (he hi lei lii : A) :
  classical_transport T_e n_e T_i n_i ion_particle Z B model field_orientation
    coulomb_log_ei V_ei coulomb_log_ii V_ii hall_e hall_i mu theta w =
  (w', Ok (tc, he, hi, lei, lii)) ->
  List.length tc = List.length (coeffs w) /\
  coeffs w' = map lower (coeffs w) /\
  (exists ws,
     log w' =
     (log w ++ map Warned ws ++ map Called (map lower (coeffs w)))%list) /\
  exists (Zr : A) (mu' theta' : option A),
    Forall2
      (fun coeff x =>
         transport_funcs T_e n_e T_i n_i ion_particle "e" Zr B (lower model)
           (lower field_orientation) lei V_ei lii V_ii he hi mu' theta' coeff =
         Some (Ok x))
      (map lower (coeffs w)) tc.
Proof.
  intros E.
  destruct (successful_run _ _ _ _ _ _ _ _ _ _ _ _ _ _ _ _ _ _ _ _ _ _ _ _ E)
    as (m_i & Zr & w2 & w4 & _ & Eei & _ & Eii & _ & Eev).
  assert (only_warnings (World (map lower (coeffs w)) (log w))
            (warned "coulomb_log_ii" lii w4)) as [Hc [ws Hl]].
  { pose proof (quiet_resolve_coulomb_log coulomb_log_ei _
                  (quiet_Coulomb_logarithm T_e n_e ["e"; ion_particle]
                     (option_map Scalar V_ei))
                  (World (map lower (coeffs w)) (log w))) as Q1.
    rewrite Eei in Q1.
    pose proof (quiet_resolve_coulomb_log coulomb_log_ii _
                  (quiet_Coulomb_logarithm T_i n_e [ion_particle; ion_particle]
                     (option_map Scalar V_ii))
                  (warned "coulomb_log_ei" lei w2)) as Q2.
    rewrite Eii in Q2.
    eapply only_warnings_trans; [exact Q1|].
    eapply only_warnings_trans; [apply only_warnings_warned|].
    eapply only_warnings_trans; [exact Q2|apply only_warnings_warned]. }
  cbn [coeffs log] in Hc, Hl.
  unfold evaluate_coefficients in Eev. unfold bind at 1 in Eev.
  unfold get_coeffs at 1 in Eev. unfold bind at 1 in Eev.
  destruct (call_each _ _ _) as [w5 [xs|ex]] eqn:Ecall; [|discriminate Eev].
  unfold ret in Eev. injection Eev as <- <- <- <-.
  apply call_each_run in Ecall as [Hxs ->].
  rewrite Hc in Hxs |- *. cbn [coeffs log].
  split; [|split; [reflexivity|split]].
  - apply Forall2_length in Hxs. now rewrite length_map in Hxs.
  - exists ws. now rewrite Hl, <- app_assoc.
  - do 3 eexists. exact Hxs.
Qed.

(** X6.  A call that returns gives back, after the coefficients, the Hall
    parameters and the Coulomb logarithms it used: neither logarithm is
    below 1; a logarithm or a Hall parameter the caller supplied comes back
    as supplied; a Hall parameter not supplied is [Hall_parameter] at the
    electron density and temperature with the electron-ion logarithm and
    [V_ei], respectively at the ion density and temperature with the
    ion-ion logarithm and [V_ii]. *)
Theorem returned_parameters (T_e n_e T_i n_i : A) (ion_particle : string)
  (Z : option A) (B : A) (model field_orientation : string)
  (coulomb_log_ei V_ei coulomb_log_ii V_ii hall_e hall_i mu theta : option A)
  (w w' : world A) (tc : list (nd A)) (he hi lei lii : A) :
  classical_transport T_e n_e T_i n_i ion_particle Z B model field_orientation
    coulomb_log_ei V_ei coulomb_log_ii V_ii hall_e hall_i mu theta w =
  (w', Ok (tc, he, hi, lei, lii)) ->
  (lei <? lit 1) = false /\ (lii <? lit 1) = false /\
  (forall v, coulomb_log_ei = Some v -> lei = v) /\
  (forall v, coulomb_log_ii = Some v -> lii = v) /\
  he = match hall_e with
       | Some h => h
       | None => Hall_parameter n_e T_e B "e" ion_particle lei V_ei
       end /\
  hi = match hall_i with
       | Some h => h
       | None => Hall_parameter n_i T_i B ion_particle ion_particle lii V_ii
       end.
Proof.
  intros E.
  destruct (successful_run _ _ _ _ _ _ _ _ _ _ _ _ _ _ _ _ _ _ _ _ _ _ _ _ E)
    as (m_i & Zr & w2 & w4 & _ & Eei & Hei & Eii & Hii & Eev).
  split; [exact Hei|]. split; [exact Hii|].
  split; [|split].
  - intros v ->. cbn [resolve_coulomb_log] in Eei. unfold ret in Eei.
    now injection Eei.
  - intros v ->. cbn [resolve_coulomb_log] in Eii. unfold ret in Eii.
    now injection Eii.
  - unfold evaluate_coefficients in Eev. unfold bind at 1 in Eev.
    unfold get_coeffs at 1 in Eev. unfold bind at 1 in Eev.
    destruct (call_each _ _ _) as [w5 [xs|ex]]; [|discriminate Eev].
    unfold ret in Eev. injection Eev as _ _ <- <-. split; reflexivity.
Qed.

End Returns.

(** The run of [demo_run]: one name, one coefficient, one call logged. *)
Lemma one_result_per_request_witness :
  exists (w' : world R) (tc : list (nd R)) (he hi lei lii : R),
    classical_transport (H1 := demo) 1%R 1%R 1%R 1%R "p" None 0%R
      "Braginskii" "parallel" (Some (lit 10)) None (Some (lit 10)) None
      (Some (lit 0)) (Some (lit 0)) None None
      (World ["Resistivity"%string] []) = (w', Ok (tc, he, hi, lei, lii)) /\
    List.length tc = 1 /\
    coeffs w' = ["resistivity"%string] /\
    exists ws, log w' = ([] ++ map Warned ws ++ [Called "resistivity"])%list.
Proof.
  destruct demo_run as [alpha E].
  destruct (one_result_per_request (H1 := demo) _ _ _ _ _ _ _ _ _ _ _ _ _ _ _
              _ _ _ _ _ _ _ _ _ E) as [Hlen [Hc [Hl _]]].
  do 6 eexists. split; [exact E|].
  split; [exact Hlen|]. split; [exact Hc|exact Hl].
Defined.

(** The run of [demo_run]: the forced logarithms of 10 and the forced Hall
    parameters of 0 come back. *)
Lemma returned_parameters_witness :
  exists (w' : world R) (tc : list (nd R)) (he hi lei lii : R),
    classical_transport (H1 := demo) 1%R 1%R 1%R 1%R "p" None 0%R
      "Braginskii" "parallel" (Some (lit 10)) None (Some (lit 10)) None
      (Some (lit 0)) (Some (lit 0)) None None
      (World ["Resistivity"%string] []) = (w', Ok (tc, he, hi, lei, lii)) /\
    fltb lei (lit 1) = false /\ fltb lii (lit 1) = false /\
    lei = lit 10 /\ lii = lit 10 /\ he = lit 0 /\ hi = lit 0.
Proof.
  destruct demo_run as [alpha E].
  destruct (returned_parameters (H1 := demo) _ _ _ _ _ _ _ _ _ _ _ _ _ _ _
              _ _ _ _ _ _ _ _ _ E) as (Q1 & Q2 & Q3 & Q4 & Q5 & Q6).
  do 6 eexists. split; [exact E|].
  split; [exact Q1|]. split; [exact Q2|].
  split; [exact (Q3 _ eq_refl)|]. split; [exact (Q4 _ eq_refl)|].
  split; [exact Q5|exact Q6].
Defined.

(** ** The ratios [mu] and [theta] *)

Section Ratios.
Context {A : Type} `{Transc A} `{Collaborators A}.
Local Open Scope string_scope.
Local Open Scope num_scope.

Lemma call_each_ext (funcs funcs' : string -> option (res A (nd A)))
  (l : list string) (w : world A) :
  (forall coeff, funcs coeff = funcs' coeff) ->
  call_each funcs l w = call_each funcs' l w.
Proof.
  intros E. revert w; induction l as [|c l IH]; intros w; [reflexivity|].
  cbn [call_each]. rewrite <- E. destruct (funcs c) as [call|]; [|reflexivity].
  apply bind_ext; [reflexivity|]. intros _ w0.
  apply bind_ext; [reflexivity|]. intros x w1.
  apply bind_ext; [apply IH|reflexivity].
Qed.

(** Outside Ji-Held no transport function reads [mu] or [theta]. *)
Lemma transport_funcs_ratios (T_e n_e T_i n_i : A)
  (ion_particle e_particle : string) (Z B : A)
  (model field_orientation : string)
  (coulomb_log_ei : A) (V_ei : option A) (coulomb_log_ii : A) (V_ii : option A)
  (hall_e hall_i : A) (mu theta mu' theta' : option A) (coeff : string) :
  model <> "ji-held" ->
  transport_funcs T_e n_e T_i n_i ion_particle e_particle Z B model
    field_orientation coulomb_log_ei V_ei coulomb_log_ii V_ii hall_e hall_i
    mu theta coeff =
  transport_funcs T_e n_e T_i n_i ion_particle e_particle Z B model
    field_orientation coulomb_log_ei V_ei coulomb_log_ii V_ii hall_e hall_i
    mu' theta' coeff.
Proof.
  intros Hj. apply String.eqb_neq in Hj.
  unfold transport_funcs, ion_thermal_conductivity,
    electron_thermal_conductivity, ion_viscosity, electron_viscosity,
    nondim_thermal_conductivity, nondim_viscosity.
  rewrite Hj. reflexivity.
Qed.

(** The ion mass the prelude returns is the one of the database. *)
Lemma prelude_mass (ion_particle : string) (Z : option A)
  (model field_orientation : string) (w w1 : world A) (m_i Zr : A) :
  prelude ion_particle Z model field_orientation w = (w1, Ok (m_i, Zr)) ->
  ion_mass ion_particle = Some m_i.
Proof.
  rewrite prelude_run. unfold bind at 1.
  destruct (check_names _ _ _) as [w0 [[]|ex]]; [|discriminate].
  unfold resolve_species, bind, ret, raise.
  destruct (ion_mass ion_particle) as [m|]; [|discriminate].
  destruct Z as [z|]; [destruct (z <? lit 0)|
                       destruct (charge_state ion_particle)];
    try discriminate; now intros [= _ -> _].
Qed.

Lemma bind_ext_run {X Y : Type} (m : M A X) (f f' : X -> M A Y) (w : world A) :
  (forall w1 x, m w = (w1, Ok x) -> f x w1 = f' x w1) ->
  bind m f w = bind m f' w.
Proof.
  intros E. unfold bind.
  destruct (m w) as [w1 [x|ex]]; [now apply E|reflexivity].
Qed.

(** X7.  The mass ratio [mu] and the temperature ratio [theta] matter under
    the Ji-Held model only: under any other model a call is the call
    without them.  Under Ji-Held each ratio is defaulted on its own: a [mu]
    that is not supplied is [m_e / m_i], with the ion mass of the database,
    whether or not [theta] is supplied, and a [theta] that is not supplied
    is [T_e / T_i], whether or not [mu] is; a supplied ratio is used as it
    is.  So a call is the call with both ratios supplied, each as given or
    else as defaulted. *)
Theorem ratios_only_under_ji_held (T_e n_e T_i n_i : A) (ion_particle : string)
  (Z : option A) (B : A) (model field_orientation : string)
  (coulomb_log_ei V_ei coulomb_log_ii V_ii hall_e hall_i mu theta : option A)
  (w : world A) :
  (lower model <> "ji-held" ->
   classical_transport T_e n_e T_i n_i ion_particle Z B model field_orientation
     coulomb_log_ei V_ei coulomb_log_ii V_ii hall_e hall_i mu theta w =
   classical_transport T_e n_e T_i n_i ion_particle Z B model field_orientation
     coulomb_log_ei V_ei coulomb_log_ii V_ii hall_e hall_i None None w) /\
  (lower model = "ji-held" ->
   forall m_i : A, ion_mass ion_particle = Some m_i ->
   classical_transport T_e n_e T_i n_i ion_particle Z B model field_orientation
     coulomb_log_ei V_ei coulomb_log_ii V_ii hall_e hall_i mu theta w =
   classical_transport T_e n_e T_i n_i ion_particle Z B model field_orientation
     coulomb_log_ei V_ei coulomb_log_ii V_ii hall_e hall_i
     (Some (match mu with Some given => given | None => m_e / m_i end))
     (Some (match theta with Some given => given | None => T_e / T_i end)) w).
Proof.
  split.
  - intros Hj. unfold classical_transport.
    apply bind_ext; [reflexivity|]. intros [m_i Zr] w1.
    apply bind_ext; [reflexivity|]. intros lei w2.
    apply bind_ext; [reflexivity|]. intros _ w3.
    apply bind_ext; [reflexivity|]. intros lii w4.
    apply bind_ext; [reflexivity|]. intros _ w5.
    unfold evaluate_coefficients.
    apply String.eqb_neq in Hj. rewrite Hj. apply String.eqb_neq in Hj.
    apply bind_ext; [reflexivity|]. intros l w6.
    apply bind_ext; [|reflexivity].
    apply call_each_ext. intros coeff.
    now apply transport_funcs_ratios.
  - intros Hj m_i Hm. unfold classical_transport.
    apply bind_ext_run. intros w1 [m Zr] Hpre.
    apply prelude_mass in Hpre. rewrite Hm in Hpre. injection Hpre as <-.
    apply bind_ext; [reflexivity|]. intros lei w2.
    apply bind_ext; [reflexivity|]. intros _ w3.
    apply bind_ext; [reflexivity|]. intros lii w4.
    apply bind_ext; [reflexivity|]. intros _ w5.
    unfold evaluate_coefficients. rewrite Hj.
    destruct mu, theta; reflexivity.
Qed.

End Ratios.

(** Protons under Braginskii with ratios of 5 and 7; under Ji-Held with no
    ratio supplied; and under Ji-Held with [mu] set to 0 and [theta] left
    out, where [theta] is still defaulted. *)
Lemma ratios_only_under_ji_held_witness :
  classical_transport (H1 := demo) 1%R 1%R 1%R 1%R "p" None 0%R
    "Braginskii" "parallel" None None None None None None
    (Some (lit 5)) (Some (lit 7)) (World ["ion_viscosity"%string] []) =
  classical_transport (H1 := demo) 1%R 1%R 1%R 1%R "p" None 0%R
    "Braginskii" "parallel" None None None None None None
    None None (World ["ion_viscosity"%string] []) /\
  classical_transport (H1 := demo) 2%R 1%R 3%R 1%R "p" None 0%R
    "Ji-Held" "parallel" None None None None None None
    None None (World ["ion_viscosity"%string] []) =
  classical_transport (H1 := demo) 2%R 1%R 3%R 1%R "p" None 0%R
    "Ji-Held" "parallel" None None None None None None
    (Some (fdiv (@m_e R demo) (lit 1836))) (Some (fdiv 2%R 3%R))
    (World ["ion_viscosity"%string] []) /\
  classical_transport (H1 := demo) 2%R 1%R 3%R 1%R "p" None 0%R
    "Ji-Held" "parallel" None None None None None None
    (Some (lit 0)) None (World ["ion_viscosity"%string] []) =
  classical_transport (H1 := demo) 2%R 1%R 3%R 1%R "p" None 0%R
    "Ji-Held" "parallel" None None None None None None
    (Some (lit 0)) (Some (fdiv 2%R 3%R))
    (World ["ion_viscosity"%string] []).
Proof.
  assert (lower "Braginskii" <> "ji-held"%string) as Hb by discriminate.
  split; [|split].
  - exact (proj1 (ratios_only_under_ji_held (H1 := demo) 1%R 1%R 1%R 1%R "p"
                    None 0%R "Braginskii" "parallel" None None None None
                    None None (Some (lit 5)) (Some (lit 7))
                    (World ["ion_viscosity"%string] [])) Hb).
  - exact (proj2 (ratios_only_under_ji_held (H1 := demo) 2%R 1%R 3%R 1%R "p"
                    None 0%R "Ji-Held" "parallel" None None None None
                    None None None None
                    (World ["ion_viscosity"%string] [])) eq_refl
             (lit 1836) eq_refl).
  - exact (proj2 (ratios_only_under_ji_held (H1 := demo) 2%R 1%R 3%R 1%R "p"
                    None 0%R "Ji-Held" "parallel" None None None None
                    None None (Some (lit 0)) None
                    (World ["ion_viscosity"%string] [])) eq_refl
             (lit 1836) eq_refl).
Defined.

(** ** The Coulomb logarithm: its arguments and the shape of its result *)

Section CoulombInputs.
Context {A : Type} `{Transc A} `{Collaborators A}.
Local Open Scope string_scope.
Local Open Scope num_scope.

(** X8.  [Coulomb_logarithm] refuses its arguments in this order, each time
    with a [ValueError] and before anything is logged: a [particles] that
    does not hold two names; the first particle when its mass is not known,
    then when its charge state is not known; the second particle likewise.
    So of two unknown particles it is the first that is reported. *)
Theorem Coulomb_logarithm_input_errors (T n_e : A) (particles : list string)
  (V : option (nd A)) (w : world A) :
  let run := Coulomb_logarithm T n_e particles V w in
  let no_mass := fun p : string =>
    Raise (A := A) ValueError
      [Txt "Unable to find mass of particle: "; Txt p;
       Txt " in Coulomb_logarithm."] in
  let no_charge := fun p : string =>
    Raise (A := A) ValueError
      [Txt "Unable to find charge of particle: "; Txt p;
       Txt " in Coulomb_logarithm."] in
  (List.length particles <> 2 ->
   run = (w, Err (Raise ValueError
                    [Txt "The third input of Coulomb_logarithm must be a list or tuple containing representations of two charged particles."]))) /\
  (forall particle_0 particle_1 : string,
     particles = [particle_0; particle_1] ->
     (ion_mass particle_0 = None -> run = (w, Err (no_mass particle_0))) /\
     (ion_mass particle_0 <> None -> charge_state particle_0 = None ->
      run = (w, Err (no_charge particle_0))) /\
     (ion_mass particle_0 <> None -> charge_state particle_0 <> None ->
      ion_mass particle_1 = None -> run = (w, Err (no_mass particle_1))) /\
     (ion_mass particle_0 <> None -> charge_state particle_0 <> None ->
      ion_mass particle_1 <> None -> charge_state particle_1 = None ->
      run = (w, Err (no_charge particle_1)))).
Proof.
  intros run no_mass no_charge. unfold run, no_mass, no_charge. split.
  - intros Hlen. destruct particles as [|p0 [|p1 [|p2 l]]]; try reflexivity.
    now contradiction Hlen.
  - intros p0 p1 ->. unfold Coulomb_logarithm, bind, ret, raise.
    destruct (ion_mass p0) as [m0|], (charge_state p0) as [z0|],
             (ion_mass p1) as [m1|], (charge_state p1) as [z1|];
      repeat split; intros; try congruence; reflexivity.
Qed.



End CoulombInputs.

Section CoulombSymmetry.
Context `{Collaborators R}.
Local Open Scope R_scope.

(** X10.  On the reals the Coulomb logarithm of two known particles is the
    same in either order, in its value and in its warnings: the masses
    enter through the reduced mass and the charges through their product. *)
Theorem Coulomb_logarithm_symmetric (T n_e : R) (p1 p2 : string)
  (V : option (nd R)) (w : world R) (m1 m2 Z1 Z2 : R) :
  ion_mass p1 = Some m1 -> charge_state p1 = Some Z1 ->
  ion_mass p2 = Some m2 -> charge_state p2 = Some Z2 ->
  Coulomb_logarithm T n_e [p1; p2] V w = Coulomb_logarithm T n_e [p2; p1] V w.
Proof.
  intros Hm1 Hz1 Hm2 Hz2.
  unfold Coulomb_logarithm, bind, ret, raise, lift.
  rewrite Hm1, Hz1, Hm2, Hz2.
  cbn [lit fadd fsub fmul fdiv fpow fabs fsqrt fln Arith_R Transc_R].
  replace (m2 * m1 / (m2 + m1)) with (m1 * m2 / (m1 + m2))
    by (rewrite (Rmult_comm m2 m1), (Rplus_comm m2 m1); reflexivity).
  replace (Rabs (e * Z2) * Rabs (e * Z1)) with (Rabs (e * Z1) * Rabs (e * Z2))
    by apply Rmult_comm.
  reflexivity.
Qed.

End CoulombSymmetry.

(** One name only; two unknown names; a known mass with an unknown charge
    in second place. *)
Lemma Coulomb_logarithm_input_errors_witness :
  Coulomb_logarithm (H1 := sparse) 1%R 1%R ["p"%string] None (World [] []) =
  (World [] [],
   Err (Raise ValueError
          [Txt "The third input of Coulomb_logarithm must be a list or tuple containing representations of two charged particles."])) /\
  Coulomb_logarithm (H1 := sparse) 1%R 1%R ["q"; "r"]%string None (World [] []) =
  (World [] [],
   Err (Raise ValueError
          [Txt "Unable to find mass of particle: "; Txt "q";
           Txt " in Coulomb_logarithm."])) /\
  Coulomb_logarithm (H1 := sparse) 1%R 1%R ["e"; "x"]%string None (World [] []) =
  (World [] [],
   Err (Raise ValueError
          [Txt "Unable to find charge of particle: "; Txt "x";
           Txt " in Coulomb_logarithm."])).
Proof.
  split; [|split].
  - apply (Coulomb_logarithm_input_errors (H1 := sparse) 1%R 1%R ["p"%string]
             None (World [] [])).
    discriminate.
  - destruct (Coulomb_logarithm_input_errors (H1 := sparse) 1%R 1%R
                ["q"; "r"]%string None (World [] [])) as [_ Hp].
    destruct (Hp "q"%string "r"%string eq_refl) as [Hq _].
    apply Hq. reflexivity.
  - destruct (Coulomb_logarithm_input_errors (H1 := sparse) 1%R 1%R
                ["e"; "x"]%string None (World [] [])) as [_ Hp].
    destruct (Hp "e"%string "x"%string eq_refl) as [_ [_ [_ Hx]]].
    apply Hx; try discriminate. reflexivity.
Defined.


(** Electrons on protons and protons on electrons. *)
Lemma Coulomb_logarithm_symmetric_witness :
  Coulomb_logarithm (H1 := demo) 1%R 1%R ["e"; "p"]%string None (World [] []) =
  Coulomb_logarithm (H1 := demo) 1%R 1%R ["p"; "e"]%string None (World [] []).
Proof.
  exact (Coulomb_logarithm_symmetric (H := demo) 1%R 1%R "e" "p" None
           (World [] []) (lit 1) (lit 1836) (lit (-1)) (lit 1)
           eq_refl eq_refl eq_refl eq_refl).
Defined.

(** ** The charge states and the orientations the evaluators accept *)

Section LookupOutcomes.
Context {A : Type} `{Arith A}.

Lemma check_Z_match (allowed_Z : list (zkey A)) (Z : A) (caller : string) :
  (exists k, In k allowed_Z /\ Z_eq Z k = true) ->
  exists i, check_Z allowed_Z Z caller = Ok i.
Proof.
  intros [k [Hin Hk]]. unfold check_Z. rewrite find_arbitrary_flag, find_Z_last.
  pose proof (fold_last_spec (Z_eq Z) allowed_Z) as HZ.
  destruct (fold_left (last_step (Z_eq Z)) (enumerate allowed_Z) None) as [i|].
  - exists i.
    now destruct (fold_left (last_step is_arbitrary) (enumerate allowed_Z) None).
  - rewrite (HZ k Hin) in Hk. discriminate Hk.
Qed.

Lemma check_Z_no_match (allowed_Z : list (zkey A)) (Z : A) (caller : string) :
  (forall k, In k allowed_Z -> Z_eq Z k = false) ->
  ~ In KArbitrary allowed_Z ->
  check_Z allowed_Z Z caller =
  Err (Raise PhysicsError
         [Num Z; Txt " is not an available Z value in "; Txt caller]).
Proof.
  intros Hno Hnarb. unfold check_Z. rewrite find_arbitrary_flag, find_Z_last.
  pose proof (fold_last_spec (Z_eq Z) allowed_Z) as HZ.
  pose proof (fold_last_spec is_arbitrary allowed_Z) as HA.
  destruct (fold_left (last_step (Z_eq Z)) (enumerate allowed_Z) None) as [i|].
  - destruct HZ as [[k [Hk Hp]] _].
    rewrite (Hno k (nth_error_In _ _ Hk)) in Hp. discriminate Hp.
  - destruct (fold_left (last_step is_arbitrary) (enumerate allowed_Z) None)
      as [i|]; [|reflexivity].
    destruct HA as [[k [Hk Hp]] _]. apply is_arbitrary_true in Hp. subst k.
    exfalso. apply Hnarb. eapply nth_error_In; eauto.
Qed.

End LookupOutcomes.

Lemma orientation_cases (field_orientation : string) :
  In field_orientation valid_fields <->
  is_par field_orientation || is_perp field_orientation ||
  is_cross field_orientation || is_all field_orientation = true.
Proof.
  unfold is_par, is_perp, is_cross, is_all, valid_fields.
  rewrite !orb_true_iff, !String.eqb_eq. simpl.
  split; intros E; intuition congruence.
Qed.

Section Domains.
Context {A : Type} `{Transc A}.
Local Open Scope string_scope.

Ltac rows E :=
  let Hlt := fresh "Hlt" in
  pose proof (check_Z_in_range _ _ _ _ E) as Hlt; simpl in Hlt;
  match type of E with
  | check_Z _ _ _ = Ok ?idx =>
      destruct idx as [|[|[|[|[|?]]]]]; try (exfalso; lia)
  end.

Ltac any_branch :=
  repeat match goal with
         | |- context [if ?b then _ else _] => destruct b
         end;
  eexists; reflexivity.

Ltac accepted E :=
  rewrite E; cbn [rbind getitem nth_error]; any_branch.

Ltac refused :=
  rewrite check_Z_no_match;
  [reflexivity|assumption|
   simpl; intros F; repeat (destruct F as [F|F]; [discriminate F|]);
   exact F].

(** X11.  The charge states the table-driven evaluators accept, whatever
    the Hall parameter and the orientation are: 1, 2, 4, 16 and infinity
    for the three Spitzer-Harm evaluators (3 is refused); 1, 2, 3, 4 and
    infinity for the Braginskii electron thermal conductivity, resistivity
    and thermoelectric conductivity; 1 only for the Braginskii electron
    viscosity.  For an accepted [Z] they return and raise no [IndexError];
    any other [Z] raises the [PhysicsError] of [check_Z]. *)
Theorem table_Z_domains (hall : A) (field_orientation : string) :
  accepts_exactly
    [KNum (lit 1); KNum (lit 2); KNum (lit 4); KNum (lit 16); KInf]
    "get_spitzer_harm_coeffs" nondim_tc_e_spitzer /\
  accepts_exactly
    [KNum (lit 1); KNum (lit 2); KNum (lit 4); KNum (lit 16); KInf]
    "get_spitzer_harm_coeffs" nondim_resist_spitzer /\
  accepts_exactly
    [KNum (lit 1); KNum (lit 2); KNum (lit 4); KNum (lit 16); KInf]
    "get_spitzer_harm_coeffs" nondim_tec_spitzer /\
  accepts_exactly braginskii_allowed_Z "nondim_tc_e_braginskii"
    (fun Z => nondim_tc_e_braginskii hall Z field_orientation) /\
  accepts_exactly braginskii_allowed_Z "nondim_resist_braginskii"
    (fun Z => nondim_resist_braginskii hall Z field_orientation) /\
  accepts_exactly braginskii_allowed_Z "nondim_tec_braginskii"
    (fun Z => nondim_tec_braginskii hall Z field_orientation) /\
  accepts_exactly [KNum (lit 1)] "nondim_visc_e_braginskii"
    (nondim_visc_e_braginskii hall).
Proof.
  repeat split; intros Hyp.
  - destruct (check_Z_match _ _ "get_spitzer_harm_coeffs" Hyp) as [i E].
    rows E; unfold nondim_tc_e_spitzer, get_spitzer_harm_coeffs; rewrite E;
      eexists; reflexivity.
  - unfold nondim_tc_e_spitzer. unfold get_spitzer_harm_coeffs. refused.
  - destruct (check_Z_match _ _ "get_spitzer_harm_coeffs" Hyp) as [i E].
    rows E; unfold nondim_resist_spitzer, get_spitzer_harm_coeffs; rewrite E;
      eexists; reflexivity.
  - unfold nondim_resist_spitzer. unfold get_spitzer_harm_coeffs. refused.
  - destruct (check_Z_match _ _ "get_spitzer_harm_coeffs" Hyp) as [i E].
    rows E; unfold nondim_tec_spitzer, get_spitzer_harm_coeffs; rewrite E;
      eexists; reflexivity.
  - unfold nondim_tec_spitzer. unfold get_spitzer_harm_coeffs. refused.
  - destruct (check_Z_match _ _ "nondim_tc_e_braginskii" Hyp) as [i E].
    unfold nondim_tc_e_braginskii. rows E; accepted E.
  - unfold nondim_tc_e_braginskii. refused.
  - destruct (check_Z_match _ _ "nondim_resist_braginskii" Hyp) as [i E].
    unfold nondim_resist_braginskii. rows E; accepted E.
  - unfold nondim_resist_braginskii. refused.
  - destruct (check_Z_match _ _ "nondim_tec_braginskii" Hyp) as [i E].
    unfold nondim_tec_braginskii. rows E; accepted E.
  - unfold nondim_tec_braginskii. refused.
  - destruct (check_Z_match _ _ "nondim_visc_e_braginskii" Hyp) as [i E].
    unfold nondim_visc_e_braginskii. rewrite E. eexists. reflexivity.
  - unfold nondim_visc_e_braginskii. refused.
Qed.

End Domains.

(** Charge state 3 on the reals: refused by the Spitzer-Harm resistivity,
    accepted by the Braginskii one. *)
Lemma table_Z_domains_witness :
  nondim_resist_spitzer (A := R) (lit 3) =
    Err (Raise PhysicsError
           [Num (lit 3); Txt " is not an available Z value in ";
            Txt "get_spitzer_harm_coeffs"]) /\
  exists v, nondim_resist_braginskii (A := R) (lit 0) (lit 3) "perp" = Ok v.
Proof.
  destruct (table_Z_domains (A := R) (lit 0) "perp")
    as (_ & Hs & _ & _ & Hb & _).
  split.
  - apply (Hs (lit 3)).
    intros k [<-|[<-|[<-|[<-|[<-|[]]]]]]; cbn [Z_eq];
      rewrite ?feqb_lit; reflexivity.
  - apply (Hb (lit 3)). exists (KNum (lit 3)). split.
    + simpl. auto.
    + cbn [Z_eq]. now rewrite feqb_lit.
Defined.

Section Orientations.
Context {A : Type} `{Transc A}.
Local Open Scope string_scope.

Ltac rows E :=
  let Hlt := fresh "Hlt" in
  pose proof (check_Z_in_range _ _ _ _ E) as Hlt; simpl in Hlt;
  match type of E with
  | check_Z _ _ _ = Ok ?idx =>
      destruct idx as [|[|[|[|[|?]]]]]; try (exfalso; lia)
  end.

Lemma ji_held_row (Z : A) (caller : string) :
  check_Z ji_held_allowed_Z Z caller =
  Ok (if feqb Z (lit 2) then 1 else if feqb Z (lit 1) then 0 else 2).
Proof.
  unfold check_Z, find_arbitrary, find_Z, enumerate, ji_held_allowed_Z.
  cbn [List.length seq combine fold_left fst snd is_arbitrary Z_eq].
  destruct (feqb Z (lit 2)), (feqb Z (lit 1)); reflexivity.
Qed.

Ltac not_refused Z F :=
  rewrite ji_held_row in F;
  destruct (feqb Z (lit 2)), (feqb Z (lit 1));
  cbn [rbind getitem nth_error] in F;
  repeat match type of F with
         | context [if ?b then _ else _] => destruct b
         end;
  discriminate F.

(** X12.  The list of charge states of the four Ji-Held electron
    evaluators, [[1, 2, 'arbitrary']], refuses no charge state: for every
    [Z] the lookup returns a row, 1 for a [Z] equal to 2, 0 for a [Z] equal
    to 1, and for any other [Z] the row 2 of ['arbitrary'], which holds the
    fitted formulas in [Z].  So none of the four evaluators raises the
    [PhysicsError] with which the Spitzer-Harm and Braginskii evaluators
    refuse a charge state. *)
Theorem no_charge_state_refused (hall Z : A)
  (field_orientation caller : string) :
  let refusal := fun name : string =>
    Err (X := pyval A)
      (Raise PhysicsError
         [Num Z; Txt " is not an available Z value in "; Txt name]) in
  check_Z ji_held_allowed_Z Z caller =
    Ok (if feqb Z (lit 2) then 1 else if feqb Z (lit 1) then 0 else 2) /\
  nondim_tc_e_ji_held hall Z field_orientation <>
    refusal "nondim_tc_e_ji_held" /\
  nondim_resist_ji_held hall Z field_orientation <>
    refusal "nondim_resist_ji_held" /\
  nondim_tec_ji_held hall Z field_orientation <>
    refusal "nondim_tec_ji_held" /\
  nondim_visc_e_ji_held hall Z <> refusal "nondim_visc_e_ji_held".
Proof.
  intros refusal. unfold refusal.
  split; [apply ji_held_row|].
  repeat match goal with |- _ /\ _ => split end; intros F.
  - unfold nondim_tc_e_ji_held in F. not_refused Z F.
  - unfold nondim_resist_ji_held in F. not_refused Z F.
  - unfold nondim_tec_ji_held in F. not_refused Z F.
  - unfold nondim_visc_e_ji_held in F. not_refused Z F.
Qed.

Ltac decide_None E :=
  repeat match type of E with
         | context [if ?b then _ else _] =>
             let Hb := fresh "Hb" in destruct b eqn:Hb
         end;
  injection E as <-;
  rewrite orientation_cases;
  repeat match goal with
         | Hb : _ = _ |- _ => rewrite Hb; clear Hb
         end;
  cbn [orb]; split; intros F; try discriminate F; try reflexivity;
  try (exfalso; apply F; reflexivity); try (intros G; discriminate G).

(** X13.  The eight evaluators that take an orientation reach a [return]
    exactly for the six names [classical_transport] lets through: for any
    other orientation they return [None], and for none of the six do they. *)
Theorem orientations_with_a_result (hall Z mu theta : A) :
  returns_None_outside valid_fields (nondim_tc_e_braginskii hall Z) /\
  returns_None_outside valid_fields (nondim_tc_i_braginskii hall) /\
  returns_None_outside valid_fields (nondim_resist_braginskii hall Z) /\
  returns_None_outside valid_fields (nondim_tec_braginskii hall Z) /\
  returns_None_outside valid_fields (nondim_tc_e_ji_held hall Z) /\
  returns_None_outside valid_fields (nondim_resist_ji_held hall Z) /\
  returns_None_outside valid_fields (nondim_tec_ji_held hall Z) /\
  returns_None_outside valid_fields (nondim_tc_i_ji_held hall Z mu theta).
Proof.
  repeat match goal with |- _ /\ _ => split end; intros fo v.
  - unfold nondim_tc_e_braginskii.
    destruct (check_Z _ _ _) as [i|ex] eqn:Ei; [|discriminate].
    rows Ei; cbn [rbind getitem nth_error]; intros E; decide_None E.
  - unfold nondim_tc_i_braginskii. intros E; decide_None E.
  - unfold nondim_resist_braginskii.
    destruct (check_Z _ _ _) as [i|ex] eqn:Ei; [|discriminate].
    rows Ei; cbn [rbind getitem nth_error]; intros E; decide_None E.
  - unfold nondim_tec_braginskii.
    destruct (check_Z _ _ _) as [i|ex] eqn:Ei; [|discriminate].
    rows Ei; cbn [rbind getitem nth_error]; intros E; decide_None E.
  - unfold nondim_tc_e_ji_held.
    destruct (check_Z _ _ _) as [i|ex] eqn:Ei; [|discriminate].
    rows Ei; cbn [rbind getitem nth_error]; intros E; decide_None E.
  - unfold nondim_resist_ji_held.
    destruct (check_Z _ _ _) as [i|ex] eqn:Ei; [|discriminate].
    rows Ei; cbn [rbind getitem nth_error]; intros E; decide_None E.
  - unfold nondim_tec_ji_held.
    destruct (check_Z _ _ _) as [i|ex] eqn:Ei; [|discriminate].
    rows Ei; cbn [rbind getitem nth_error]; intros E; decide_None E.
  - unfold nondim_tc_i_ji_held. cbn [K Nat.eqb rbind].
    intros E; decide_None E.
Qed.

End Orientations.

(** An orientation outside the six names, and one of them. *)
Lemma orientations_with_a_result_witness :
  ~ In "diagonal"%string valid_fields /\
  nondim_resist_braginskii (A := R) (lit 0) (lit 1) "diagonal" = Ok None /\
  exists x : R,
    nondim_resist_braginskii (A := R) (lit 0) (lit 1) "perp" =
    Ok (Some (Scalar x)).
Proof.
  assert (nondim_resist_braginskii (A := R) (lit 0) (lit 1) "diagonal" =
          Ok None) as E.
  { unfold nondim_resist_braginskii. rewrite braginskii_row_of_1.
    reflexivity. }
  destruct (orientations_with_a_result (A := R) (lit 0) (lit 1) (lit 1) (lit 1))
    as (_ & _ & Hr & _).
  split; [|split].
  - now apply (Hr "diagonal"%string None E).
  - exact E.
  - unfold nondim_resist_braginskii. rewrite braginskii_row_of_1.
    eexists. reflexivity.
Defined.

(** ** The Hall parameter: sign and zero *)

Section FieldReversal.
Local Open Scope R_scope.

Lemma perp_even (c_1 c_0 delta_1 delta_0 x : R) :
  (c_1 * (- x) ^ 2 + c_0) / ((- x) ^ 4 + delta_1 * (- x) ^ 2 + delta_0) =
  (c_1 * x ^ 2 + c_0) / (x ^ 4 + delta_1 * x ^ 2 + delta_0).
Proof.
  replace ((- x) ^ 2) with (x ^ 2) by ring.
  replace ((- x) ^ 4) with (x ^ 4) by ring. reflexivity.
Qed.

Lemma cross_odd (c_1 c_0 delta_1 delta_0 x : R) :
  (c_1 * (- x) ^ 3 + c_0 * - x) / ((- x) ^ 4 + delta_1 * (- x) ^ 2 + delta_0) =
  - ((c_1 * x ^ 3 + c_0 * x) / (x ^ 4 + delta_1 * x ^ 2 + delta_0)).
Proof.
  replace ((- x) ^ 2) with (x ^ 2) by ring.
  replace ((- x) ^ 4) with (x ^ 4) by ring.
  rewrite <- Rdiv_opp_l. f_equal. ring.
Qed.

Lemma cross_is_not_par (field_orientation : string) :
  is_cross field_orientation = true ->
  is_par field_orientation = false /\ is_perp field_orientation = false /\
  is_all field_orientation = false.
Proof.
  unfold is_cross, is_par, is_perp, is_all. intros E.
  apply String.eqb_eq in E. subst. repeat split; reflexivity.
Qed.

Ltac rows E :=
  let Hlt := fresh "Hlt" in
  pose proof (check_Z_in_range _ _ _ _ E) as Hlt; simpl in Hlt;
  match type of E with
  | check_Z _ _ _ = Ok ?idx =>
      destruct idx as [|[|[|[|[|?]]]]]; try (exfalso; lia)
  end.

Ltac reversed fo :=
  destruct (is_cross fo) eqn:Hcross;
  [destruct (cross_is_not_par fo Hcross) as [-> [-> _]]
  |destruct (is_par fo), (is_perp fo), (is_all fo)];
  cbn [rbind getitem nth_error flip_cross
       braginskii_delta_0 braginskii_delta_1
       tc_e_gamma_1_prime tc_e_gamma_0_prime
       tc_e_gamma_1_doubleprime tc_e_gamma_0_doubleprime
       resist_alpha_1_prime resist_alpha_0_prime
       resist_alpha_1_doubleprime resist_alpha_0_doubleprime
       tec_beta_1_prime tec_beta_0_prime
       tec_beta_1_doubleprime tec_beta_0_doubleprime
       fadd fsub fmul fdiv fpow Arith_R];
  rewrite ?Hcross, ?perp_even, ?cross_odd; reflexivity.

(** X14.  Reversing the magnetic field, that is the sign of the Hall
    parameter, leaves the parallel and the perpendicular component of the
    four Braginskii coefficients that take an orientation as they are and
    changes the sign of the cross component, for each single request and
    within the array of ["all"]. *)
Theorem braginskii_field_reversal (hall Z : R) (field_orientation : string) :
  nondim_tc_e_braginskii (- hall) Z field_orientation =
    flip_cross field_orientation
      (nondim_tc_e_braginskii hall Z field_orientation) /\
  nondim_tc_i_braginskii (- hall) field_orientation =
    flip_cross field_orientation
      (nondim_tc_i_braginskii hall field_orientation) /\
  nondim_resist_braginskii (- hall) Z field_orientation =
    flip_cross field_orientation
      (nondim_resist_braginskii hall Z field_orientation) /\
  nondim_tec_braginskii (- hall) Z field_orientation =
    flip_cross field_orientation
      (nondim_tec_braginskii hall Z field_orientation).
Proof.
  split; [|split; [|split]].
  - unfold nondim_tc_e_braginskii.
    destruct (check_Z _ _ _) as [i|ex] eqn:Ei; [|reflexivity].
    rows Ei; reversed field_orientation.
  - unfold nondim_tc_i_braginskii. reversed field_orientation.
  - unfold nondim_resist_braginskii.
    destruct (check_Z _ _ _) as [i|ex] eqn:Ei; [|reflexivity].
    rows Ei; reversed field_orientation.
  - unfold nondim_tec_braginskii.
    destruct (check_Z _ _ _) as [i|ex] eqn:Ei; [|reflexivity].
    rows Ei; reversed field_orientation.
Qed.

(** X15.  The Ji-Held evaluators read the Hall parameter through an
    absolute value only: reversing the field changes none of their
    results, the cross components included. *)
Theorem ji_held_field_reversal (hall Z mu theta : R)
  (field_orientation : string) :
  nondim_tc_e_ji_held (- hall) Z field_orientation =
    nondim_tc_e_ji_held hall Z field_orientation /\
  nondim_resist_ji_held (- hall) Z field_orientation =
    nondim_resist_ji_held hall Z field_orientation /\
  nondim_tec_ji_held (- hall) Z field_orientation =
    nondim_tec_ji_held hall Z field_orientation /\
  nondim_visc_e_ji_held (- hall) Z = nondim_visc_e_ji_held hall Z /\
  nondim_tc_i_ji_held (- hall) Z mu theta field_orientation =
    nondim_tc_i_ji_held hall Z mu theta field_orientation /\
  nondim_visc_i_ji_held (- hall) Z mu theta =
    nondim_visc_i_ji_held hall Z mu theta.
Proof.
  assert (fabs (fmul Z (- hall)) = fabs (fmul Z hall)) as Ee.
  { cbn [fabs fmul Arith_R].
    now rewrite Ropp_mult_distr_r_reverse, Rabs_Ropp. }
  assert (fabs (fdiv (- hall) (fsqrt (lit 2))) =
          fabs (fdiv hall (fsqrt (lit 2)))) as Ei.
  { cbn [fabs fdiv Arith_R]. now rewrite Rdiv_opp_l, Rabs_Ropp. }
  repeat match goal with |- _ /\ _ => split end.
  - unfold nondim_tc_e_ji_held. now rewrite Ee.
  - unfold nondim_resist_ji_held. now rewrite Ee.
  - unfold nondim_tec_ji_held. now rewrite Ee.
  - unfold nondim_visc_e_ji_held. now rewrite Ee.
  - unfold nondim_tc_i_ji_held. now rewrite Ei.
  - unfold nondim_visc_i_ji_held. now rewrite Ei.
Qed.

End FieldReversal.

Section ZeroField.
Local Open Scope R_scope.

Lemma perp_at_0 (c_1 c_0 delta_1 delta_0 : R) :
  (c_1 * 0 ^ 2 + c_0) / (0 ^ 4 + delta_1 * 0 ^ 2 + delta_0) = c_0 / delta_0.
Proof. f_equal; ring. Qed.

Lemma cross_at_0 (c_1 c_0 delta_1 delta_0 : R) :
  (c_1 * 0 ^ 3 + c_0 * 0) / (0 ^ 4 + delta_1 * 0 ^ 2 + delta_0) = 0.
Proof.
  replace (c_1 * 0 ^ 3 + c_0 * 0) with 0 by ring.
  unfold Rdiv. apply Rmult_0_l.
Qed.

Ltac rows E :=
  let Hlt := fresh "Hlt" in
  pose proof (check_Z_in_range _ _ _ _ E) as Hlt; simpl in Hlt;
  match type of E with
  | check_Z _ _ _ = Ok ?idx =>
      destruct idx as [|[|[|[|[|?]]]]]; try (exfalso; lia)
  end.

Ltac at_zero :=
  cbn [rbind getitem nth_error isotropic is_par is_perp is_cross is_all
       String.eqb Ascii.eqb Bool.eqb orb
       braginskii_delta_0 braginskii_delta_1
       tc_e_gamma_1_prime tc_e_gamma_0_prime
       tc_e_gamma_1_doubleprime tc_e_gamma_0_doubleprime
       resist_alpha_1_prime resist_alpha_0_prime
       resist_alpha_1_doubleprime resist_alpha_0_doubleprime
       tec_beta_1_prime tec_beta_0_prime
       tec_beta_1_doubleprime tec_beta_0_doubleprime
       fadd fsub fmul fdiv fpow Arith_R];
  rewrite ?perp_at_0, ?cross_at_0; reflexivity.

(** X16.  Without a magnetic field, Hall parameter 0, the Braginskii
    electron thermal conductivity, resistivity and thermoelectric
    conductivity are isotropic: the perpendicular component is the parallel
    one and the cross component is 0.  The Braginskii ion thermal
    conductivity is not: its cross component is 0, but its perpendicular
    component at Hall parameter 0 is 2.645/0.677 where the parallel one is
    the rounded 3.906. *)
Theorem zero_field_components (Z : R) :
  nondim_tc_e_braginskii 0 Z "all" =
    isotropic (nondim_tc_e_braginskii 0 Z "parallel") /\
  nondim_resist_braginskii 0 Z "all" =
    isotropic (nondim_resist_braginskii 0 Z "parallel") /\
  nondim_tec_braginskii 0 Z "all" =
    isotropic (nondim_tec_braginskii 0 Z "parallel") /\
  nondim_tc_i_braginskii 0 "all" =
    Ok (Some (Array [lit 3.906; lit 2.645 / lit 0.677; 0])) /\
  lit 2.645 / lit 0.677 <> lit 3.906 :> R.
Proof.
  split; [|split; [|split; [|split]]].
  - unfold nondim_tc_e_braginskii.
    destruct (check_Z _ _ _) as [i|ex] eqn:Ei; [|reflexivity].
    rows Ei; at_zero.
  - unfold nondim_resist_braginskii.
    destruct (check_Z _ _ _) as [i|ex] eqn:Ei; [|reflexivity].
    rows Ei; at_zero.
  - unfold nondim_tec_braginskii.
    destruct (check_Z _ _ _) as [i|ex] eqn:Ei; [|reflexivity].
    rows Ei; at_zero.
  - unfold nondim_tc_i_braginskii. at_zero.
  - cbn [lit fdiv Arith_R]. unfold Q2R. simpl. intros E. lra.
Qed.

End ZeroField.

(** ** The viscosity components *)

Section ViscosityComponents.
Local Open Scope R_scope.

Lemma same_numerator (a b c : R) : a <> 0 -> a / b = a / c -> b = c.
Proof.
  intros Ha E. unfold Rdiv in E.
  apply Rmult_eq_reg_l in E; [|exact Ha]. now apply Rinv_eq_reg.
Qed.

(** X17.  In the Braginskii electron viscosity, components 1 and 3 are
    components 2 and 4 at twice the Hall parameter.  In the Braginskii ion
    viscosity they are not, for any Hall parameter other than 0: there
    components 1 and 3 take the numerators of components 2 and 4 at twice
    the Hall parameter over the quartic at the Hall parameter itself. *)
Theorem viscosity_at_twice_the_Hall_parameter (hall Z : R) :
  component (nondim_visc_e_braginskii hall Z) 1 =
    component (nondim_visc_e_braginskii (lit 2 * hall)%num Z) 2 /\
  component (nondim_visc_e_braginskii hall Z) 3 =
    component (nondim_visc_e_braginskii (lit 2 * hall)%num Z) 4 /\
  (hall <> 0 ->
   component (nondim_visc_i_braginskii hall) 1 <>
     component (nondim_visc_i_braginskii (lit 2 * hall)%num) 2 /\
   component (nondim_visc_i_braginskii hall) 3 <>
     component (nondim_visc_i_braginskii (lit 2 * hall)%num) 4).
Proof.
  split; [|split].
  - unfold nondim_visc_e_braginskii.
    destruct (check_Z _ _ _); reflexivity.
  - unfold nondim_visc_e_braginskii.
    destruct (check_Z _ _ _); reflexivity.
  - intros Hh. assert (0 < hall * hall) as Hsq by nra.
    unfold nondim_visc_i_braginskii, component.
    cbn [nth_error lit fadd fmul fdiv fpow Arith_R].
    split; intros E; injection E as E; apply same_numerator in E.
    + unfold Q2R in E. simpl in E. nra.
    + unfold Q2R. simpl. nra.
    + unfold Q2R in E. simpl in E. nra.
    + unfold Q2R. simpl. intros F.
      assert (hall * (8 * (hall * hall) + 476 / 100) = 0) as G by lra.
      apply Rmult_integral in G as [G|G]; [contradiction|nra].
Qed.

End ViscosityComponents.

(** Hall parameter 1. *)
Lemma viscosity_at_twice_the_Hall_parameter_witness :
  component (nondim_visc_i_braginskii 1%R) 1 <>
    component (nondim_visc_i_braginskii (lit 2 * 1%R)%num) 2 /\
  component (nondim_visc_i_braginskii 1%R) 3 <>
    component (nondim_visc_i_braginskii (lit 2 * 1%R)%num) 4.
Proof.
  apply (viscosity_at_twice_the_Hall_parameter 1%R 1%R). lra.
Defined.

Section ViscosityPlaceholder.
Context {A : Type} `{Transc A} `{Collaborators A}.
Local Open Scope string_scope.
Local Open Scope num_scope.

(** X18.  Under a model that has no viscosity, any name but ["braginskii"]
    and ["ji-held"] and so the two Spitzer-Harm names that
    [classical_transport] lets through, the ion and the electron viscosity
    raise a [TypeError]: the placeholder 1 of the dispatch is indexed as if
    it were the array of five components.  The ion thermal conductivity
    under such a model raises nothing and returns the placeholder in
    physical units, [1 * n_i * k_B^2 * T_i * tau_i / m_i]. *)
Theorem viscosity_without_evaluator (T n : A) (ion_particle e_particle : string)
  (Z B : A) (model field_orientation : string) (coulomb_log : A)
  (V : option A) (hall : A) (mu theta : option A) :
  model <> "braginskii" -> model <> "ji-held" ->
  ion_viscosity T n ion_particle Z B model field_orientation coulomb_log V
    hall mu theta =
    Err (Raise TypeError [Txt "'int' object is not subscriptable"]) /\
  electron_viscosity T n ion_particle e_particle Z B model field_orientation
    coulomb_log V hall mu theta =
    Err (Raise TypeError [Txt "'int' object is not subscriptable"]) /\
  (forall m_i : A,
     ion_mass ion_particle = Some m_i -> _is_electron ion_particle = false ->
     ion_thermal_conductivity T n ion_particle Z B model field_orientation
       coulomb_log V hall mu theta =
     Ok (Scalar (lit 1 * (n * k_B ^ 2 * T *
                          (lit 1 / ion_ion_collision_rate T n ion_particle
                                     coulomb_log V) / m_i)))).
Proof.
  intros Hb Hj. apply String.eqb_neq in Hb, Hj.
  unfold ion_viscosity, electron_viscosity, ion_thermal_conductivity,
    nondim_viscosity, nondim_thermal_conductivity.
  rewrite Hb, Hj. split; [|split].
  - destruct (_is_electron ion_particle); reflexivity.
  - destruct (_is_electron e_particle); reflexivity.
  - intros m_i -> ->. reflexivity.
Qed.

End ViscosityPlaceholder.

(** Protons under Spitzer-Harm. *)
Lemma viscosity_without_evaluator_witness :
  ion_viscosity (H1 := demo) 1%R 1%R "p" (lit 1) 0%R "spitzer" "parallel"
    (lit 10) None (lit 0) None None =
    Err (Raise TypeError [Txt "'int' object is not subscriptable"]) /\
  electron_viscosity (H1 := demo) 1%R 1%R "p" "e" (lit 1) 0%R "spitzer"
    "parallel" (lit 10) None (lit 0) None None =
    Err (Raise TypeError [Txt "'int' object is not subscriptable"]).
Proof.
  destruct (viscosity_without_evaluator (H1 := demo) 1%R 1%R "p" "e" (lit 1)
              0%R "spitzer" "parallel" (lit 10) None (lit 0) None None)
    as [Hi [He _]]; try discriminate.
  split; [exact Hi|exact He].
Defined.

(** ** The size of the perpendicular components *)

Section PerpendicularSize.
Local Open Scope R_scope.

Lemma ratio_le (a b c d : R) :
  0 < b -> 0 < d -> a * d <= c * b -> a / b <= c / d.
Proof.
  intros Hb Hd Hle.
  apply (Rmult_le_reg_r (b * d)); [nra|].
  replace (a / b * (b * d)) with (a * d) by (field; lra).
  replace (c / d * (b * d)) with (c * b) by (field; lra).
  exact Hle.
Qed.

(** The quartic of the Braginskii evaluators is at least [delta_0]: with
    positive table entries no Hall parameter makes a denominator vanish. *)
Lemma quartic_positive (delta_1 delta_0 x : R) :
  0 < delta_1 -> 0 < delta_0 -> delta_0 <= x ^ 4 + delta_1 * x ^ 2 + delta_0.
Proof.
  intros H1 H0. assert (0 <= x ^ 2) by nra.
  assert (0 <= x ^ 4) by (replace (x ^ 4) with (x ^ 2 * x ^ 2) by ring; nra).
  nra.
Qed.

Lemma perp_le_par (c_1 c_0 delta_1 delta_0 x : R) :
  0 < c_1 -> 0 < c_0 -> 0 < delta_1 -> 0 < delta_0 ->
  c_1 * delta_0 <= c_0 * delta_1 ->
  0 < (c_1 * x ^ 2 + c_0) / (x ^ 4 + delta_1 * x ^ 2 + delta_0) <=
  c_0 / delta_0.
Proof.
  intros Hc1 Hc0 Hd1 Hd0 Hle.
  pose proof (quartic_positive delta_1 delta_0 x Hd1 Hd0) as HD.
  assert (0 <= x ^ 2) as Hy by nra.
  split.
  - apply Rdiv_lt_0_compat; nra.
  - apply ratio_le; [lra|lra|].
    replace (x ^ 4) with (x ^ 2 * x ^ 2) by ring.
    set (y := x ^ 2) in *.
    assert (0 <= c_0 * (y * y)) by (apply Rmult_le_pos; nra).
    assert (0 <= (c_0 * delta_1 - c_1 * delta_0) * y)
      by (apply Rmult_le_pos; lra).
    nra.
Qed.

Lemma one_minus_perp (c_1 c_0 delta_1 delta_0 x one : R) :
  0 < c_1 -> 0 < c_0 -> 0 < delta_1 -> 0 < delta_0 ->
  c_1 * delta_0 <= c_0 * delta_1 ->
  one - c_0 / delta_0 <=
  one - (c_1 * x ^ 2 + c_0) / (x ^ 4 + delta_1 * x ^ 2 + delta_0) < one.
Proof.
  intros Hc1 Hc0 Hd1 Hd0 Hle.
  pose proof (perp_le_par c_1 c_0 delta_1 delta_0 x Hc1 Hc0 Hd1 Hd0 Hle).
  lra.
Qed.

Ltac rows E :=
  let Hlt := fresh "Hlt" in
  pose proof (check_Z_in_range _ _ _ _ E) as Hlt; simpl in Hlt;
  match type of E with
  | check_Z _ _ _ = Ok ?idx =>
      destruct idx as [|[|[|[|[|?]]]]]; try (exfalso; lia)
  end.

Ltac table_row :=
  cbn [rbind getitem nth_error is_par is_perp is_cross is_all
       String.eqb Ascii.eqb Bool.eqb orb
       braginskii_delta_0 braginskii_delta_1
       tc_e_gamma_1_prime tc_e_gamma_0_prime
       tc_e_gamma_1_doubleprime tc_e_gamma_0_doubleprime
       resist_alpha_1_prime resist_alpha_0_prime
       resist_alpha_1_doubleprime resist_alpha_0_doubleprime
       tec_beta_1_prime tec_beta_0_prime
       tec_beta_1_doubleprime tec_beta_0_doubleprime
       fadd fsub fmul fdiv fpow Arith_R_inf].

Ltac by_the_table :=
  cbn [lit Arith_R_inf]; unfold Q2R; simpl; lra.

(** X19.  In the Braginskii model a magnetic field never raises the
    transport of electrons across it above the transport along it: for
    each of the five tabulated charge states, 1, 2, 3, 4 and infinity, and
    every Hall parameter, the perpendicular electron thermal conductivity
    and thermoelectric conductivity are positive and at most the parallel
    ones, and the perpendicular resistivity is at least the parallel one
    and below 1.  The arithmetic is that of the reals with any test for
    infinity, so that the row of infinity is among the rows. *)
Theorem perpendicular_transport_is_reduced (pinf : R -> bool)
  (hall Z par perp cross : R) :
  (nondim_tc_e_braginskii (H := Arith_R_inf pinf) hall Z "all" =
     Ok (Some (Array [par; perp; cross])) ->
   0 < perp <= par) /\
  (nondim_tec_braginskii (H := Arith_R_inf pinf) hall Z "all" =
     Ok (Some (Array [par; perp; cross])) ->
   0 < perp <= par) /\
  (nondim_resist_braginskii (H := Arith_R_inf pinf) hall Z "all" =
     Ok (Some (Array [par; perp; cross])) ->
   par <= perp < Q2R 1).
Proof.
  split; [|split].
  - unfold nondim_tc_e_braginskii.
    destruct (check_Z _ _ _) as [i|ex] eqn:Ei; [|discriminate].
    rows Ei; table_row; intros [= <- <- <-]; apply perp_le_par; by_the_table.
  - unfold nondim_tec_braginskii.
    destruct (check_Z _ _ _) as [i|ex] eqn:Ei; [|discriminate].
    rows Ei; table_row; intros [= <- <- <-]; apply perp_le_par; by_the_table.
  - unfold nondim_resist_braginskii.
    destruct (check_Z _ _ _) as [i|ex] eqn:Ei; [|discriminate].
    rows Ei; table_row; intros [= <- <- <-];
      apply one_minus_perp; by_the_table.
Qed.

End PerpendicularSize.

(** Equality of two literals on the reals, as [feqb_lit] has it, for any
    arithmetic with the comparisons of [Arith_R]. *)
Lemma Req_lit (a b : Q) :
  (if Req_dec_T (Q2R a) (Q2R b) then true else false) = Qeq_bool a b.
Proof. exact (feqb_lit a b). Qed.

Lemma beyond_doubles_lit (a : Q) :
  Qle_bool (2 ^ 1024) a = true -> beyond_doubles (Q2R a) = true.
Proof.
  intros E. unfold beyond_doubles.
  destruct (Rle_dec (Q2R (2 ^ 1024)) (Q2R a)) as [L|L]; [reflexivity|].
  exfalso. apply L, Qle_Rle. now apply Qle_bool_iff.
Qed.

(** A charge state beyond the doubles resolves to the row of infinity, and
    the charge state 1 to the first row. *)
Lemma braginskii_row_of_infinity (caller : string) :
  check_Z (H := Arith_R_inf beyond_doubles) braginskii_allowed_Z
    (Q2R (2 ^ 1025)) caller = Ok 4.
Proof.
  unfold check_Z, find_arbitrary, find_Z, enumerate, braginskii_allowed_Z.
  cbn [List.length seq combine fold_left fst snd is_arbitrary Z_eq
       feqb lit is_pinf Arith_R_inf].
  rewrite !Req_lit, beyond_doubles_lit by reflexivity. reflexivity.
Qed.

Lemma braginskii_first_row (pinf : R -> bool) (caller : string) :
  pinf (Q2R 1) = false ->
  check_Z (H := Arith_R_inf pinf) braginskii_allowed_Z (Q2R 1) caller = Ok 0.
Proof.
  intros Hp.
  unfold check_Z, find_arbitrary, find_Z, enumerate, braginskii_allowed_Z.
  cbn [List.length seq combine fold_left fst snd is_arbitrary Z_eq
       feqb lit is_pinf Arith_R_inf].
  rewrite !Req_lit, Hp. reflexivity.
Qed.

(** The charge state infinity, a number beyond the doubles, and the charge
    state 1, at Hall parameter 2. *)
Lemma perpendicular_transport_is_reduced_witness :
  (exists par perp cross : R,
     nondim_tc_e_braginskii (H := Arith_R_inf beyond_doubles) 2%R
       (Q2R (2 ^ 1025)) "all" = Ok (Some (Array [par; perp; cross])) /\
     (0 < perp <= par)%R) /\
  (exists par perp cross : R,
     nondim_resist_braginskii (H := Arith_R_inf (fun _ => false)) 2%R
       (Q2R 1) "all" = Ok (Some (Array [par; perp; cross])) /\
     (par <= perp < Q2R 1)%R).
Proof.
  split.
  - assert (exists par perp cross : R,
              nondim_tc_e_braginskii (H := Arith_R_inf beyond_doubles) 2%R
                (Q2R (2 ^ 1025)) "all" =
              Ok (Some (Array [par; perp; cross])))
      as (par & perp & cross & E).
    { unfold nondim_tc_e_braginskii. rewrite braginskii_row_of_infinity.
      do 3 eexists. reflexivity. }
    exists par, perp, cross. split; [exact E|].
    exact (proj1 (perpendicular_transport_is_reduced beyond_doubles 2%R
                    (Q2R (2 ^ 1025)) par perp cross) E).
  - assert (exists par perp cross : R,
              nondim_resist_braginskii (H := Arith_R_inf (fun _ => false)) 2%R
                (Q2R 1) "all" = Ok (Some (Array [par; perp; cross])))
      as (par & perp & cross & E).
    { unfold nondim_resist_braginskii.
      rewrite braginskii_first_row by reflexivity.
      do 3 eexists. reflexivity. }
    exists par, perp, cross. split; [exact E|].
    exact (proj2 (proj2 (perpendicular_transport_is_reduced (fun _ => false)
                           2%R (Q2R 1) par perp cross)) E).
Defined.


(** ** The coefficients in physical units *)

Section PhysicalUnits.
Context {A : Type} `{Transc A} `{Collaborators A}.
Local Open Scope string_scope.
Local Open Scope num_scope.





(** X21.  The keys of the dictionary [transport_funcs] are the six names
    the validation lets through.  So in the loop over a validated list the
    lookup never fails: when the loop raises, the exception is one that the
    transport function of a requested name raised. *)
Theorem requested_names_are_keys (T_e n_e T_i n_i : A)
  (ion_particle e_particle : string) (Z B : A)
  (model field_orientation : string)
  (coulomb_log_ei : A) (V_ei : option A) (coulomb_log_ii : A) (V_ii : option A)
  (hall_e hall_i : A) (mu theta : option A) :
  let funcs :=
    transport_funcs T_e n_e T_i n_i ion_particle e_particle Z B model
      field_orientation coulomb_log_ei V_ei coulomb_log_ii V_ii hall_e hall_i
      mu theta in
  (forall coeff : string, In coeff valid_coeffs <-> funcs coeff <> None) /\
  (forall (l : list string) (w w' : world A) (ex : exn A),
     Forall (fun coeff => In coeff valid_coeffs) l ->
     call_each funcs l w = (w', Err ex) ->
     exists coeff, In coeff l /\ funcs coeff = Some (Err ex)).
Proof.
  intros funcs.
  assert (forall coeff : string, In coeff valid_coeffs <-> funcs coeff <> None)
    as Hkeys.
  { intros coeff. unfold funcs, transport_funcs. split.
    - intros Hin. simpl in Hin.
      repeat (destruct Hin as [<-|Hin];
              [cbn [String.eqb Ascii.eqb Bool.eqb]; discriminate|]).
      contradiction.
    - repeat match goal with
             | |- context [(?s =? ?t)%string] =>
                 let E := fresh "E" in
                 destruct (s =? t)%string eqn:E;
                 [apply String.eqb_eq in E; subst; intros _; simpl; tauto|]
             end.
      intros F. now contradiction F. }
  split; [exact Hkeys|].
  induction l as [|c l IH]; intros w w' ex Hl E; [discriminate E|].
  inversion Hl as [|c' l' Hc Hl']; subst.
  cbn [call_each] in E. apply Hkeys in Hc.
  destruct (funcs c) as [[x|ex0]|] eqn:Ec; [| |now contradiction Hc].
  - unfold bind at 1 in E. unfold emit at 1 in E.
    unfold bind at 1 in E. unfold lift at 1 in E.
    unfold bind at 1 in E.
    destruct (call_each funcs l _) as [w'' [xs|ex1]] eqn:Er;
      [discriminate E|].
    injection E as <- <-.
    destruct (IH _ _ _ Hl' Er) as [coeff [Hin Hf]].
    exists coeff. split; [now right|exact Hf].
  - unfold bind at 1 in E. unfold emit at 1 in E.
    unfold bind at 1 in E. unfold lift at 1 in E.
    injection E as _ <-.
    exists c. split; [now left|exact Ec].
Qed.

End PhysicalUnits.


(** A validated request for two coefficients under Spitzer-Harm, the second
    a viscosity: the resistivity is evaluated, the viscosity raises. *)
Lemma spitzer_viscosity_run :
  call_each
    (transport_funcs (H1 := demo) 1%R 1%R 1%R 1%R "p" "e" (lit 1) 0%R
       "spitzer" "parallel" (lit 10) None (lit 10) None (lit 0) (lit 0)
       None None)
    ["resistivity"; "ion_viscosity"]%string (World [] []) =
  (World [] [Called "resistivity"; Called "ion_viscosity"],
   Err (Raise TypeError [Txt "'int' object is not subscriptable"])).
Proof.
  cbn [call_each]. unfold transport_funcs.
  cbn [String.eqb Ascii.eqb Bool.eqb].
  unfold resistivity, nondim_resisitivity.
  cbn [String.eqb Ascii.eqb Bool.eqb orb].
  unfold nondim_resist_spitzer, get_spitzer_harm_coeffs.
  rewrite spitzer_row_of_1. reflexivity.
Qed.

(** The exception of that run is the one [ion_viscosity] raised. *)
Lemma requested_names_are_keys_witness :
  exists coeff : string,
    In coeff ["resistivity"; "ion_viscosity"]%string /\
    transport_funcs (H1 := demo) 1%R 1%R 1%R 1%R "p" "e" (lit 1) 0%R
      "spitzer" "parallel" (lit 10) None (lit 10) None (lit 0) (lit 0)
      None None coeff =
    Some (Err (Raise TypeError [Txt "'int' object is not subscriptable"])).
Proof.
  apply (proj2 (requested_names_are_keys (H1 := demo) 1%R 1%R 1%R 1%R "p" "e"
                  (lit 1) 0%R "spitzer" "parallel" (lit 10) None (lit 10) None
                  (lit 0) (lit 0) None None)
           ["resistivity"; "ion_viscosity"]%string (World [] [])
           (World [] [Called "resistivity"; Called "ion_viscosity"])
           (Raise TypeError [Txt "'int' object is not subscriptable"])).
  - constructor; [simpl; auto|]. constructor; [simpl; tauto|constructor].
  - exact spitzer_viscosity_run.
Defined.

(** ** Components that do not feel the field *)

Section AlongTheField.
Context {A : Type} `{Transc A}.
Local Open Scope string_scope.

Ltac rows E :=
  let Hlt := fresh "Hlt" in
  pose proof (check_Z_in_range _ _ _ _ E) as Hlt; simpl in Hlt;
  match type of E with
  | check_Z _ _ _ = Ok ?idx =>
      destruct idx as [|[|[|[|[|?]]]]]; try (exfalso; lia)
  end.

(** X22.  The Hall parameter has no part in the transport along the field:
    the parallel result of the four Ji-Held evaluators that take an
    orientation, under either spelling, and component 0 of the four
    viscosity evaluators are the same for any two Hall parameters. *)
Theorem parallel_components_ignore_the_field (hall hall' Z mu theta : A) :
  (forall field_orientation : string,
     is_par field_orientation = true ->
     nondim_tc_e_ji_held hall Z field_orientation =
       nondim_tc_e_ji_held hall' Z field_orientation /\
     nondim_resist_ji_held hall Z field_orientation =
       nondim_resist_ji_held hall' Z field_orientation /\
     nondim_tec_ji_held hall Z field_orientation =
       nondim_tec_ji_held hall' Z field_orientation /\
     nondim_tc_i_ji_held hall Z mu theta field_orientation =
       nondim_tc_i_ji_held hall' Z mu theta field_orientation) /\
  component (nondim_visc_e_braginskii hall Z) 0 =
    component (nondim_visc_e_braginskii hall' Z) 0 /\
  component (nondim_visc_i_braginskii hall) 0 =
    component (nondim_visc_i_braginskii hall') 0 /\
  component (nondim_visc_e_ji_held hall Z) 0 =
    component (nondim_visc_e_ji_held hall' Z) 0 /\
  component (nondim_visc_i_ji_held hall Z mu theta) 0 =
    component (nondim_visc_i_ji_held hall' Z mu theta) 0.
Proof.
  split; [|split; [|split; [|split]]].
  - intros fo Hpar. split; [|split; [|split]].
    + unfold nondim_tc_e_ji_held.
      destruct (check_Z _ _ _) as [i|ex] eqn:Ei; [|reflexivity].
      rows Ei; cbn [rbind getitem nth_error]; rewrite Hpar; reflexivity.
    + unfold nondim_resist_ji_held.
      destruct (check_Z _ _ _) as [i|ex] eqn:Ei; [|reflexivity].
      rows Ei; cbn [rbind getitem nth_error]; rewrite Hpar; reflexivity.
    + unfold nondim_tec_ji_held.
      destruct (check_Z _ _ _) as [i|ex] eqn:Ei; [|reflexivity].
      rows Ei; cbn [rbind getitem nth_error]; rewrite Hpar; reflexivity.
    + unfold nondim_tc_i_ji_held. cbn [K Nat.eqb rbind].
      rewrite Hpar. reflexivity.
  - unfold nondim_visc_e_braginskii. destruct (check_Z _ _ _); reflexivity.
  - reflexivity.
  - unfold nondim_visc_e_ji_held.
    destruct (check_Z _ _ _) as [i|ex] eqn:Ei; [|reflexivity].
    rows Ei; reflexivity.
  - reflexivity.
Qed.

End AlongTheField.

(** Hall parameters 0 and 5 at charge state 2. *)
Lemma parallel_components_ignore_the_field_witness :
  nondim_tc_i_ji_held (A := R) (lit 0) (lit 2) (lit 1) (lit 1) "par" =
    nondim_tc_i_ji_held (A := R) (lit 5) (lit 2) (lit 1) (lit 1) "par" /\
  nondim_resist_ji_held (A := R) (lit 0) (lit 2) "parallel" =
    nondim_resist_ji_held (A := R) (lit 5) (lit 2) "parallel".
Proof.
  destruct (parallel_components_ignore_the_field (A := R) (lit 0) (lit 5)
              (lit 2) (lit 1) (lit 1)) as [Hpar _].
  split.
  - apply (Hpar "par"%string). reflexivity.
  - apply (Hpar "parallel"%string). reflexivity.
Defined.

Section Unmagnetized.
Local Open Scope R_scope.

Lemma eta_2_at_0 (c_2 c_0 delta_1 delta_0 two : R) :
  (c_2 * (two * 0) ^ 2 + c_0) /
  ((two * 0) ^ 4 + delta_1 * (two * 0) ^ 2 + delta_0) =
  (c_2 * 0 ^ 2 + c_0) / (0 ^ 4 + delta_1 * 0 ^ 2 + delta_0).
Proof. now rewrite Rmult_0_r. Qed.

Lemma eta_4_at_0 (c_2 c_0 denominator : R) :
  (c_2 * 0 ^ 3 + c_0 * 0) / denominator = 0.
Proof.
  replace (c_2 * 0 ^ 3 + c_0 * 0) with 0 by ring.
  unfold Rdiv. apply Rmult_0_l.
Qed.

(** X23.  Without a magnetic field the two Braginskii viscosities have two
    independent components: at Hall parameter 0, components 1 and 2 are
    equal and components 3 and 4 are 0. *)
Theorem unmagnetized_viscosity (Z : R) (v : pyval R) :
  (nondim_visc_e_braginskii 0 Z = Ok v ->
   exists eta_0 eta_2 : R, v = Some (Array [eta_0; eta_2; eta_2; 0; 0])) /\
  (exists eta_0 eta_2 : R,
     nondim_visc_i_braginskii 0 =
     Ok (Some (Array [eta_0; eta_2; eta_2; 0; 0]))).
Proof.
  split.
  - unfold nondim_visc_e_braginskii.
    destruct (check_Z _ _ _) as [i|ex]; [|discriminate].
    cbn [rbind fadd fmul fdiv fpow Arith_R]. intros [= <-].
    rewrite Rmult_0_r, !eta_4_at_0. do 2 eexists. reflexivity.
  - unfold nondim_visc_i_braginskii.
    cbn [fadd fmul fdiv fpow Arith_R].
    rewrite Rmult_0_r, !eta_4_at_0. do 2 eexists. reflexivity.
Qed.

End Unmagnetized.

(** The row of Z = 1 in the list of the Braginskii electron viscosity. *)
Lemma visc_e_row_of_1 (caller : string) :
  check_Z (A := R) [KNum (lit 1)] (lit 1) caller = Ok 0.
Proof.
  unfold check_Z, find_arbitrary, find_Z, enumerate.
  cbn [List.length seq combine fold_left fst snd is_arbitrary Z_eq].
  rewrite !feqb_lit. reflexivity.
Qed.

(** Electrons at charge state 1. *)
Lemma unmagnetized_viscosity_witness :
  exists eta_0 eta_2 : R,
    nondim_visc_e_braginskii 0%R (lit 1) =
    Ok (Some (Array [eta_0; eta_2; eta_2; 0%R; 0%R])).
Proof.
  assert (exists v, nondim_visc_e_braginskii 0%R (lit 1) = Ok v) as [v E].
  { unfold nondim_visc_e_braginskii. rewrite visc_e_row_of_1.
    eexists. reflexivity. }
  destruct (proj1 (unmagnetized_viscosity (lit 1) v) E) as (eta_0 & eta_2 & ->).
  exists eta_0, eta_2. exact E.
Defined.

(** ** The direction of the cross components *)

Section CrossDirection.
Local Open Scope R_scope.

Lemma cross_sign (c_1 c_0 delta_1 delta_0 x : R) :
  0 < c_1 -> 0 < c_0 -> 0 < delta_1 -> 0 < delta_0 ->
  let cross := (c_1 * x ^ 3 + c_0 * x) /
               (x ^ 4 + delta_1 * x ^ 2 + delta_0) in
  (0 < x -> 0 < cross) /\ (x < 0 -> cross < 0) /\ (x = 0 -> cross = 0).
Proof.
  intros Hc1 Hc0 Hd1 Hd0 cross. unfold cross.
  pose proof (quartic_positive delta_1 delta_0 x Hd1 Hd0) as HD.
  assert (c_1 * x ^ 3 + c_0 * x = x * (c_1 * x ^ 2 + c_0)) as -> by ring.
  assert (0 < c_1 * x ^ 2 + c_0) as Hn by nra.
  split; [|split].
  - intros Hx. apply Rdiv_lt_0_compat; [|lra].
    now apply Rmult_lt_0_compat.
  - intros Hx.
    assert (0 < - x * (c_1 * x ^ 2 + c_0) /
                (x ^ 4 + delta_1 * x ^ 2 + delta_0)) as Hpos.
    { apply Rdiv_lt_0_compat; [|lra]. apply Rmult_lt_0_compat; lra. }
    replace (- x * (c_1 * x ^ 2 + c_0)) with (- (x * (c_1 * x ^ 2 + c_0)))
      in Hpos by ring.
    rewrite Rdiv_opp_l in Hpos. lra.
  - intros ->. rewrite Rmult_0_l. unfold Rdiv. apply Rmult_0_l.
Qed.

Ltac rows E :=
  let Hlt := fresh "Hlt" in
  pose proof (check_Z_in_range _ _ _ _ E) as Hlt; simpl in Hlt;
  match type of E with
  | check_Z _ _ _ = Ok ?idx =>
      destruct idx as [|[|[|[|[|?]]]]]; try (exfalso; lia)
  end.

Ltac table_row :=
  cbn [rbind getitem nth_error is_par is_perp is_cross is_all
       String.eqb Ascii.eqb Bool.eqb orb
       braginskii_delta_0 braginskii_delta_1
       tc_e_gamma_1_prime tc_e_gamma_0_prime
       tc_e_gamma_1_doubleprime tc_e_gamma_0_doubleprime
       resist_alpha_1_prime resist_alpha_0_prime
       resist_alpha_1_doubleprime resist_alpha_0_doubleprime
       tec_beta_1_prime tec_beta_0_prime
       tec_beta_1_doubleprime tec_beta_0_doubleprime
       fadd fsub fmul fdiv fpow Arith_R_inf].

Ltac by_the_table :=
  cbn [lit Arith_R_inf]; unfold Q2R; simpl; lra.

(** X24.  The cross component of the Braginskii electron thermal
    conductivity, resistivity and thermoelectric conductivity points with
    the field: for each of the five tabulated charge states, 1, 2, 3, 4 and
    infinity, it is positive for a positive Hall parameter, negative for a
    negative one and 0 at 0.  The arithmetic is that of the reals with any
    test for infinity, so that the row of infinity is among the rows. *)
Theorem cross_component_follows_the_field (pinf : R -> bool)
  (hall Z par perp cross : R) :
  nondim_tc_e_braginskii (H := Arith_R_inf pinf) hall Z "all" =
    Ok (Some (Array [par; perp; cross])) \/
  nondim_resist_braginskii (H := Arith_R_inf pinf) hall Z "all" =
    Ok (Some (Array [par; perp; cross])) \/
  nondim_tec_braginskii (H := Arith_R_inf pinf) hall Z "all" =
    Ok (Some (Array [par; perp; cross])) ->
  (0 < hall -> 0 < cross) /\ (hall < 0 -> cross < 0) /\
  (hall = 0 -> cross = 0).
Proof.
  intros [E|[E|E]]; revert E.
  - unfold nondim_tc_e_braginskii.
    destruct (check_Z _ _ _) as [i|ex] eqn:Ei; [|discriminate].
    rows Ei; table_row; intros [= <- <- <-]; apply cross_sign; by_the_table.
  - unfold nondim_resist_braginskii.
    destruct (check_Z _ _ _) as [i|ex] eqn:Ei; [|discriminate].
    rows Ei; table_row; intros [= <- <- <-]; apply cross_sign; by_the_table.
  - unfold nondim_tec_braginskii.
    destruct (check_Z _ _ _) as [i|ex] eqn:Ei; [|discriminate].
    rows Ei; table_row; intros [= <- <- <-]; apply cross_sign; by_the_table.
Qed.

End CrossDirection.

(** The charge state infinity at Hall parameter 2 and the charge state 1 at
    Hall parameter -2. *)
Lemma cross_component_follows_the_field_witness :
  (exists par perp cross : R,
     nondim_resist_braginskii (H := Arith_R_inf beyond_doubles) 2%R
       (Q2R (2 ^ 1025)) "all" = Ok (Some (Array [par; perp; cross])) /\
     (0 < cross)%R) /\
  (exists par perp cross : R,
     nondim_resist_braginskii (H := Arith_R_inf (fun _ => false)) (-2)%R
       (Q2R 1) "all" = Ok (Some (Array [par; perp; cross])) /\
     (cross < 0)%R).
Proof.
  split.
  - assert (exists par perp cross : R,
              nondim_resist_braginskii (H := Arith_R_inf beyond_doubles) 2%R
                (Q2R (2 ^ 1025)) "all" =
              Ok (Some (Array [par; perp; cross])))
      as (par & perp & cross & E).
    { unfold nondim_resist_braginskii. rewrite braginskii_row_of_infinity.
      do 3 eexists. reflexivity. }
    exists par, perp, cross. split; [exact E|].
    apply (cross_component_follows_the_field beyond_doubles 2%R
             (Q2R (2 ^ 1025)) par perp cross (or_intror (or_introl E))).
    lra.
  - assert (exists par perp cross : R,
              nondim_resist_braginskii (H := Arith_R_inf (fun _ => false))
                (-2)%R (Q2R 1) "all" =
              Ok (Some (Array [par; perp; cross])))
      as (par & perp & cross & E).
    { unfold nondim_resist_braginskii.
      rewrite braginskii_first_row by reflexivity.
      do 3 eexists. reflexivity. }
    exists par, perp, cross. split; [exact E|].
    apply (cross_component_follows_the_field (fun _ => false) (-2)%R
             (Q2R 1) par perp cross (or_intror (or_introl E))).
    lra.
Defined.
